(** * yarlp.model: the [Graph] registry and the [Model] builder

    A shallow embedding of [yarlp/model/tf_model.py] and of the factories of
    [yarlp/model/model_factories.py].

    The wrapped framework is external.  Its collection store (the part the
    wrapper reads and writes directly) is modelled concretely; everything
    else (graph construction calls, session runs, user supplied closures) is
    an arbitrary, possibly failing, state transformer.  Python exceptions
    leave the state as it was at the raise, so every computation returns its
    outcome together with the state reached. *)

From Stdlib Require Import ZArith QArith.
From stdpp Require Import base option strings pretty list gmap.

Set Warnings "-register-all".
Local Open Scope string_scope.
Local Open Scope Z_scope.
Local Open Scope list_scope.

(** ** Exceptions *)

(** One constructor for each way an exception can come to exist while wrapper
    code runs: the three statements of the wrapper that raise, the
    interpreter evaluating a wrapper expression, and code outside the wrapper
    (the framework or a closure the caller supplied). *)
Inductive exn : Type :=
| KeyError (msg : string)           (* [raise KeyError(...)] in [Graph] *)
| ValueError (msg : string)         (* [raise ValueError(...)] in [build_graph] *)
| AssertionError                    (* a failed [assert] *)
| Interp (cls : string)             (* AttributeError, IndexError, ... of the interpreter *)
| Foreign (cls msg : string).       (* raised by the framework or by a closure *)

Definition exn_class (e : exn) : string :=
  match e with
  | KeyError _ => "KeyError"
  | ValueError _ => "ValueError"
  | AssertionError => "AssertionError"
  | Interp cls => cls
  | Foreign cls _ => cls
  end.

(** The exception object was constructed by a statement of the wrapper. *)
Definition raised_by_wrapper (e : exn) : bool :=
  match e with
  | KeyError _ | ValueError _ | AssertionError => true
  | Interp _ | Foreign _ _ => false
  end.

(** The exception came out of the framework (or a supplied closure). *)
Definition raised_by_framework (e : exn) : bool :=
  match e with
  | Foreign _ _ => true
  | _ => false
  end.

Inductive result (A : Type) : Type :=
| Ok (a : A)
| Raise (e : exn).
Arguments Ok {A} _.
Arguments Raise {A} _.

Definition is_Ok {A} (r : result A) : bool :=
  match r with Ok _ => true | Raise _ => false end.

(** ** The state-and-exception monad *)

Definition M (S A : Type) : Type := S → result A * S.

Definition ret {S A} (a : A) : M S A := λ s, (Ok a, s).
Definition raise {S A} (e : exn) : M S A := λ s, (Raise e, s).
Definition bind {S A B} (c : M S A) (k : A → M S B) : M S B :=
  λ s, match c s with
       | (Ok a, s') => k a s'
       | (Raise e, s') => (Raise e, s')
       end.
Definition get {S} : M S S := λ s, (Ok s, s).
Definition gets {S A} (f : S → A) : M S A := λ s, (Ok (f s), s).
Definition modify {S} (f : S → S) : M S unit := λ s, (Ok tt, f s).

(** Run a computation on a component of the state. *)
Definition zoom {S T A} (proj : S → T) (upd : T → S → S) (c : M T A) : M S A :=
  λ s, let '(r, t) := c (proj s) in (r, upd t s).

Declare Scope py_scope.
Delimit Scope py_scope with py.
Notation "'let*' x ':=' c 'in' k" := (bind c (λ x, k))
  (at level 10, x pattern, c at level 100, k at level 200) : py_scope.
Notation "'do' c 'then' k" := (bind c (λ _, k))
  (at level 10, c at level 100, k at level 200) : py_scope.
Local Open Scope py_scope.

(** [for x in l: body x] *)
Fixpoint for_each {S A} (l : list A) (body : A → M S unit) : M S unit :=
  match l with
  | [] => ret tt
  | x :: l' => do body x then for_each l' body
  end.

(** [[f x for x in l]] *)
Definition list_comp {S A B} (f : A → M S B) : list A → M S (list B) :=
  fix go l :=
    match l with
    | [] => ret []
    | x :: l' => let* y := f x in let* ys := go l' in ret (y :: ys)
    end.

(** [with mgr: body], for a manager whose [__exit__] returns nothing: the
    exit code runs whether or not the body raised; an exception of the body
    is raised again after it unless the exit code raised one itself. *)
Definition with_ {S A} (enter exit : M S unit) (body : M S A) : M S A :=
  do enter then
  λ s,
    match body s with
    | (Ok a, s') =>
        match exit s' with
        | (Ok _, s'') => (Ok a, s'')
        | (Raise e, s'') => (Raise e, s'')
        end
    | (Raise e, s') =>
        match exit s' with
        | (Ok _, s'') => (Raise e, s'')
        | (Raise e', s'') => (Raise e', s'')
        end
    end.

(** ** Python values used by the wrapper *)

(** The double quote character of the wrapper's messages. *)
Definition dq : string := String (Ascii.ascii_of_nat 34) EmptyString.

(** ['"%s"' % s] *)
Definition quoted (s : string) : string := dq +:+ s +:+ dq.

(** A [dict] as the list of its items in insertion order; setting a key that
    is present replaces its value where it stands. *)
Fixpoint dict_set {K V} `{EqDecision K} (k : K) (v : V) (d : list (K * V))
  : list (K * V) :=
  match d with
  | [] => [(k, v)]
  | (k', v') :: d' =>
      if decide (k = k') then (k', v) :: d' else (k', v') :: dict_set k v d'
  end.

(** [{k: v for k, v in kvs}] *)
Definition dict_of {K V} `{EqDecision K} (kvs : list (K * V)) : list (K * V) :=
  foldl (λ d kv, dict_set kv.1 kv.2 d) [] kvs.

Fixpoint dict_get {K V} `{EqDecision K} (k : K) (d : list (K * V)) : option V :=
  match d with
  | [] => None
  | (k', v) :: d' => if decide (k = k') then Some v else dict_get k d'
  end.

(** A numpy array: its shape and its elements in row-major order. *)
Record ndarray (scalar : Type) : Type := NdArray {
  shape : list nat;
  data : list scalar
}.
Arguments NdArray {scalar} _ _.
Arguments shape {scalar} _.
Arguments data {scalar} _.

(** [np.expand_dims(a, 0)] *)
Definition expand_dims0 {scalar} (a : ndarray scalar) : ndarray scalar :=
  NdArray (1%nat :: shape a) (data a).

(** [a.flatten()] *)
Definition flatten {scalar} (a : ndarray scalar) : ndarray scalar :=
  NdArray [length (data a)] (data a).

(** [len(a.shape)] *)
Definition ndim {scalar} (a : ndarray scalar) : nat := length (shape a).

(** What is fed to and fetched from a session. *)
Inductive value (scalar : Type) : Type :=
| VArray (a : ndarray scalar)
| VScalar (x : scalar)
| VNone
| VList (l : list (value scalar)).
Arguments VArray {scalar} _.
Arguments VScalar {scalar} _.
Arguments VNone {scalar}.
Arguments VList {scalar} _.

(** The [fetches] argument of a session run, in the two forms the wrapper
    passes: one node, or a list of attributes each of which may be [None].
    A run returns one value for the first form and a list for the second. *)
Inductive fetches (node : Type) : Type :=
| FetchOne (n : node)
| FetchList (l : list (option node)).
Arguments FetchOne {node} _.
Arguments FetchList {node} _.

Inductive dtype : Type := float32 | int32.

Inductive activation : Type := softmax | no_activation.

(** ** The framework *)

(** The graph and session the wrapper holds.  [collections] is the
    framework's name-to-list registry, [finalized] its read-only flag,
    [is_default] whether the graph is installed as the default graph, and
    [internals] all the rest (operations, variable values). *)
Record tf_state (node opaque : Type) : Type := TfState {
  collections : gmap string (list node);
  finalized : bool;
  is_default : bool;
  internals : opaque
}.
Arguments TfState {node opaque} _ _ _ _.
Arguments collections {node opaque} _.
Arguments finalized {node opaque} _.
Arguments is_default {node opaque} _.
Arguments internals {node opaque} _.

(** [tf.train.AdamOptimizer(learning_rate=...)]; building the object does not
    touch the graph. *)
Inductive optimizer : Type := AdamOptimizer (learning_rate : Q).

(** The graph construction calls the wrapper and the policy gradient factory
    make, named after the framework functions. *)
Inductive tf_call (node scalar : Type) : Type :=
| placeholder (dt : dtype) (shp : list (option Z)) (name : option string)
| placeholder_with_default (w : node)      (* shape taken from [w.get_shape()] *)
| assign (w w_input : node)                (* [w.assign(w_input)] *)
| variables_initializer (vars : list node)
| minimize (opt : optimizer) (loss : node) (* [opt.minimize(loss)] *)
| squeeze (x : node)
| gather (params indices : node)
| log (x : node)
| neg (x : node)
| mul (x y : node)
| sub (x y : node)
| scale (c : Q) (x : node)
| Normal (mu sigma : node)
| sample (dist : node) (shp : list Z)
| clip_by_value (x : node) (lo hi : scalar)
| log_prob (dist x : node)
| entropy (dist : node).
Arguments placeholder {node scalar} _ _ _.
Arguments placeholder_with_default {node scalar} _.
Arguments assign {node scalar} _ _.
Arguments variables_initializer {node scalar} _.
Arguments minimize {node scalar} _ _.
Arguments squeeze {node scalar} _.
Arguments gather {node scalar} _ _.
Arguments log {node scalar} _.
Arguments neg {node scalar} _.
Arguments mul {node scalar} _ _.
Arguments sub {node scalar} _ _.
Arguments scale {node scalar} _ _.
Arguments Normal {node scalar} _ _.
Arguments sample {node scalar} _ _.
Arguments clip_by_value {node scalar} _ _ _.
Arguments log_prob {node scalar} _ _.
Arguments entropy {node scalar} _.

(** The interface of the framework: graph objects, their [name] attribute,
    graph construction and session runs.  Nothing is assumed of what the
    operations return or of what they do to the state. *)
Class Framework : Type := {
  node : Type;
  node_eq_dec :: EqDecision node;
  scalar : Type;
  opaque : Type;
  name_of : node → string;
  fresh_internals : opaque;
  tf_build : tf_call node scalar → M (tf_state node opaque) node;
  session_run :
    node → list (node * value scalar) →
    M (tf_state node opaque) (value scalar);
  session_run_list :
    list (option node) → list (node * value scalar) →
    M (tf_state node opaque) (list (value scalar));
  (* numpy's conversion to an array of a value that is neither an array nor
     a scalar *)
  np_array_of_object : value scalar → ndarray scalar
}.

Abbreviation tf := (tf_state node opaque).
Abbreviation feed_dict := (list (node * value scalar)).

Abbreviation GLOBAL_VARIABLES_KEY := "variables".
Abbreviation TRAINABLE_VARIABLES_KEY := "trainable_variables".

(** ** class Graph *)

Module Graph.
Section Graph.
Context `{F : Framework}.


(** *** The framework's collection store *)

Definition set_collections (c : gmap string (list node)) (g : tf) : tf :=
  TfState c (finalized g) (is_default g) (internals g).
Definition set_finalized (b : bool) (g : tf) : tf :=
  TfState (collections g) b (is_default g) (internals g).
Definition set_is_default (b : bool) (g : tf) : tf :=
  TfState (collections g) (finalized g) b (internals g).

(** [graph.get_all_collection_keys()] *)
Definition get_all_collection_keys (g : tf) : list string :=
  (map_to_list (collections g)).*1.

(** [graph.get_collection(name)]: a copy of the list, empty for a name that
    has no collection. *)
Definition get_collection (name : string) (g : tf) : list node :=
  default [] (collections g !! name).

(** [graph.add_to_collection(name, value)]: refused on a finalized graph,
    otherwise appends to the collection, creating it when needed. *)
Definition add_to_collection (name : string) (value : node) : M tf unit :=
  λ g,
    if finalized g
    then (Raise (Foreign "RuntimeError" "Graph is finalized and cannot be modified."), g)
    else (Ok tt, set_collections
                   (<[name := (get_collection name g ++ [value])%list]> (collections g)) g).

(** [graph.finalize()] *)
Definition finalize : M tf unit := modify (set_finalized true).

(** *** The wrapper object *)

(** [_graph] stands for the graph together with the session opened on it
    ([self._graph], [self._session]); [_context] tells whether the attribute
    [self._context] has been set; [runs] is the history of the session runs
    the object has requested, oldest first. *)
Record t : Type := Build {
  _graph : tf;
  _context : bool;
  runs : list (fetches node * feed_dict)
}.

Definition on_graph {A} (c : M tf A) : M t A :=
  zoom _graph (λ g self, Build g (_context self) (runs self)) c.

Definition __init__ : t :=
  Build (TfState ∅ false false fresh_internals) false [].

Definition __enter__ : M t unit :=
  modify (λ self, Build (set_is_default true (_graph self)) true (runs self)).

Definition GLOBAL_VARIABLES (self : t) : list node :=
  get_collection GLOBAL_VARIABLES_KEY (_graph self).

Definition TRAINABLE_VARIABLES (self : t) : list node :=
  get_collection TRAINABLE_VARIABLES_KEY (_graph self).

Definition record_run (ops : fetches node) (feed : feed_dict) : M t unit :=
  modify (λ self,
    Build (_graph self) (_context self) (runs self ++ [(ops, feed)])%list).

(** [self._session.run(ops, feed_dict)] for one node, recorded in [runs]. *)
Definition run (ops : node) (feed : feed_dict) : M t (value scalar) :=
  do record_run (FetchOne ops) feed then
  on_graph (session_run ops feed).

(** [self._session.run(ops, feed_dict)] for a list, recorded in [runs]. *)
Definition run_list (ops : list (option node)) (feed : feed_dict)
  : M t (list (value scalar)) :=
  do record_run (FetchList ops) feed then
  on_graph (session_run_list ops feed).

(** [__call__(ops, feed_dict)] when [ops] is one node. *)
Definition __call__ (ops : node) (feed : feed_dict) : M t (value scalar) :=
  run ops feed.

(** [__call__(ops, feed_dict)] when [ops] is a list. *)
Definition __call__list (ops : list (option node)) (feed : feed_dict)
  : M t (list (value scalar)) :=
  run_list ops feed.

Definition __exit__ : M t unit :=
  let* vars := gets GLOBAL_VARIABLES in
  let* init := on_graph (tf_build (variables_initializer vars)) in
  do run init [] then
  do on_graph finalize then
  let* self := get in
  if _context self
  then on_graph (modify (set_is_default false))
  else raise (Interp "AttributeError").

Definition __contains__ (var_name : string) (self : t) : bool :=
  bool_decide (var_name ∈ get_all_collection_keys (_graph self)).

Definition __setitem__ (var_name : string) (tf_node : node) : M t unit :=
  let* self := get in
  if __contains__ var_name self
  then raise (KeyError (quoted var_name +:+ " is already in the graph."))
  else on_graph (add_to_collection var_name tf_node).

(** The argument of [__getitem__]: a name or a list of such arguments; and
    its result, of the same form. *)
Inductive names : Type :=
| Name (s : string)
| Names (l : list names).

Inductive nodes : Type :=
| Node (n : node)
| Nodes (l : list nodes).

(** [__getitem__] at a name that is not a list. *)
Definition getitem_str (var_names : string) : M t node :=
  let* self := get in
  if negb (__contains__ var_names self)
  then raise (KeyError (quoted var_names +:+ " does not exist in the graph."))
  else match get_collection var_names (_graph self) with
       | n :: _ => ret n
       | [] => raise (Interp "IndexError")
       end.

Fixpoint __getitem__ (var_names : names) : M t nodes :=
  match var_names with
  | Names l => let* r := list_comp __getitem__ l in ret (Nodes r)
  | Name s => let* n := getitem_str s in ret (Node n)
  end.

End Graph.
End Graph.

(** ** class Model *)

Module Model.
Section Model.
Context `{F : Framework}.


(** The attributes of an environment's spaces the wrapper reads; [None]
    stands for an attribute the space does not have. *)
Record space : Type := Space {
  n : option Z;
  shape_ : option (list Z);
  low : option (list scalar);
  high : option (list scalar)
}.

Record Env : Type := BuildEnv {
  observation_space : space;
  action_space : space
}.

(** [seq[0]] *)
Definition item0 {S A} (seq : list A) : M S A :=
  match seq with
  | x :: _ => ret x
  | [] => raise (Interp "IndexError")
  end.

(** [obj.attr] for an attribute that may be missing. *)
Definition getattr {S A} (attr : option A) : M S A :=
  match attr with
  | Some x => ret x
  | None => raise (Interp "AttributeError")
  end.

(** The attributes of a [Model] object other than the closure
    [build_update_feed_dict].  In [_loss], [_optimizer] and [_optimizer_op]
    the value [None] is Python's; [__dict__] holds the attributes that come
    into existence by assignment ([input_node], and those the factories
    set). *)
Record state : Type := BuildState {
  _env : Env;
  G : Graph.t;
  _loss : option node;
  _optimizer : option optimizer;
  _optimizer_op : option node;
  __dict__ : gmap string node
}.

Definition set_G (g : Graph.t) (self : state) : state :=
  BuildState (_env self) g (_loss self) (_optimizer self) (_optimizer_op self)
    (__dict__ self).
Definition set_loss (l : option node) (self : state) : state :=
  BuildState (_env self) (G self) l (_optimizer self) (_optimizer_op self)
    (__dict__ self).
Definition set_optimizer (o : option optimizer) (self : state) : state :=
  BuildState (_env self) (G self) (_loss self) o (_optimizer_op self)
    (__dict__ self).
Definition set_optimizer_op (o : option node) (self : state) : state :=
  BuildState (_env self) (G self) (_loss self) (_optimizer self) o
    (__dict__ self).
Definition set_dict (d : gmap string node) (self : state) : state :=
  BuildState (_env self) (G self) (_loss self) (_optimizer self)
    (_optimizer_op self) d.

(** [self.attr = x] and [self.attr] for an attribute of [__dict__]. *)
Definition setattr (attr : string) (x : node) : M state unit :=
  modify (λ self, set_dict (<[attr := x]> (__dict__ self)) self).
Definition attribute (attr : string) : M state node :=
  let* self := get in getattr (__dict__ self !! attr).

(** A method of [self.G]. *)
Definition on_G {A} (c : M Graph.t A) : M state A := zoom G set_G c.

(** A framework call made while the graph of [self.G] is the default one. *)
Definition tf_ (c : tf_call node scalar) : M state node :=
  on_G (Graph.on_graph (tf_build c)).

(** [self.G[name]] and [self.G[name] = x] *)
Definition G_get (name : string) : M state node := on_G (Graph.getitem_str name).
Definition G_set (name : string) (x : node) : M state unit :=
  on_G (Graph.__setitem__ name x).

Definition env : M state Env := gets _env.

Definition get_env_action_space_dimension : M state Z :=
  let* self := get in
  match n (action_space (_env self)) with
  | Some k => ret k
  | None =>
      let* shp := getattr (shape_ (action_space (_env self))) in
      item0 shp
  end.

(** The [weights] property. *)
Definition weights : M state (list node) :=
  gets (λ self, Graph.TRAINABLE_VARIABLES (G self)).

(** The setter of [weights]; the argument is the [dict] given, as the list
    of its items. *)
Definition weights_setter (weights : list (string * value scalar)) : M state unit :=
  let* items :=
    list_comp (λ nw, let* k := G_get ("weight_input_var:" +:+ nw.1) in
                     ret (k, nw.2)) weights in
  let feed_dict := dict_of items in
  let* ops := list_comp (λ nm, G_get ("set_weight_op:" +:+ nm)) weights.*1 in
  do on_G (Graph.__call__list (Some <$> ops) feed_dict) then
  ret tt.

Definition get_weight_names : M state (list string) :=
  let* ws := weights in ret (name_of <$> ws).

Definition get_weights : M state (list (value scalar)) :=
  let* ws := weights in
  on_G (Graph.__call__list (Some <$> ws) []).

Definition set_weights (weights_ : list (value scalar)) : M state unit :=
  let* ws := weights in
  let weight_dict := dict_of (zip (name_of <$> ws) weights_) in
  weights_setter weight_dict.

Definition loss : M state (option node) := gets _loss.
Definition loss_setter (loss : option node) : M state unit :=
  modify (set_loss loss).

Definition optimizer_ : M state (option optimizer) := gets _optimizer.
Definition optimizer_setter (opt : optimizer) : M state unit :=
  do modify (set_optimizer (Some opt)) then
  let* self := get in
  match _loss self with
  | None => raise AssertionError
  | Some l =>
      let* op := tf_ (minimize opt l) in
      modify (set_optimizer_op (Some op))
  end.

Definition add_input (name : string) (dt : dtype)
    (shape : option (list (option Z))) : M state node :=
  let* shape :=
    match shape with
    | Some shp => ret shp
    | None =>
        let* e := env in
        let* shp := getattr (shape_ (observation_space e)) in
        let* d := item0 shp in
        ret [None; Some d]
    end in
  let* input_node := tf_ (placeholder dt shape None) in
  do setattr "input_node" input_node then
  do G_set ("input:" +:+ name) input_node then
  attribute "input_node".

Definition add_output (network : node → Z → M tf node)
    (num_outputs : option Z) (name : string) (dt : dtype) : M state node :=
  let* num_outputs :=
    match num_outputs with
    | None => get_env_action_space_dimension
    | Some k => ret k
    end in
  let* input_node := attribute "input_node" in
  let* output_node := on_G (Graph.on_graph (network input_node num_outputs)) in
  do G_set ("output:" +:+ name) output_node then
  ret output_node.

Definition add_output_node (nd : node) (name : string) : M state node :=
  do G_set ("output:" +:+ name) nd then
  ret nd.

Definition create_weight_setter_ops : M state unit :=
  let* ws := weights in
  for_each ws (λ w,
    let* w_input := tf_ (placeholder_with_default w) in
    do G_set ("weight_input_var:" +:+ name_of w) w_input then
    let* op := tf_ (assign w w_input) in
    G_set ("set_weight_op:" +:+ name_of w) op).

(** [create_gradient_ops_for_node(node, transform_grad_func)].
    [compute_gradients] and [apply_gradients] stand for the methods of the
    optimizer object, which are not among the construction calls above;
    a gradient is [None] for a variable the node does not depend on.  The
    registry holds any object: [as_object] is the Python list of pairs seen
    as the one object that is registered under ['gradients:' + node.name]
    and handed to [apply_gradients]. *)
Definition create_gradient_ops_for_node
    (compute_gradients :
       optimizer → node → list node → M tf (list (option node * node)))
    (apply_gradients : optimizer → node → M tf node)
    (as_object : list (option node * node) → node)
    (nd : node) (transform_grad_func : option node → M tf (option node))
  : M state unit :=
  let* opt := optimizer_ in
  let* opt := getattr opt in
  let* ws := weights in
  let* grads_and_vars :=
    on_G (Graph.on_graph (compute_gradients opt nd ws)) in
  let* transformed :=
    list_comp (λ gv, let* g := on_G (Graph.on_graph (transform_grad_func gv.1)) in
                     ret (g, gv.2)) grads_and_vars in
  do G_set ("gradients:" +:+ name_of nd) (as_object transformed) then
  let* opt := optimizer_ in
  let* opt := getattr opt in
  let* grads := G_get ("gradients:" +:+ name_of nd) in
  let* op := on_G (Graph.on_graph (apply_gradients opt grads)) in
  G_set ("gradients_ops:" +:+ name_of nd) op.

(** [x.flatten()] for what a run returned. *)
Definition flatten_value {S} (x : value scalar) : M S (ndarray scalar) :=
  match x with
  | VArray a => ret (flatten a)
  | VScalar c => ret (NdArray [1%nat] [c])
  | VNone | VList _ => raise (Interp "AttributeError")
  end.

Definition predict (data_ : ndarray scalar) (output_name input_name : string)
  : M state (ndarray scalar) :=
  let data_ := if decide (ndim data_ = 1%nat) then expand_dims0 data_ else data_ in
  let* output := G_get output_name in
  let* input := G_get input_name in
  let feed_dict := dict_of [(input, VArray data_)] in
  let* out := on_G (Graph.__call__ output feed_dict) in
  flatten_value out.

(** [get_gradients(name, feed_dict)]: the object registered under
    ['gradients:' + name] is handed to the run as it is. *)
Definition get_gradients (name : string) (feed : feed_dict)
  : M state (value scalar) :=
  let* fetch := G_get ("gradients:" +:+ name) in
  on_G (Graph.__call__ fetch feed).

(** [apply_gradient_ops(name, feed_dict)] *)
Definition apply_gradient_ops (name : string) (feed : feed_dict)
  : M state (value scalar) :=
  let* fetch := G_get ("gradients_ops:" +:+ name) in
  on_G (Graph.__call__ fetch feed).

(** *** The object with its closure *)

Definition closure : Type := list (value scalar) → M state feed_dict.

Record t : Type := Build {
  self_ : state;
  build_update_feed_dict : option closure
}.

Definition on_self {A} (c : M state A) : M t A :=
  zoom self_ (λ s m, Build s (build_update_feed_dict m)) c.

Definition build_update_feed (args : list (value scalar)) : M t feed_dict :=
  let* m := get in
  let* f := getattr (build_update_feed_dict m) in
  on_self (f args).

Definition update (args : list (value scalar)) : M t (value scalar) :=
  let* m := get in
  match _optimizer_op (self_ m) with
  | None => raise AssertionError
  | Some _ =>
      let* feed_dict := build_update_feed args in
      let* m := get in
      let* r := on_self (on_G (Graph.__call__list
                  [_optimizer_op (self_ m); _loss (self_ m)] feed_dict)) in
      match r with
      | [_; loss] => ret loss
      | _ => raise (Interp "ValueError")
      end
  end.

(** The object at the point where [__init__] reaches its [with]. *)
Definition blank (env : Env) : t :=
  Build (BuildState env Graph.__init__ None None None ∅) None.

(** [__init__]: the outcome, and the object as [__init__] left it. *)
Definition __init__ (env : Env) (build_graph : M state unit)
    (build_update_feed_dict : closure) : result unit * t :=
  with_ (on_self (on_G Graph.__enter__)) (on_self (on_G Graph.__exit__))
    (do on_self build_graph then
     do on_self create_weight_setter_ops then
     modify (λ m, Build (self_ m) (Some build_update_feed_dict)))
    (blank env).

(** [Model(env, build_graph, build_update_feed_dict)] *)
Definition new (env : Env) (build_graph : M state unit)
    (build_update_feed_dict : closure) : result t :=
  match __init__ env build_graph build_update_feed_dict with
  | (Ok _, m) => Ok m
  | (Raise e, _) => Raise e
  end.

End Model.
End Model.

(** ** model_factories *)

Module model_factories.
Section model_factories.
Context `{F : Framework}.

Import Model.

(** numpy's view of a value as an array. *)
Definition asarray (v : value scalar) : ndarray scalar :=
  match v with
  | VArray a => a
  | VScalar x => NdArray [] [x]
  | VNone | VList _ => np_array_of_object v
  end.

(** The inner [build_graph(model, network, action_space)]; [learning_rate]
    is the variable of the enclosing function it refers to. *)
Definition build_graph (learning_rate : Q)
    (network : activation → node → Z → M tf node) (action_space_ : string)
  : M state unit :=
  let* input_node := add_input "" float32 None in
  do setattr "state" input_node then
  let* ret_ := tf_ (placeholder float32 [None] (Some "return")) in
  do setattr "Return" ret_ then
  do (if decide (action_space_ = "discrete") then
        let* output_node := add_output (network softmax) None "" float32 in
        let* act := tf_ (placeholder int32 [None] (Some "action")) in
        do setattr "action" act then
        let* sq := tf_ (squeeze output_node) in
        let* act := attribute "action" in
        let* action_probability := tf_ (gather sq act) in
        let* lg := tf_ (log action_probability) in
        let* ng := tf_ (neg lg) in
        let* ret_ := attribute "Return" in
        let* l := tf_ (mul ng ret_) in
        loss_setter (Some l)
      else if decide (action_space_ = "continuous") then
        let* mu := add_output (network no_activation) None "mean" float32 in
        do setattr "mu" mu then
        let* sigma := add_output (network no_activation) None "std_dev" float32 in
        do setattr "sigma" sigma then
        let* mu := attribute "mu" in
        let* sigma := attribute "sigma" in
        let* dist := tf_ (Normal mu sigma) in
        do setattr "normal_dist" dist then
        let* dist := attribute "normal_dist" in
        let* smp := tf_ (sample dist [1]) in
        let* act := tf_ (squeeze smp) in
        do setattr "action" act then
        let* act := attribute "action" in
        let* e := gets _env in
        let* lows := getattr (low (action_space e)) in
        let* lo := item0 lows in
        let* highs := getattr (high (action_space e)) in
        let* hi := item0 highs in
        let* act := tf_ (clip_by_value act lo hi) in
        do setattr "action" act then
        let* act := attribute "action" in
        do (do add_output_node act "" then ret tt) then
        let* dist := attribute "normal_dist" in
        let* act := attribute "action" in
        let* lp := tf_ (log_prob dist act) in
        let* ng := tf_ (neg lp) in
        let* ret_ := attribute "Return" in
        let* l := tf_ (mul ng ret_) in
        do loss_setter (Some l) then
        let* l := loss in
        let* dist := attribute "normal_dist" in
        let* en := tf_ (entropy dist) in
        let* sc := tf_ (scale (1 # 10) en) in
        match l with
        | Some l => let* l' := tf_ (sub l sc) in loss_setter (Some l')
        | None => raise (Interp "TypeError")
        end
      else
        raise (ValueError (action_space_ +:+ " is not a valid action_space")))
  then
  optimizer_setter (AdamOptimizer learning_rate).

(** The inner [build_update_feed_dict(model, state, return_, action)]. *)
Definition build_update_feed_dict : closure :=
  λ args,
    match args with
    | [state_; return_; action_] =>
        let* st := attribute "state" in
        let* rt := attribute "Return" in
        let* ac := attribute "action" in
        ret (dict_of [(st, VArray (expand_dims0 (asarray state_)));
                      (rt, VList [return_]);
                      (ac, VList [action_])])
    | _ => raise (Interp "TypeError")
    end.

Definition policy_gradient_model_factory (env : Env)
    (network : activation → node → Z → M tf node)
    (learning_rate : Q) (action_space_ : string) : result t :=
  new env (build_graph learning_rate network action_space_)
    build_update_feed_dict.

(** *** cem_model_factory *)

(** The inner [build_graph(model, network)] of [cem_model_factory]. *)
Definition cem_build_graph (network : activation → node → Z → M tf node)
  : M state unit :=
  do add_input "" float32 None then
  do add_output (network softmax) None "" float32 then
  ret tt.

(** The inner [build_update_feed_dict(model)] of [cem_model_factory], whose
    body is [pass]: it returns [None], which a run takes for the empty feed
    dict. *)
Definition cem_build_update_feed_dict : closure :=
  λ args,
    match args with
    | [] => ret []
    | _ => raise (Interp "TypeError")
    end.

Definition cem_model_factory (env : Env)
    (network : activation → node → Z → M tf node) : result t :=
  new env (cem_build_graph network) cem_build_update_feed_dict.

(** *** value_function_model_factory *)

(** The inner [build_graph(model, network)] of
    [value_function_model_factory].  [squared_difference] stands for the
    framework function of that name, which is not among the construction
    calls of the policy gradient factory. *)
Definition value_function_build_graph
    (squared_difference : node → node → M tf node) (learning_rate : Q)
    (network : activation → node → Z → M tf node) : M state unit :=
  let* input_node := add_input "" float32 None in
  let* output_node := add_output (network no_activation) (Some 1) "" float32 in
  do setattr "state" input_node then
  let* tv := tf_ (placeholder float32 [None] (Some "target_value")) in
  do setattr "target_value" tv then
  let* tv := attribute "target_value" in
  let* l := on_G (Graph.on_graph (squared_difference output_node tv)) in
  do loss_setter (Some l) then
  optimizer_setter (AdamOptimizer learning_rate).

(** The inner [build_update_feed_dict(model, state, target_value)]. *)
Definition value_function_build_update_feed_dict : closure :=
  λ args,
    match args with
    | [state_; target_value] =>
        let* st := attribute "state" in
        let* tv := attribute "target_value" in
        ret (dict_of [(st, VArray (expand_dims0 (asarray state_)));
                      (tv, VList [target_value])])
    | _ => raise (Interp "TypeError")
    end.

Definition value_function_model_factory
    (squared_difference : node → node → M tf node) (env : Env)
    (network : activation → node → Z → M tf node) (learning_rate : Q)
  : result t :=
  new env (value_function_build_graph squared_difference learning_rate network)
    value_function_build_update_feed_dict.

End model_factories.
End model_factories.

(** ** A small framework to run the wrapper on

    Nodes are numbered in the order they are created; a network is one dense
    layer, which creates a weight and a bias variable. *)

Module toy.

Definition finalized_error : exn :=
  Foreign "RuntimeError" "Graph is finalized and cannot be modified.".

Definition build (c : tf_call nat Z) : M (tf_state nat nat) nat :=
  λ g,
    if finalized g then (Raise finalized_error, g)
    else (Ok (internals g),
          TfState (collections g) (finalized g) (is_default g) (S (internals g))).

Definition run (ops : nat) (feed : list (nat * value Z))
  : M (tf_state nat nat) (value Z) :=
  λ g, (Ok (VArray (NdArray [1%nat; 2%nat] [Z.of_nat ops; 0])), g).

Definition run_list (ops : list (option nat)) (feed : list (nat * value Z))
  : M (tf_state nat nat) (list (value Z)) :=
  λ g, (Ok ((λ o, match o with
                  | Some k => VScalar (Z.of_nat k)
                  | None => VNone
                  end) <$> ops), g).

Definition framework : Framework := {|
  node := nat;
  scalar := Z;
  opaque := nat;
  name_of := pretty;
  fresh_internals := 0%nat;
  tf_build := build;
  session_run := run;
  session_run_list := run_list;
  np_array_of_object := λ _, NdArray [] []
|}.

Definition append_to (name : string) (x : nat)
    (c : gmap string (list nat)) : gmap string (list nat) :=
  <[name := (default [] (c !! name) ++ [x])%list]> c.

Definition new_variable (x : nat) (c : gmap string (list nat))
  : gmap string (list nat) :=
  append_to TRAINABLE_VARIABLES_KEY x (append_to GLOBAL_VARIABLES_KEY x c).

Definition network (a : activation) (inputs : nat) (num_outputs : Z)
  : M (tf_state nat nat) nat :=
  λ g,
    if finalized g then (Raise finalized_error, g)
    else
      let w := internals g in
      let b := S w in
      (Ok (S b),
       TfState (new_variable b (new_variable w (collections g)))
         (finalized g) (is_default g) (S (S b))).

(** The states the small framework goes through while the graph is open:
    the trainable variables are distinct and were numbered earlier. *)
Definition invariant (g : tf_state nat nat) : Prop :=
  finalized g = false ∧
  NoDup (default [] (collections g !! TRAINABLE_VARIABLES_KEY)) ∧
  ∀ x, x ∈ default [] (collections g !! TRAINABLE_VARIABLES_KEY) →
       (x < internals g)%nat.

(** A discrete environment: four observations, two actions. *)
Definition discrete_env : Model.Env (F := framework) :=
  Model.BuildEnv
    (Model.Space (F := framework) None (Some [4]) None None)
    (Model.Space (F := framework) (Some 2) None None None).

(** A continuous environment: one action in [-2, 2]. *)
Definition continuous_env : Model.Env (F := framework) :=
  Model.BuildEnv
    (Model.Space (F := framework) None (Some [3]) None None)
    (Model.Space (F := framework) None (Some [1]) (Some [-2]) (Some [2])).

(** The policy gradient model of the discrete environment. *)
Definition discrete_model : Model.t (F := framework) :=
  match model_factories.policy_gradient_model_factory (F := framework)
          discrete_env network (1 # 100) "discrete" with
  | Ok m => m
  | Raise _ => Model.blank discrete_env
  end.

(** The arguments of one update: a state, a return and an action. *)
Definition update_args : list (value Z) :=
  [VArray (NdArray [4%nat] [1; 2; 3; 4]); VScalar 5; VScalar 1].

(** A model under construction, once its input has been added. *)
Definition with_input : Model.state (F := framework) :=
  (Model.add_input (F := framework) "" float32 None
     (Model.BuildState discrete_env
        (Graph.Build (F := framework) (TfState ∅ false true 0%nat) true [])
        None None None ∅)).2.

(** The same, once the output of a softmax layer has been added. *)
Definition with_output : Model.state (F := framework) :=
  (Model.add_output (F := framework) (network softmax) None "" float32
     with_input).2.

(** The squared difference of the small framework: one more node. *)
Definition squared_difference (x y : nat) : M (tf_state nat nat) nat :=
  build (mul x y).

(** A framework like the small one, except that every session run fails. *)
Definition dead_framework : Framework := {|
  node := nat;
  scalar := Z;
  opaque := nat;
  name_of := pretty;
  fresh_internals := 0%nat;
  tf_build := build;
  session_run := λ _ _ g,
    (Raise (Foreign "FailedPreconditionError" "uninitialized value"), g);
  session_run_list := λ _ _ g,
    (Raise (Foreign "FailedPreconditionError" "uninitialized value"), g);
  np_array_of_object := λ _, NdArray [] []
|}.

(** The CEM model of the discrete environment. *)
Definition cem_model : Model.t (F := framework) :=
  match model_factories.cem_model_factory (F := framework) discrete_env
          network with
  | Ok m => m
  | Raise _ => Model.blank discrete_env
  end.

(** The value function model of the discrete environment. *)
Definition value_function_model : Model.t (F := framework) :=
  match model_factories.value_function_model_factory (F := framework)
          squared_difference discrete_env network (1 # 100) with
  | Ok m => m
  | Raise _ => Model.blank discrete_env
  end.

(** The keys the small framework never writes: all but its two collections
    of variables. *)
Definition untouched (k : string) : Prop :=
  k ≠ GLOBAL_VARIABLES_KEY ∧ k ≠ TRAINABLE_VARIABLES_KEY.

End toy.

(** * Vocabulary of the properties *)

(** The code [f x] leaves the state [s] as it is. *)
Definition reads {S A B : Type} (f : A → M S B) (s : S) (x : A) : Prop :=
  (f x s).2 = s.

(** Where an exception that reaches the caller of the wrapper can come
    from: the two [raise KeyError] statements of [Graph], a failed [assert]
    of [Model], the interpreter evaluating an expression of the wrapper
    (a missing attribute, an index out of range, a failed unpacking), or a
    call into the framework. *)
Inductive origin : Type :=
| name_taken
| name_missing
| failed_assert
| interpreter
| framework_call.

(** The code [c] keeps [P], whether it returns or raises. *)
Definition preserves {S A : Type} (P : S → Prop) (c : M S A) : Prop :=
  ∀ s, P s → P (c s).2.

Section Vocabulary.
Context `{F : Framework}.
Import Model.

Implicit Types (self : state) (m : Model.t) (gr : Graph.t) (g : tf) (nd : node).

(** What a registration that goes through does to the graph object. *)
Definition registered (var_name : string) nd gr : Graph.t :=
  Graph.Build
    (Graph.set_collections
       (<[var_name := [nd]]> (collections (Graph._graph gr)))
       (Graph._graph gr))
    (Graph._context gr) (Graph.runs gr).

(** Every registered key holds exactly one node. *)
Definition one_node_per_key gr : Prop :=
  ∀ k l, collections (Graph._graph gr) !! k = Some l → length l = 1%nat.

(** The object after a framework call that left the graph in state [g]. *)
Definition with_graph (g : tf) self : state :=
  set_G (Graph.Build g (Graph._context (G self)) (Graph.runs (G self))) self.

(** The object after a session run that left the graph in state [g]. *)
Definition after_run (ops : fetches node) (feed : feed_dict) (g : tf) self
  : state :=
  set_G (Graph.Build g (Graph._context (G self))
           (Graph.runs (G self) ++ [(ops, feed)])%list) self.

(** What [predict] feeds for [data_]. *)
Definition fed (data_ : ndarray scalar) : ndarray scalar :=
  match shape data_ with
  | [k] => NdArray [1%nat; k] (data data_)
  | _ => data_
  end.

(** The action-space dimension of an environment: [action_space.n] when the
    attribute exists, otherwise [action_space.shape[0]]. *)
Definition action_space_dimension (e : Env) : option Z :=
  match n (action_space e) with
  | Some k => Some k
  | None =>
      match shape_ (action_space e) with
      | Some (k :: _) => Some k
      | _ => None
      end
  end.

(** The [num_outputs] that [add_output] passes to the network. *)
Definition resolved_num_outputs (num_outputs : option Z) (e : Env) : option Z :=
  match num_outputs with
  | Some k => Some k
  | None => action_space_dimension e
  end.

(** The object once [__init__] has entered the context of its new graph. *)
Definition entered (env : Env) : state :=
  BuildState env
    (Graph.Build (TfState ∅ false true fresh_internals) true [])
    None None None ∅.

(** The graph object after a successful [__exit__] whose initializer run
    left the framework in state [g]. *)
Definition exited (init : node) (g : tf) (self : Graph.t) : Graph.t :=
  Graph.Build (Graph.set_is_default false (Graph.set_finalized true g))
    (Graph._context self)
    (Graph.runs self ++ [(FetchOne init, [])])%list.

(** The keys under which the weight setter of a variable is registered. *)
Definition setter_key (k : string) : Prop :=
  ∃ nm, k = "weight_input_var:" +:+ nm ∨ k = "set_weight_op:" +:+ nm.

(** Graph construction leaves the collections of the setter keys alone. *)
Definition keeps_setter_keys : Prop :=
  ∀ c g k, setter_key k →
    collections (tf_build c g).2 !! k = collections g !! k.

(** The body of the loop of [create_weight_setter_ops]. *)
Definition setter_ops_for (w : node) : M state unit :=
  let* w_input := tf_ (placeholder_with_default w) in
  do G_set ("weight_input_var:" +:+ name_of w) w_input then
  let* op := tf_ (assign w w_input) in
  G_set ("set_weight_op:" +:+ name_of w) op.

(** The collections of an object. *)
Definition colls self : gmap string (list node) :=
  collections (Graph._graph (G self)).

(** [w_input] and [op] are registered as the setter of [w], and were built
    as a placeholder defaulting to [w] and an assignment of it to [w]. *)
Definition setter_registered (w w_input op : node) self : Prop :=
  colls self !! ("weight_input_var:" +:+ name_of w) = Some [w_input] ∧
  colls self !! ("set_weight_op:" +:+ name_of w) = Some [op] ∧
  (∃ g, (tf_build (placeholder_with_default w) g).1 = Ok w_input) ∧
  (∃ g, (tf_build (assign w w_input) g).1 = Ok op).

(** Setter keys registered in [self] are the same in [self']. *)
Definition setters_persist self self' : Prop :=
  ∀ k, setter_key k → is_Some (colls self !! k) →
       colls self' !! k = colls self !! k.

(** One key-value pair of the feed dict of the [weights] setter. *)
Definition feed_item (nw : string * value scalar) : M state (node * value scalar) :=
  let* k := G_get ("weight_input_var:" +:+ nw.1) in ret (k, nw.2).

(** The keys the wrapper registers nodes under. *)
Definition wrapper_key (k : string) : Prop :=
  ∃ nm, k = "input:" +:+ nm ∨ k = "output:" +:+ nm ∨
        k = "weight_input_var:" +:+ nm ∨ k = "set_weight_op:" +:+ nm.

(** [g'] has the collections of [g] at the wrapper's keys. *)
Definition same_wrapper_keys g g' : Prop :=
  ∀ k, wrapper_key k → collections g' !! k = collections g !! k.

(** A framework and a network that work as long as the graph is open: the
    states they go through satisfy [I], in which the graph is not finalized
    and the trainable variables have distinct names; construction calls,
    the network and runs succeed there, and none of them touches the
    collections of the wrapper's keys. *)
Record well_behaved (I : tf → Prop)
    (network : activation → node → Z → M tf node) : Prop := {
  wb_fresh : I (TfState ∅ false true fresh_internals);
  wb_open : ∀ g, I g → finalized g = false;
  wb_names : ∀ g, I g →
    NoDup (name_of <$> Graph.get_collection TRAINABLE_VARIABLES_KEY g);
  wb_build : ∀ c g, I g →
    ∃ x g', tf_build c g = (Ok x, g') ∧ I g' ∧ same_wrapper_keys g g';
  wb_network : ∀ a i k g, I g →
    ∃ x g', network a i k g = (Ok x, g') ∧ I g' ∧ same_wrapper_keys g g';
  wb_register : ∀ k x g, I g → wrapper_key k →
    I (Graph.set_collections (<[k := [x]]> (collections g)) g);
  wb_run : ∀ x g, I g →
    ∃ v g', session_run x [] g = (Ok v, g') ∧ same_wrapper_keys g g'
}.

(** An environment the factory can build a model for. *)
Definition suitable (e : Env) (action_space_ : string) : Prop :=
  (∃ d ds, shape_ (observation_space e) = Some (d :: ds)) ∧
  (action_space_ = "discrete" ∨ action_space_ = "continuous" →
   is_Some (action_space_dimension e)) ∧
  (action_space_ = "continuous" →
   ∃ lo los hi his, low (action_space e) = Some (lo :: los) ∧
                    high (action_space e) = Some (hi :: his)).

(** [R] lists what the wrapper has registered in the graph object [gr],
    whose context is entered and whose framework state satisfies [I]. *)
Definition tracks (I : tf → Prop) (R : gmap string node) gr : Prop :=
  I (Graph._graph gr) ∧ Graph._context gr = true ∧
  ∀ k, wrapper_key k →
       collections (Graph._graph gr) !! k = (λ x, [x]) <$> R !! k.

(** What the factory hands back when [build_graph] went through. *)
Definition built (env : Env) (m : Model.t) : Prop :=
  _env (self_ m) = env ∧
  is_Some (_loss (self_ m)) ∧
  is_Some (_optimizer_op (self_ m)) ∧
  Model.build_update_feed_dict m = Some model_factories.build_update_feed_dict ∧
  finalized (Graph._graph (G (self_ m))) = true.

(** The shape [add_input] gives the placeholder when none is passed: any
    number of rows of the width of an observation. *)
Definition default_input_shape (e : Env) : result (list (option Z)) :=
  match shape_ (observation_space e) with
  | None => Raise (Interp "AttributeError")
  | Some [] => Raise (Interp "IndexError")
  | Some (d :: _) => Ok [None; Some d]
  end.

(** The framework state once [nd] is the collection of the key. *)
Definition tf_registered (var_name : string) nd (g : tf) : tf :=
  Graph.set_collections (<[var_name := [nd]]> (collections g)) g.

(** The code [c] changes nothing of the model but its graph object. *)
Definition only_graph {A} (c : M state A) : Prop :=
  ∀ self, (c self).2 = set_G (G (c self).2) self.

(** The code [c] leaves the loss and the optimizer op of the model alone. *)
Definition keeps_training {A} (c : M state A) : Prop :=
  ∀ self, _loss (c self).2 = _loss self ∧
          _optimizer_op (c self).2 = _optimizer_op self.

(** The exception [e] is what some call into the framework raised: a
    graph construction call, a session run, or adding to a collection. *)
Definition from_framework (e : exn) : Prop :=
  (∃ c g, (tf_build c g).1 = Raise e) ∨
  (∃ x feed g, (session_run x feed g).1 = Raise e) ∨
  (∃ l feed g, (session_run_list l feed g).1 = Raise e) ∨
  (∃ k nd g, (Graph.add_to_collection k nd g).1 = Raise e).

Definition came_from (o : origin) (e : exn) : Prop :=
  match o with
  | name_taken =>
      ∃ k, e = KeyError (quoted k +:+ " is already in the graph.")
  | name_missing =>
      ∃ k, e = KeyError (quoted k +:+ " does not exist in the graph.")
  | failed_assert => e = AssertionError
  | interpreter => ∃ cls, e = Interp cls
  | framework_call => from_framework e
  end.

(** Every exception of the code [c] is one that a closure supplied by the
    caller raised ([C]), or has one of the origins [os]. *)
Definition raises_only {S A} (C : exn → Prop) (os : list origin) (c : M S A)
  : Prop :=
  ∀ s e, (c s).1 = Raise e → C e ∨ ∃ o, o ∈ os ∧ came_from o e.

(** No closure is involved. *)
Definition no_closure : exn → Prop := λ _, False.

(** The exception [e] is what the code [c] of the caller raised. *)
Definition raised_by {S A} (c : M S A) (e : exn) : Prop :=
  ∃ s, (c s).1 = Raise e.

(** Every key of [K] that has a collection holds exactly one node. *)
Definition one_node_at (K : string → Prop) g : Prop :=
  ∀ k l, K k → collections g !! k = Some l → length l = 1%nat.
Definition graph_ok (K : string → Prop) gr : Prop :=
  one_node_at K (Graph._graph gr).
Definition model_ok (K : string → Prop) self : Prop := graph_ok K (G self).

(** The code [c] leaves the collections of the keys of [K] as they are. *)
Definition keeps_keys {A} (K : string → Prop) (c : M tf A) : Prop :=
  ∀ g k, K k → collections (c g).2 !! k = collections g !! k.

(** The framework leaves the collections of the keys of [K] to the
    wrapper: no construction call and no run changes them. *)
Definition framework_keeps (K : string → Prop) : Prop :=
  (∀ c, keeps_keys K (tf_build c)) ∧
  (∀ x feed, keeps_keys K (session_run x feed)) ∧
  (∀ l feed, keeps_keys K (session_run_list l feed)).

End Vocabulary.

(** * Properties *)

(** ** Comprehensions over code that only reads the state *)

Section ReadOnly.
Context {S A B : Type} (f : A → M S B) (s : S).

Lemma list_comp_nil : list_comp f [] s = (Ok [], s).
Proof. reflexivity. Qed.

Lemma list_comp_cons x l :
  reads f s x →
  list_comp f (x :: l) s =
    match (f x s).1 with
    | Ok y =>
        match list_comp f l s with
        | (Ok ys, s') => (Ok (y :: ys), s')
        | (Raise e, s') => (Raise e, s')
        end
    | Raise e => (Raise e, s)
    end.
Proof.
  unfold reads. intros Hx. cbn [list_comp]. unfold bind at 1.
  destruct (f x s) as [[y|e] s'] eqn:E; cbn in Hx |- *; subst s'; [|done].
  unfold bind, ret. destruct (list_comp f l s) as [[ys|e] s']; done.
Qed.

Lemma list_comp_reads l : Forall (reads f s) l → (list_comp f l s).2 = s.
Proof.
  induction 1 as [|x l Hx Hl IH]; [done|].
  rewrite list_comp_cons by done.
  destruct (f x s).1; [|done].
  destruct (list_comp f l s) as [[ys|e] s']; done.
Qed.

Lemma list_comp_ok l ys :
  Forall (reads f s) l →
  (list_comp f l s).1 = Ok ys ↔ Forall2 (λ x y, (f x s).1 = Ok y) l ys.
Proof.
  intros Hl. revert ys. induction Hl as [|x l Hx Hl IH]; intros ys.
  - cbn. split.
    + intros [= <-]. constructor.
    + intros H. by inversion H.
  - rewrite list_comp_cons by done. split.
    + destruct (f x s).1 as [y|e] eqn:E; [|done].
      destruct (list_comp f l s) as [[zs|e] s'] eqn:E'; [|done].
      intros [= <-]. constructor; [done|]. by apply IH.
    + intros H. inversion H as [|? y ? zs Hy Hzs]; subst. rewrite Hy.
      apply IH in Hzs. destruct (list_comp f l s) as [[zs'|e] s']; cbn in *;
        congruence.
Qed.

Lemma list_comp_raise l :
  Forall (reads f s) l →
  (∃ e, (list_comp f l s).1 = Raise e) ↔
  Exists (λ x, ∃ e, (f x s).1 = Raise e) l.
Proof.
  induction 1 as [|x l Hx Hl IH].
  - cbn. split; [by intros [e ?]|]. intros H. by inversion H.
  - rewrite list_comp_cons by done. rewrite Exists_cons, <- IH.
    destruct (f x s).1 as [y|e] eqn:E.
    + destruct (list_comp f l s) as [[zs|e] s']; cbn; split.
      * by intros [? ?].
      * intros [[? ?]|[? ?]]; done.
      * intros [e' ?]. right. by exists e'.
      * intros _. by exists e.
    + split; [|by exists e]. intros _. left. by exists e.
Qed.

End ReadOnly.

(** ** The registry *)

Section GraphFacts.
Context `{F : Framework}.
Import Graph.

Implicit Types (self : Graph.t) (g : tf) (nd : node).

Lemma elem_of_keys (var_name : string) g :
  var_name ∈ get_all_collection_keys g ↔ is_Some (collections g !! var_name).
Proof.
  unfold get_all_collection_keys. rewrite list_elem_of_fmap. split.
  - intros [[k l] [-> Hin]]. apply elem_of_map_to_list in Hin. by exists l.
  - intros [l Hl]. exists (var_name, l). split; [done|].
    by apply elem_of_map_to_list.
Qed.

Lemma contains_true var_name self :
  __contains__ var_name self = true ↔
  is_Some (collections (_graph self) !! var_name).
Proof.
  unfold __contains__. rewrite bool_decide_eq_true. apply elem_of_keys.
Qed.

Lemma contains_false var_name self :
  __contains__ var_name self = false ↔
  collections (_graph self) !! var_name = None.
Proof.
  rewrite <- not_true_iff_false, contains_true, <- eq_None_not_Some. done.
Qed.

Lemma setitem_taken var_name nd self :
  __contains__ var_name self = true →
  __setitem__ var_name nd self =
    (Raise (KeyError (quoted var_name +:+ " is already in the graph.")), self).
Proof. intros H. unfold __setitem__, bind, get, raise. by rewrite H. Qed.

Lemma setitem_new var_name nd self :
  __contains__ var_name self = false →
  finalized (_graph self) = false →
  __setitem__ var_name nd self = (Ok tt, registered var_name nd self).
Proof.
  intros Hc Hf. unfold __setitem__, bind, get. rewrite Hc.
  unfold on_graph, zoom, add_to_collection. rewrite Hf.
  apply contains_false in Hc. unfold registered, get_collection.
  by rewrite Hc.
Qed.

Lemma setitem_finalized var_name nd self :
  __contains__ var_name self = false →
  finalized (_graph self) = true →
  ∃ msg, __setitem__ var_name nd self = (Raise (Foreign "RuntimeError" msg), self).
Proof.
  intros Hc Hf. unfold __setitem__, bind, get. rewrite Hc.
  unfold on_graph, zoom, add_to_collection. rewrite Hf.
  eexists. by destruct self.
Qed.

Lemma setitem_ok_inv var_name nd self self' :
  __setitem__ var_name nd self = (Ok tt, self') →
  __contains__ var_name self = false ∧ finalized (_graph self) = false ∧
  self' = registered var_name nd self.
Proof.
  intros H.
  destruct (__contains__ var_name self) eqn:Hc.
  { rewrite setitem_taken in H by done. done. }
  destruct (finalized (_graph self)) eqn:Hf.
  { destruct (setitem_finalized var_name nd self Hc Hf) as [msg Hm].
    congruence. }
  rewrite setitem_new in H by done. by inversion H.
Qed.

Lemma getitem_str_missing var_name self :
  __contains__ var_name self = false →
  getitem_str var_name self =
    (Raise (KeyError (quoted var_name +:+ " does not exist in the graph.")), self).
Proof. intros H. unfold getitem_str, bind, get, raise. by rewrite H. Qed.

Lemma getitem_str_present var_name self l :
  collections (_graph self) !! var_name = Some l →
  getitem_str var_name self =
    (match l with
     | nd :: _ => Ok nd
     | [] => Raise (Interp "IndexError")
     end, self).
Proof.
  intros H. unfold getitem_str, bind, get.
  assert (__contains__ var_name self = true) as ->
    by (apply contains_true; eauto).
  unfold get_collection. rewrite H. by destruct l.
Qed.

Lemma getitem_str_reads var_name self : (getitem_str var_name self).2 = self.
Proof.
  destruct (collections (_graph self) !! var_name) as [l|] eqn:E.
  - rewrite (getitem_str_present _ _ _ E). done.
  - apply contains_false in E. by rewrite getitem_str_missing.
Qed.

Lemma getitem_Name s self :
  __getitem__ (Name s) self =
    (match (getitem_str s self).1 with
     | Ok nd => Ok (Node nd)
     | Raise e => Raise e
     end, self).
Proof.
  cbn [__getitem__]. unfold bind, ret.
  pose proof (getitem_str_reads s self) as H.
  destruct (getitem_str s self) as [[nd|e] self']; cbn in *; by subst.
Qed.

Lemma names_induction (P : names → Prop) :
  (∀ s, P (Name s)) →
  (∀ l, Forall P l → P (Names l)) →
  ∀ v, P v.
Proof.
  intros Hname Hnames. fix IH 1. intros [s|l]; [apply Hname|].
  apply Hnames. induction l as [|v l IHl]; constructor; [apply IH|apply IHl].
Qed.

Lemma getitem_reads v self : (__getitem__ v self).2 = self.
Proof.
  induction v as [s|l IH] using names_induction.
  - by rewrite getitem_Name.
  - cbn [__getitem__]. unfold bind.
    pose proof (list_comp_reads __getitem__ self l IH) as H.
    destruct (list_comp __getitem__ l self) as [[r|e] self']; cbn in *; by subst.
Qed.

Lemma getitem_Names l self :
  __getitem__ (Names l) self =
    (match (list_comp __getitem__ l self).1 with
     | Ok r => Ok (Nodes r)
     | Raise e => Raise e
     end, self).
Proof.
  pose proof (getitem_reads (Names l) self) as H. revert H.
  cbn [__getitem__]. unfold bind, ret.
  destruct (list_comp __getitem__ l self) as [[r|e] self']; cbn; by intros ->.
Qed.

Lemma registered_one_node_per_key var_name nd self :
  one_node_per_key self → one_node_per_key (registered var_name nd self).
Proof.
  intros Hinv k l. cbn. rewrite lookup_insert.
  case_decide; [by intros [= <-]|apply Hinv].
Qed.

Lemma setitem_one_node_per_key var_name nd self :
  one_node_per_key self →
  one_node_per_key (__setitem__ var_name nd self).2.
Proof.
  intros Hinv. destruct (__contains__ var_name self) eqn:Hc.
  { by rewrite setitem_taken. }
  destruct (finalized (_graph self)) eqn:Hf.
  { destruct (setitem_finalized var_name nd self Hc Hf) as [msg ->]. done. }
  rewrite setitem_new by done. by apply registered_one_node_per_key.
Qed.

Lemma getitem_registered var_name nd self :
  __getitem__ (Name var_name) (registered var_name nd self) =
    (Ok (Node nd), registered var_name nd self) ∧
  __contains__ var_name (registered var_name nd self) = true.
Proof.
  assert (collections (_graph (registered var_name nd self)) !! var_name
          = Some [nd]) as Hl by (cbn; apply lookup_insert_eq).
  split.
  - by rewrite getitem_Name, (getitem_str_present _ _ _ Hl).
  - apply contains_true. eauto.
Qed.

(** C2. For a name and a node, once [Graph.__setitem__(name, node)] has
    succeeded, [Graph.__getitem__(name)] returns exactly that node and
    [Graph.__contains__(name)] is true. *)
Theorem setitem_then_getitem var_name nd self self' :
  __setitem__ var_name nd self = (Ok tt, self') →
  __getitem__ (Name var_name) self' = (Ok (Node nd), self') ∧
  __contains__ var_name self' = true.
Proof.
  intros H. apply setitem_ok_inv in H as (_ & _ & ->).
  assert (collections (_graph (registered var_name nd self)) !! var_name
          = Some [nd]) as Hl by (cbn; apply lookup_insert_eq).
  split.
  - rewrite getitem_Name, (getitem_str_present _ _ _ Hl). done.
  - apply contains_true. eauto.
Qed.

(** C7. [Graph.__getitem__] at a string raises the missing-key error exactly
    when [Graph.__contains__] says the name is not registered; at a list of
    names it returns the individual lookups in the same order, and fails as
    soon as one of them fails.  No lookup changes the object. *)
Theorem getitem_fails_exactly_on_missing_keys self :
  (∀ var_name,
     ((∃ msg, (__getitem__ (Name var_name) self).1 = Raise (KeyError msg)) ↔
      __contains__ var_name self = false) ∧
     (__contains__ var_name self = false →
      (__getitem__ (Name var_name) self).1 =
        Raise (KeyError (quoted var_name +:+ " does not exist in the graph.")))) ∧
  (∀ l r,
     (__getitem__ (Names l) self).1 = Ok r ↔
     ∃ rs, r = Nodes rs ∧
           Forall2 (λ v x, (__getitem__ v self).1 = Ok x) l rs) ∧
  (∀ l,
     (∃ e, (__getitem__ (Names l) self).1 = Raise e) ↔
     Exists (λ v, ∃ e, (__getitem__ v self).1 = Raise e) l) ∧
  (∀ v, (__getitem__ v self).2 = self).
Proof.
  assert (Hreads : ∀ l, Forall (reads __getitem__ self) l).
  { intros l. apply Forall_forall. intros v _. apply getitem_reads. }
  split; [|split; [|split]].
  - intros var_name. rewrite getitem_Name. split; [split|].
    + intros [msg Hmsg].
      destruct (collections (_graph self) !! var_name) as [l|] eqn:E.
      * rewrite (getitem_str_present _ _ _ E) in Hmsg. by destruct l.
      * by apply contains_false.
    + intros Hc. rewrite getitem_str_missing by done. eauto.
    + intros Hc. by rewrite getitem_str_missing.
  - intros l r. rewrite getitem_Names. cbn [fst]. split.
    + destruct (list_comp __getitem__ l self).1 as [rs|e] eqn:E; [|done].
      intros [= <-]. exists rs. split; [done|].
      by apply (list_comp_ok __getitem__ self l rs (Hreads l)).
    + intros (rs & -> & Hrs).
      apply (list_comp_ok __getitem__ self l rs (Hreads l)) in Hrs.
      by rewrite Hrs.
  - intros l. rewrite getitem_Names. cbn [fst].
    rewrite <- (list_comp_raise __getitem__ self l (Hreads l)).
    destruct (list_comp __getitem__ l self).1 as [rs|e]; split;
      intros [e' He']; try done; eauto.
  - intros v. apply getitem_reads.
Qed.

End GraphFacts.

(** C2 at work: registering ["input:"] in a new graph. *)
Lemma setitem_then_getitem_witness :
  let self := Graph.__init__ (F := toy.framework) in
  let self' := (Graph.__setitem__ (F := toy.framework) "input:" 7%nat self).2 in
  Graph.__setitem__ (F := toy.framework) "input:" 7%nat self = (Ok tt, self') ∧
  Graph.__getitem__ (F := toy.framework) (Graph.Name "input:") self' =
    (Ok (Graph.Node (F := toy.framework) 7%nat), self') ∧
  Graph.__contains__ (F := toy.framework) "input:" self' = true.
Proof.
  split; [reflexivity|].
  apply (setitem_then_getitem (F := toy.framework) "input:" 7%nat
           Graph.__init__).
  reflexivity.
Defined.


(** ** The model *)

Section ModelFacts.
Context `{F : Framework}.
Import Model.

Implicit Types (self : state) (m : Model.t) (nd : node).

Lemma bind_eq {S A B} (c : M S A) (k : A → M S B) (s : S) :
  bind c k s =
    match c s with
    | (Ok a, s') => k a s'
    | (Raise e, s') => (Raise e, s')
    end.
Proof. reflexivity. Qed.

Lemma set_G_same self : set_G (G self) self = self.
Proof. by destruct self. Qed.

Lemma G_get_eq name self :
  G_get name self = ((Graph.getitem_str name (G self)).1, self).
Proof.
  unfold G_get, on_G, zoom.
  pose proof (getitem_str_reads name (G self)) as H.
  destruct (Graph.getitem_str name (G self)) as [r g]; cbn in *; subst g.
  by rewrite set_G_same.
Qed.

Lemma G_set_eq name nd self :
  G_set name nd self =
    ((Graph.__setitem__ name nd (G self)).1,
     set_G (Graph.__setitem__ name nd (G self)).2 self).
Proof.
  unfold G_set, on_G, zoom. by destruct (Graph.__setitem__ name nd (G self)).
Qed.

Lemma tf_eq c self :
  tf_ c self =
    ((tf_build c (Graph._graph (G self))).1,
     with_graph (tf_build c (Graph._graph (G self))).2 self).
Proof.
  unfold tf_, on_G, Graph.on_graph, zoom, with_graph.
  by destruct (tf_build c (Graph._graph (G self))).
Qed.

Lemma call_eq ops feed self :
  on_G (Graph.__call__ ops feed) self =
    ((session_run ops feed (Graph._graph (G self))).1,
     after_run (FetchOne ops) feed
       (session_run ops feed (Graph._graph (G self))).2 self).
Proof.
  unfold on_G, Graph.__call__, Graph.run, Graph.record_run, Graph.on_graph,
    zoom, bind, modify, after_run. cbn.
  by destruct (session_run ops feed (Graph._graph (G self))).
Qed.

Lemma call_list_eq ops feed self :
  on_G (Graph.__call__list ops feed) self =
    ((session_run_list ops feed (Graph._graph (G self))).1,
     after_run (FetchList ops) feed
       (session_run_list ops feed (Graph._graph (G self))).2 self).
Proof.
  unfold on_G, Graph.__call__list, Graph.run_list, Graph.record_run,
    Graph.on_graph, zoom, bind, modify, after_run. cbn.
  by destruct (session_run_list ops feed (Graph._graph (G self))).
Qed.

Lemma flatten_value_ok {S} (v : value scalar) (s s' : S) r :
  flatten_value v s = (Ok r, s') → ndim r = 1%nat ∧ s' = s.
Proof. destruct v; cbn; intros [= <- <-]; done. Qed.

Lemma fed_eq data_ :
  (if decide (ndim data_ = 1%nat) then expand_dims0 data_ else data_)
  = fed data_.
Proof.
  unfold fed, ndim, expand_dims0.
  destruct (shape data_) as [|k [|? ?]] eqn:E; cbn; by rewrite ?E.
Qed.

(** C9. [predict] takes single samples and batches: a 1-dimensional input
    is fed as an array of one row, any other input as it is, to the
    placeholder registered under [input_name], in one session run that
    fetches the node registered under [output_name]; what it returns is
    1-dimensional. *)
Theorem predict_spec data_ output_name input_name self :
  (∀ r self',
     predict data_ output_name input_name self = (Ok r, self') ↔
     ∃ output input out g,
       Graph.getitem_str output_name (G self) = (Ok output, G self) ∧
       Graph.getitem_str input_name (G self) = (Ok input, G self) ∧
       session_run output [(input, VArray (fed data_))]
         (Graph._graph (G self)) = (Ok out, g) ∧
       flatten_value out self' = (Ok r, self') ∧
       self' = after_run (FetchOne output) [(input, VArray (fed data_))] g self) ∧
  (∀ r self',
     predict data_ output_name input_name self = (Ok r, self') →
     ndim r = 1%nat) ∧
  (∀ k, shape data_ = [k] → fed data_ = NdArray [1%nat; k] (data data_)) ∧
  (ndim data_ ≠ 1%nat → fed data_ = data_).
Proof.
  assert (Hiff : ∀ r self',
     predict data_ output_name input_name self = (Ok r, self') ↔
     ∃ output input out g,
       Graph.getitem_str output_name (G self) = (Ok output, G self) ∧
       Graph.getitem_str input_name (G self) = (Ok input, G self) ∧
       session_run output [(input, VArray (fed data_))]
         (Graph._graph (G self)) = (Ok out, g) ∧
       flatten_value out self' = (Ok r, self') ∧
       self' = after_run (FetchOne output) [(input, VArray (fed data_))] g self).
  { intros r self'. unfold predict. rewrite fed_eq, bind_eq, G_get_eq.
    pose proof (getitem_str_reads output_name (G self)) as Ho.
    destruct (Graph.getitem_str output_name (G self)) as [[output|e] g0] eqn:Eo;
      cbn in Ho; subst g0; cbn [fst].
    2:{ split; [done|]. by intros (? & ? & ? & ? & ? & _). }
    rewrite bind_eq, G_get_eq.
    pose proof (getitem_str_reads input_name (G self)) as Hi.
    destruct (Graph.getitem_str input_name (G self)) as [[input|e] g0] eqn:Ei;
      cbn in Hi; subst g0; cbn [fst].
    2:{ split; [done|]. by intros (? & ? & ? & ? & _ & ? & _). }
    rewrite bind_eq, call_eq. cbn [dict_of foldl dict_set fst snd].
    split.
    - destruct (session_run output [(input, VArray (fed data_))]
                  (Graph._graph (G self))) as [[out|e] g] eqn:Er; [|done].
      cbn [fst snd]. intros Hflat.
      destruct (flatten_value_ok _ _ _ _ Hflat) as [_ ->].
      by exists output, input, out, g.
    - intros (output' & input' & out & g & [= <-] & [= <-] & Er & Hflat & ->).
      rewrite Er. cbn [fst snd]. exact Hflat. }
  split; [exact Hiff|]. split; [|split].
  - intros r self' H. apply Hiff in H as (? & ? & out & ? & _ & _ & _ & H & _).
    by destruct (flatten_value_ok _ _ _ _ H).
  - intros k Hk. unfold fed. by rewrite Hk.
  - unfold fed, ndim. by destruct (shape data_) as [|k [|? ?]].
Qed.

Lemma get_env_action_space_dimension_eq self :
  get_env_action_space_dimension self =
    (match action_space_dimension (_env self) with
     | Some k => Ok k
     | None =>
         match shape_ (action_space (_env self)) with
         | Some _ => Raise (Interp "IndexError")
         | None => Raise (Interp "AttributeError")
         end
     end, self).
Proof.
  unfold get_env_action_space_dimension, action_space_dimension, bind, get.
  destruct (n (action_space (_env self))); [done|].
  destruct (shape_ (action_space (_env self))) as [[|? ?]|]; done.
Qed.

Lemma attribute_eq attr self :
  attribute attr self =
    (match __dict__ self !! attr with
     | Some x => Ok x
     | None => Raise (Interp "AttributeError")
     end, self).
Proof. unfold attribute, bind, get. by destruct (__dict__ self !! attr). Qed.

(** C5. [add_output] applies the network to the current input node and to
    [num_outputs] (by default the action-space dimension of the
    environment), registers the node it gets under ['output:' + name] and
    returns it. *)
Theorem add_output_spec network num_outputs name dt self :
  (∀ output_node self',
     add_output network num_outputs name dt self = (Ok output_node, self') ↔
     ∃ k input_node g,
       resolved_num_outputs num_outputs (_env self) = Some k ∧
       __dict__ self !! "input_node" = Some input_node ∧
       network input_node k (Graph._graph (G self)) = (Ok output_node, g) ∧
       collections g !! ("output:" +:+ name) = None ∧
       finalized g = false ∧
       self' = set_G (registered ("output:" +:+ name) output_node
                        (G (with_graph g self))) self) ∧
  (∀ output_node self',
     add_output network num_outputs name dt self = (Ok output_node, self') →
     Graph.__getitem__ (Graph.Name ("output:" +:+ name)) (G self') =
       (Ok (Graph.Node output_node), G self') ∧
     Graph.__contains__ ("output:" +:+ name) (G self') = true).
Proof.
  assert (Hiff : ∀ output_node self',
     add_output network num_outputs name dt self = (Ok output_node, self') ↔
     ∃ k input_node g,
       resolved_num_outputs num_outputs (_env self) = Some k ∧
       __dict__ self !! "input_node" = Some input_node ∧
       network input_node k (Graph._graph (G self)) = (Ok output_node, g) ∧
       collections g !! ("output:" +:+ name) = None ∧
       finalized g = false ∧
       self' = set_G (registered ("output:" +:+ name) output_node
                        (G (with_graph g self))) self).
  { intros output_node self'. unfold add_output. rewrite bind_eq.
    assert ((match num_outputs with
             | Some k => ret k
             | None => get_env_action_space_dimension
             end) self
            = (match resolved_num_outputs num_outputs (_env self) with
               | Some k => Ok k
               | None =>
                   match shape_ (action_space (_env self)) with
                   | Some _ => Raise (Interp "IndexError")
                   | None => Raise (Interp "AttributeError")
                   end
               end, self)) as ->.
    { destruct num_outputs; [done|]. apply get_env_action_space_dimension_eq. }
    destruct (resolved_num_outputs num_outputs (_env self)) as [k|].
    2:{ split; [by destruct (shape_ _)|]. by intros (? & ? & ? & ? & _). }
    rewrite bind_eq, attribute_eq.
    destruct (__dict__ self !! "input_node") as [input_node|].
    2:{ split; [done|]. by intros (? & ? & ? & _ & ? & _). }
    rewrite bind_eq. unfold on_G at 1, Graph.on_graph, zoom.
    destruct (network input_node k (Graph._graph (G self)))
      as [[out|e] g] eqn:En.
    2:{ split; [done|]. intros (? & ? & ? & [= <-] & [= <-] & ? & _).
        congruence. }
    rewrite bind_eq, G_set_eq. fold (with_graph g self). unfold ret.
    destruct (Graph.__contains__ ("output:" +:+ name) (G (with_graph g self)))
      eqn:Hc.
    { rewrite setitem_taken by done. cbn [fst]. split; [done|].
      intros (? & ? & ? & [= <-] & [= <-] & Hn & Hk & _).
      rewrite En in Hn. injection Hn as <- <-.
      apply contains_true in Hc as [l Hl]. cbn in Hl. congruence. }
    destruct (finalized (Graph._graph (G (with_graph g self)))) eqn:Hf.
    { destruct (setitem_finalized ("output:" +:+ name) out _ Hc Hf) as [msg ->].
      cbn [fst]. split; [done|].
      intros (? & ? & ? & [= <-] & [= <-] & Hn & _ & Hk & _).
      rewrite En in Hn. injection Hn as <- <-. cbn in Hf. congruence. }
    rewrite setitem_new by done. cbn [fst snd]. split.
    - intros [= <- <-]. exists k, input_node, g.
      split_and!; try done. by apply contains_false in Hc.
    - intros (? & ? & ? & [= <-] & [= <-] & Hn & _ & _ & ->).
      rewrite En in Hn. injection Hn as <- <-. by destruct self. }
  split; [exact Hiff|].
  intros output_node self' H.
  apply Hiff in H as (k & input_node & g & _ & _ & _ & Hk & Hf & ->).
  cbn [G set_G]. apply getitem_registered.
Qed.

Lemma build_update_feed_eq args m :
  build_update_feed args m =
    match build_update_feed_dict m with
    | Some f => ((f args (self_ m)).1, Model.Build (f args (self_ m)).2 (Some f))
    | None => (Raise (Interp "AttributeError"), m)
    end.
Proof.
  unfold build_update_feed. rewrite bind_eq. cbn [get].
  destruct (build_update_feed_dict m) as [f|] eqn:E; cbn [getattr ret raise];
    [|done].
  rewrite bind_eq. unfold ret, on_self, zoom. rewrite E.
  by destruct (f args (self_ m)).
Qed.

Lemma on_self_eq {A} (c : M state A) m :
  on_self c m = ((c (self_ m)).1,
                 Model.Build (c (self_ m)).2 (build_update_feed_dict m)).
Proof. unfold on_self, zoom. by destruct (c (self_ m)). Qed.

(** C3. [update] asserts that an optimizer op is set; it then builds the
    feed dict with the closure stored at construction, applied to the model
    and the arguments, runs the optimizer op and the loss node in one
    session run with that feed dict, and returns the second of the two
    values, the loss.  An exception of the closure is passed on. *)
Theorem update_spec args m :
  (_optimizer_op (self_ m) = None →
   update args m = (Raise AssertionError, m)) ∧
  (∀ loss_value m',
     update args m = (Ok loss_value, m') ↔
     ∃ op f feed self1 v g,
       _optimizer_op (self_ m) = Some op ∧
       build_update_feed_dict m = Some f ∧
       f args (self_ m) = (Ok feed, self1) ∧
       session_run_list [_optimizer_op self1; _loss self1] feed
         (Graph._graph (G self1)) = (Ok [v; loss_value], g) ∧
       m' = Model.Build
              (after_run (FetchList [_optimizer_op self1; _loss self1]) feed
                 g self1)
              (Some f)) ∧
  (∀ op f e self1,
     _optimizer_op (self_ m) = Some op →
     build_update_feed_dict m = Some f →
     f args (self_ m) = (Raise e, self1) →
     update args m = (Raise e, Model.Build self1 (Some f))).
Proof.
  split; [|split].
  - intros H. unfold update. rewrite bind_eq. cbn [get]. by rewrite H.
  - intros loss_value m'. unfold update. rewrite bind_eq. cbn [get].
    destruct (_optimizer_op (self_ m)) as [op|].
    2:{ split; [done|]. by intros (? & ? & ? & ? & ? & ? & ? & _). }
    rewrite bind_eq, build_update_feed_eq.
    destruct (build_update_feed_dict m) as [f|].
    2:{ split; [done|]. by intros (? & ? & ? & ? & ? & ? & _ & ? & _). }
    destruct (f args (self_ m)) as [[feed|e] self1] eqn:Ef; cbn [fst snd].
    2:{ split; [done|]. intros (? & ? & ? & ? & ? & ? & _ & [= <-] & ? & _).
        congruence. }
    rewrite bind_eq. cbn [get self_]. rewrite bind_eq, on_self_eq, call_list_eq.
    cbn [fst snd build_update_feed_dict self_].
    destruct (session_run_list [_optimizer_op self1; _loss self1] feed
                (Graph._graph (G self1))) as [[r|e] g] eqn:Er; cbn [fst snd].
    2:{ split; [done|].
        intros (? & ? & ? & ? & ? & ? & _ & [= <-] & Hf & ? & _).
        rewrite Ef in Hf. injection Hf as <- <-. congruence. }
    split.
    + destruct r as [|v [|l [|? ?]]]; try done. intros [= <- <-].
      by exists op, f, feed, self1, v, g.
    + intros (? & ? & ? & ? & v & g' & _ & [= <-] & Hf & Hr & ->).
      rewrite Ef in Hf. injection Hf as <- <-.
      rewrite Er in Hr. by injection Hr as -> ->.
  - intros op f e self1 Hop Hf Hfe. unfold update. rewrite bind_eq.
    cbn [get]. rewrite Hop, bind_eq, build_update_feed_eq, Hf, Hfe. done.
Qed.

Lemma exit_eq (self : Graph.t) :
  Graph.__exit__ self =
    match tf_build (variables_initializer (Graph.GLOBAL_VARIABLES self))
            (Graph._graph self) with
    | (Raise e, g) => (Raise e, Graph.Build g (Graph._context self) (Graph.runs self))
    | (Ok init, g) =>
        match session_run init [] g with
        | (Raise e, g') =>
            (Raise e, Graph.Build g' (Graph._context self)
                        (Graph.runs self ++ [(FetchOne init, [])])%list)
        | (Ok _, g') =>
            if Graph._context self
            then (Ok tt, exited init g' self)
            else (Raise (Interp "AttributeError"),
                  Graph.Build (Graph.set_finalized true g')
                    (Graph._context self)
                    (Graph.runs self ++ [(FetchOne init, [])])%list)
        end
    end.
Proof.
  unfold Graph.__exit__. rewrite bind_eq. cbn [gets]. rewrite bind_eq.
  unfold Graph.on_graph at 1, zoom.
  destruct (tf_build _ _) as [[init|e] g]; [|done].
  rewrite bind_eq. unfold Graph.run, Graph.record_run. rewrite bind_eq.
  cbn [modify]. unfold Graph.on_graph at 1, zoom. cbn [Graph._graph].
  destruct (session_run init [] g) as [[v|e] g']; [|done].
  cbn [Graph._context Graph.runs]. rewrite bind_eq.
  unfold Graph.on_graph, zoom, Graph.finalize, modify. cbn.
  unfold bind, get, exited. cbn. by destruct (Graph._context self).
Qed.

Lemma init_eq env build_graph buf :
  Model.__init__ env build_graph buf =
    let body :=
      match build_graph (entered env) with
      | (Ok _, self1) =>
          match create_weight_setter_ops self1 with
          | (Ok _, self2) => (Ok tt, Model.Build self2 (Some buf))
          | (Raise e, self2) => (Raise e, Model.Build self2 None)
          end
      | (Raise e, self1) => (Raise e, Model.Build self1 None)
      end in
    let done_ := Graph.__exit__ (G (self_ body.2)) in
    (match done_.1 with
     | Ok _ => body.1
     | Raise e => Raise e
     end,
     Model.Build (set_G done_.2 (self_ body.2)) (build_update_feed_dict body.2)).
Proof.
  unfold Model.__init__, with_. rewrite bind_eq.
  rewrite on_self_eq. cbn [fst snd]. unfold on_G at 1, zoom.
  cbn [Graph.__enter__ modify blank self_ G build_update_feed_dict fst snd].
  change ((on_G Graph.__enter__ _).2) with (entered env).
  rewrite bind_eq, !on_self_eq. cbn [self_ fst snd build_update_feed_dict].
  destruct (build_graph (entered env)) as [[[]|e] self1]; cbn [fst snd].
  - rewrite bind_eq, on_self_eq. cbn [self_ fst snd build_update_feed_dict].
    destruct (create_weight_setter_ops self1) as [[[]|e] self2];
      cbn [fst snd modify]; rewrite on_self_eq;
      cbn [self_ build_update_feed_dict]; unfold on_G, zoom;
      by destruct (Graph.__exit__ (G self2)) as [[[]|e'] g].
  - rewrite on_self_eq. cbn [self_ build_update_feed_dict].
    unfold on_G, zoom.
    by destruct (Graph.__exit__ (G self1)) as [[[]|e'] g].
Qed.


(** *** Weight setters *)

Lemma create_weight_setter_ops_eq self :
  create_weight_setter_ops self =
    for_each (Graph.TRAINABLE_VARIABLES (G self)) setter_ops_for self.
Proof. reflexivity. Qed.

Lemma G_set_ok_inv name nd self self' :
  G_set name nd self = (Ok tt, self') →
  colls self !! name = None ∧
  colls self' = <[name := [nd]]> (colls self) ∧
  self' = set_G (registered name nd (G self)) self.
Proof.
  rewrite G_set_eq. intros H.
  destruct (Graph.__setitem__ name nd (G self)) as [[[]|e] g] eqn:E; [|done].
  apply setitem_ok_inv in E as (Hc & _ & ->). cbn in H. injection H as <-.
  apply contains_false in Hc. done.
Qed.

Lemma setter_keys_differ (a b : string) :
  "weight_input_var:" +:+ a ≠ "set_weight_op:" +:+ b.
Proof. cbn. discriminate. Qed.

Lemma setter_ops_for_ok w self self' :
  keeps_setter_keys →
  setter_ops_for w self = (Ok tt, self') →
  setters_persist self self' ∧
  ∃ w_input op, setter_registered w w_input op self'.
Proof.
  intros Hkeep. unfold setter_ops_for. rewrite bind_eq, tf_eq.
  destruct (tf_build (placeholder_with_default w) (Graph._graph (G self)))
    as [[w_input|e] g1] eqn:E1; [|done]. cbn [fst snd].
  rewrite bind_eq.
  destruct (G_set _ w_input (with_graph g1 self)) as [[[]|e] self2] eqn:E2;
    [|done].
  apply G_set_ok_inv in E2 as (Hnew1 & Hc2 & Hs2).
  rewrite bind_eq, tf_eq.
  destruct (tf_build (assign w w_input) (Graph._graph (G self2)))
    as [[op|e] g3] eqn:E3; [|done]. cbn [fst snd].
  intros E4. apply G_set_ok_inv in E4 as (Hnew2 & Hc4 & Hs4).
  assert (H1 : ∀ k, setter_key k → colls (with_graph g1 self) !! k = colls self !! k).
  { intros k Hk. pose proof (Hkeep (placeholder_with_default w)
      (Graph._graph (G self)) k Hk) as H. by rewrite E1 in H. }
  assert (H3 : ∀ k, setter_key k →
             colls (with_graph g3 self2) !! k = colls self2 !! k).
  { intros k Hk. pose proof (Hkeep (assign w w_input)
      (Graph._graph (G self2)) k Hk) as H. by rewrite E3 in H. }
  assert (Hk1 : setter_key ("weight_input_var:" +:+ name_of w))
    by (exists (name_of w); by left).
  assert (Hk2 : setter_key ("set_weight_op:" +:+ name_of w))
    by (exists (name_of w); by right).
  split.
  - intros k Hk [l Hl]. rewrite Hc4, lookup_insert_ne.
    2:{ intros <-. rewrite H3, Hc2 in Hnew2 by done.
        rewrite lookup_insert_ne in Hnew2 by apply setter_keys_differ.
        rewrite H1 in Hnew2 by done. congruence. }
    rewrite H3, Hc2 by done. rewrite lookup_insert_ne.
    2:{ intros <-. rewrite H1 in Hnew1 by done. congruence. }
    by apply H1.
  - exists w_input, op. split; [|split; [|split]].
    + rewrite Hc4, lookup_insert_ne
        by (apply not_eq_sym, setter_keys_differ).
      rewrite H3, Hc2 by done. apply lookup_insert_eq.
    + by rewrite Hc4, lookup_insert_eq.
    + exists (Graph._graph (G self)). by rewrite E1.
    + exists (Graph._graph (G self2)). by rewrite E3.
Qed.

Lemma setter_registered_persist w w_input op self self' :
  setters_persist self self' →
  setter_registered w w_input op self →
  setter_registered w w_input op self'.
Proof.
  intros Hp (H1 & H2 & H3 & H4). split; [|split; [|split]]; try done.
  - rewrite Hp; [done| |by eauto]. exists (name_of w). by left.
  - rewrite Hp; [done| |by eauto]. exists (name_of w). by right.
Qed.

Lemma setters_persist_trans self1 self2 self3 :
  setters_persist self1 self2 → setters_persist self2 self3 →
  setters_persist self1 self3.
Proof.
  intros H12 H23 k Hk Hs. rewrite H23, H12; try done.
  by rewrite H12.
Qed.

Lemma for_each_setter_ops ws self self' :
  keeps_setter_keys →
  for_each ws setter_ops_for self = (Ok tt, self') →
  setters_persist self self' ∧
  ∀ w, w ∈ ws → ∃ w_input op, setter_registered w w_input op self'.
Proof.
  intros Hkeep. revert self. induction ws as [|w ws IH]; intros self.
  - cbn. intros [= <-]. split; [done|]. intros w Hw. by apply not_elem_of_nil in Hw.
  - cbn [for_each]. rewrite bind_eq.
    destruct (setter_ops_for w self) as [[[]|e] self1] eqn:E1; [|done].
    intros E2. apply setter_ops_for_ok in E1 as [Hp1 (w_input & op & Hreg)];
      [|done].
    apply IH in E2 as [Hp2 Hws]. split.
    + by eapply setters_persist_trans.
    + intros w' [->|Hw']%elem_of_cons; [|by apply Hws].
      exists w_input, op. by eapply setter_registered_persist.
Qed.

Lemma dict_set_new {K V} `{EqDecision K} (k : K) (v : V) d :
  k ∉ d.*1 → dict_set k v d = (d ++ [(k, v)])%list.
Proof.
  induction d as [|[k' v'] d IH]; [done|]. cbn.
  rewrite not_elem_of_cons. intros [Hne Hnin].
  rewrite decide_False by done. by rewrite IH.
Qed.

Lemma foldl_dict_set_NoDup {K V} `{EqDecision K} (kvs acc : list (K * V)) :
  NoDup (acc ++ kvs).*1 →
  foldl (λ d kv, dict_set kv.1 kv.2 d) acc kvs = (acc ++ kvs)%list.
Proof.
  revert acc. induction kvs as [|[k v] kvs IH]; intros acc Hnd.
  - by rewrite app_nil_r.
  - cbn [foldl fst snd]. rewrite dict_set_new.
    + rewrite IH; rewrite <- app_assoc; done.
    + rewrite fmap_app in Hnd. apply NoDup_app in Hnd as (_ & Hdis & _).
      intros Hin. apply (Hdis k Hin). cbn. left.
Qed.

Lemma dict_of_NoDup {K V} `{EqDecision K} (kvs : list (K * V)) :
  NoDup kvs.*1 → dict_of kvs = kvs.
Proof. intros H. unfold dict_of. by rewrite foldl_dict_set_NoDup. Qed.

Lemma dict_get_elem_of {K V} `{EqDecision K} (k : K) (v : V) d :
  NoDup d.*1 → (k, v) ∈ d → dict_get k d = Some v.
Proof.
  induction d as [|[k' v'] d IH]; [by intros _ ?%not_elem_of_nil|].
  cbn. rewrite NoDup_cons. intros [Hnin Hnd] [Heq|Hin]%elem_of_cons.
  - injection Heq as <- <-. by rewrite decide_True.
  - rewrite decide_False; [by apply IH|].
    intros <-. apply Hnin. apply list_elem_of_fmap. by exists (k, v).
Qed.

Lemma feed_item_eq nw self :
  feed_item nw self =
    (match (Graph.getitem_str ("weight_input_var:" +:+ nw.1) (G self)).1 with
     | Ok k => Ok (k, nw.2)
     | Raise e => Raise e
     end, self).
Proof.
  unfold feed_item. rewrite bind_eq, G_get_eq.
  by destruct (Graph.getitem_str _ (G self)).1.
Qed.

Lemma feed_items_ok (weights : list (string * value scalar)) self items :
  Forall2 (λ nw y, (feed_item nw self).1 = Ok y) weights items ↔
  ∃ inputs,
    Forall2 (λ nw k, (Graph.getitem_str ("weight_input_var:" +:+ nw.1)
                        (G self)).1 = Ok k) weights inputs ∧
    items = zip inputs weights.*2.
Proof.
  split.
  - induction 1 as [|nw y weights items Hy _ (inputs & Hin & ->)].
    + by exists [].
    + rewrite feed_item_eq in Hy. cbn [fst] in Hy.
      destruct (Graph.getitem_str _ (G self)).1 as [k|e] eqn:E; [|done].
      injection Hy as <-. exists (k :: inputs). by split; [constructor|].
  - intros (inputs & Hin & ->). induction Hin as [|nw k weights inputs Hk _ IH].
    + constructor.
    + cbn [fmap list_fmap zip zip_with]. constructor; [|done].
      rewrite feed_item_eq. cbn [fst]. by rewrite Hk.
Qed.

(** C4. [create_weight_setter_ops] registers for every trainable variable
    [w] a placeholder defaulting to [w] under ['weight_input_var:' + w.name]
    and an assign op under ['set_weight_op:' + w.name].  The [weights]
    setter looks these two keys up for every name of the mapping it is
    given and runs the set-weight ops in one session run whose feed dict
    maps each placeholder to the value given for its name; [set_weights]
    names the values after the trainable variables and calls the setter. *)
Theorem weight_setter_plumbing self :
  (keeps_setter_keys →
   ∀ self', create_weight_setter_ops self = (Ok tt, self') →
     ∀ w, w ∈ Graph.TRAINABLE_VARIABLES (G self) →
       ∃ w_input op,
         Graph.__getitem__ (Graph.Name ("weight_input_var:" +:+ name_of w))
           (G self') = (Ok (Graph.Node w_input), G self') ∧
         Graph.__getitem__ (Graph.Name ("set_weight_op:" +:+ name_of w))
           (G self') = (Ok (Graph.Node op), G self') ∧
         (∃ g, (tf_build (placeholder_with_default w) g).1 = Ok w_input) ∧
         (∃ g, (tf_build (assign w w_input) g).1 = Ok op)) ∧
  (∀ (weights : list (string * value scalar)) self',
     weights_setter weights self = (Ok tt, self') ↔
     ∃ inputs ops vals g,
       Forall2 (λ nw k, (Graph.getitem_str ("weight_input_var:" +:+ nw.1)
                           (G self)).1 = Ok k) weights inputs ∧
       Forall2 (λ nw op, (Graph.getitem_str ("set_weight_op:" +:+ nw.1)
                            (G self)).1 = Ok op) weights ops ∧
       session_run_list (Some <$> ops) (dict_of (zip inputs weights.*2))
         (Graph._graph (G self)) = (Ok vals, g) ∧
       self' = after_run (FetchList (Some <$> ops))
                 (dict_of (zip inputs weights.*2)) g self) ∧
  (∀ (inputs : list node) (vals : list (value scalar)),
     NoDup inputs → length inputs = length vals →
     dict_of (zip inputs vals) = zip inputs vals ∧
     ∀ i k v, inputs !! i = Some k → vals !! i = Some v →
              dict_get k (dict_of (zip inputs vals)) = Some v) ∧
  (∀ weights_,
     set_weights weights_ self =
       weights_setter
         (dict_of (zip (name_of <$> Graph.TRAINABLE_VARIABLES (G self)) weights_))
         self).
Proof.
  split; [|split; [|split]].
  - intros Hkeep self' Hc w Hw. rewrite create_weight_setter_ops_eq in Hc.
    apply for_each_setter_ops in Hc as [_ Hws]; [|done].
    destruct (Hws w Hw) as (w_input & op & H1 & H2 & H3 & H4).
    exists w_input, op. split; [|split; [|split]]; try done.
    + by rewrite getitem_Name, (getitem_str_present _ _ _ H1).
    + by rewrite getitem_Name, (getitem_str_present _ _ _ H2).
  - intros weights self'. unfold weights_setter. rewrite bind_eq.
    fold feed_item.
    assert (Hr1 : Forall (reads feed_item self) weights).
    { apply Forall_forall. intros nw _. unfold reads. by rewrite feed_item_eq. }
    assert (Hr2 : Forall (reads (λ nm, G_get ("set_weight_op:" +:+ nm)) self)
                    weights.*1).
    { apply Forall_forall. intros nm _. unfold reads. by rewrite G_get_eq. }
    pose proof (list_comp_reads _ _ _ Hr1) as Hs1.
    pose proof (list_comp_ok feed_item self weights) as Hok1.
    destruct (list_comp feed_item weights self) as [[items|e] s1];
      cbn in Hs1; subst s1.
    2:{ split; [done|]. intros (inputs & ops & vals & g & Hin & _).
        destruct (Hok1 (zip inputs weights.*2) Hr1) as [_ Hno].
        exfalso. discriminate Hno. apply feed_items_ok. eauto. }
    rewrite bind_eq.
    pose proof (list_comp_reads _ _ _ Hr2) as Hs2.
    pose proof (list_comp_ok (λ nm, G_get ("set_weight_op:" +:+ nm)) self
                  weights.*1) as Hok2.
    assert (Hops : ∀ ops,
      Forall2 (λ nm y, (G_get ("set_weight_op:" +:+ nm) self).1 = Ok y)
        weights.*1 ops ↔
      Forall2 (λ nw op, (Graph.getitem_str ("set_weight_op:" +:+ nw.1)
                           (G self)).1 = Ok op) weights ops).
    { intros ops. rewrite Forall2_fmap_l.
      split; intros H; eapply Forall2_impl; [exact H| |exact H|];
        intros nw op; unfold compose; by rewrite G_get_eq. }
    destruct (list_comp (λ nm, G_get ("set_weight_op:" +:+ nm)) weights.*1 self)
      as [[ops|e] s2]; cbn in Hs2; subst s2.
    2:{ split; [done|]. intros (inputs & ops' & vals & g & _ & Hop & _).
        apply Hops in Hop. apply (Hok2 ops' Hr2) in Hop. done. }
    rewrite bind_eq, call_list_eq.
    pose proof (proj1 (Hok1 items Hr1) eq_refl) as Hitems.
    apply feed_items_ok in Hitems as (inputs & Hin & ->).
    pose proof (proj1 (Hops ops) (proj1 (Hok2 ops Hr2) eq_refl)) as Hop.
    split.
    + destruct (session_run_list _ _ _) as [[vals|e] g] eqn:Er; [|done].
      cbn. intros [= <-]. by exists inputs, ops, vals, g.
    + intros (inputs' & ops' & vals & g & Hin' & Hop' & Hr & ->).
      assert (inputs' = inputs) as ->.
      { eapply Forall2_unique; [exact Hin'|exact Hin|]. cbn. congruence. }
      assert (ops' = ops) as ->.
      { eapply Forall2_unique; [exact Hop'|exact Hop|]. cbn. congruence. }
      by rewrite Hr.
  - intros inputs vals Hnd Hlen.
    assert (Hfst : (zip inputs vals).*1 = inputs) by (apply fst_zip; lia).
    assert (Heq : dict_of (zip inputs vals) = zip inputs vals)
      by (apply dict_of_NoDup; by rewrite Hfst).
    split; [done|]. intros i k v Hk Hv. rewrite Heq.
    apply dict_get_elem_of; [by rewrite Hfst|].
    apply list_elem_of_lookup. exists i. by rewrite lookup_zip_with, Hk, Hv.
  - intros weights_. reflexivity.
Qed.

End ModelFacts.

(** ** The policy gradient factory *)

Section FactoryFacts.
Context `{F : Framework}.
Import Model model_factories.

Implicit Types (self : state) (gr : Graph.t) (g : tf) (nd : node).

Lemma wrapper_key_input nm : wrapper_key ("input:" +:+ nm).
Proof. exists nm. tauto. Qed.
Lemma wrapper_key_output nm : wrapper_key ("output:" +:+ nm).
Proof. exists nm. tauto. Qed.
Lemma wrapper_key_weight_input nm : wrapper_key ("weight_input_var:" +:+ nm).
Proof. exists nm. tauto. Qed.
Lemma wrapper_key_set_weight nm : wrapper_key ("set_weight_op:" +:+ nm).
Proof. exists nm. tauto. Qed.

Lemma setter_key_not_input k nm : setter_key k → "input:" +:+ nm ≠ k.
Proof. intros [n [->| ->]]; cbn; discriminate. Qed.
Lemma setter_key_not_output k nm : setter_key k → "output:" +:+ nm ≠ k.
Proof. intros [n [->| ->]]; cbn; discriminate. Qed.

Ltac no_setter_keys :=
  let k := fresh "k" in
  let Hk := fresh "Hk" in
  intros k Hk;
  repeat first
    [ rewrite lookup_insert_ne by (by apply setter_key_not_output)
    | rewrite lookup_insert_ne by (by apply (setter_key_not_input _ "")) ];
  apply lookup_empty.

Section Steps.
Variables (I : tf → Prop) (network : activation → node → Z → M tf node).
Hypothesis wb : well_behaved I network.

Lemma tracks_with_graph R self g :
  tracks I R (G self) → I g → same_wrapper_keys (Graph._graph (G self)) g →
  tracks I R (G (with_graph g self)).
Proof.
  intros (_ & Hctx & HR) Hg Hsame. split; [done|]. split; [done|].
  intros k Hk. cbn. rewrite Hsame by done. by apply HR.
Qed.

Lemma tf_ok c R self :
  tracks I R (G self) →
  ∃ x g, tf_ c self = (Ok x, with_graph g self) ∧
         tracks I R (G (with_graph g self)) ∧
         tf_build c (Graph._graph (G self)) = (Ok x, g).
Proof.
  intros Htr. destruct (wb_build _ _ wb c (Graph._graph (G self)))
    as (x & g & E & Hg & Hsame); [apply Htr|].
  exists x, g. rewrite tf_eq, E. split; [done|].
  split; [by apply tracks_with_graph|done].
Qed.

Lemma network_ok a i k R self :
  tracks I R (G self) →
  ∃ x g, on_G (Graph.on_graph (network a i k)) self = (Ok x, with_graph g self) ∧
         tracks I R (G (with_graph g self)) ∧
         network a i k (Graph._graph (G self)) = (Ok x, g).
Proof.
  intros Htr. destruct (wb_network _ _ wb a i k (Graph._graph (G self)))
    as (x & g & E & Hg & Hsame); [apply Htr|].
  exists x, g. unfold on_G, Graph.on_graph, zoom. rewrite E.
  split; [done|]. split; [by apply tracks_with_graph|done].
Qed.

Lemma G_set_ok k x R self :
  tracks I R (G self) → wrapper_key k → R !! k = None →
  ∃ g, G_set k x self = (Ok tt, with_graph g self) ∧
       tracks I (<[k := x]> R) (G (with_graph g self)).
Proof.
  intros (HI & Hctx & HR) Hk Hnew.
  exists (Graph.set_collections
            (<[k := [x]]> (collections (Graph._graph (G self))))
            (Graph._graph (G self))).
  rewrite G_set_eq, setitem_new.
  - split; [by destruct self|]. split; [by apply (wb_register _ _ wb)|].
    split; [done|]. intros k' Hk'. cbn. rewrite !lookup_insert.
    case_decide; [done|by apply HR].
  - apply contains_false. rewrite HR by done. by rewrite Hnew.
  - by apply (wb_open _ _ wb).
Qed.

Lemma add_input_ok R self d ds :
  tracks I R (G self) → R !! "input:" = None →
  shape_ (observation_space (_env self)) = Some (d :: ds) →
  ∃ x g,
    add_input "" float32 None self =
      (Ok x, set_dict (<["input_node" := x]> (__dict__ self)) (with_graph g self)) ∧
    tracks I (<["input:" := x]> R) (G (with_graph g self)).
Proof.
  intros Htr Hnew Hshape. unfold add_input.
  rewrite bind_eq, bind_eq. cbn [env gets]. rewrite bind_eq, Hshape.
  cbn [getattr ret]. rewrite bind_eq. cbn [item0 ret]. rewrite bind_eq.
  destruct (tf_ok (placeholder float32 [None; Some d] None) R self Htr)
    as (x & g1 & -> & Htr1 & _).
  rewrite bind_eq. cbn [setattr modify]. rewrite bind_eq.
  destruct (G_set_ok ("input:" +:+ "") x R
              (set_dict (<["input_node" := x]> (__dict__ (with_graph g1 self)))
                 (with_graph g1 self)))
    as (g2 & -> & Htr2); [exact Htr1|apply wrapper_key_input|exact Hnew|].
  exists x, g2. rewrite attribute_eq. cbn [__dict__ with_graph set_G set_dict].
  rewrite lookup_insert_eq. split; [by destruct self|exact Htr2].
Qed.

Lemma add_output_ok a name dt R self k i :
  tracks I R (G self) → R !! ("output:" +:+ name) = None →
  action_space_dimension (_env self) = Some k →
  __dict__ self !! "input_node" = Some i →
  ∃ x g g0 g1,
    add_output (network a) None name dt self = (Ok x, with_graph g self) ∧
    tracks I (<["output:" +:+ name := x]> R) (G (with_graph g self)) ∧
    network a i k g0 = (Ok x, g1).
Proof.
  intros Htr Hnew Hdim Hin. unfold add_output.
  rewrite bind_eq, get_env_action_space_dimension_eq, Hdim.
  rewrite bind_eq, attribute_eq, Hin, bind_eq.
  destruct (network_ok a i k R self Htr) as (x & g1 & -> & Htr1 & Hnet).
  rewrite bind_eq.
  destruct (G_set_ok ("output:" +:+ name) x R (with_graph g1 self))
    as (g2 & -> & Htr2); [exact Htr1|apply wrapper_key_output|exact Hnew|].
  exists x, g2, (Graph._graph (G self)), g1.
  split; [by destruct self|]. split; [exact Htr2|exact Hnet].
Qed.

Ltac norm :=
  unfold with_graph, set_G, set_dict, set_loss, set_optimizer,
    set_optimizer_op, setattr, loss_setter, modify in *;
  cbn [G _env _loss _optimizer _optimizer_op __dict__
       Graph._graph Graph._context Graph.runs fst snd] in *;
  cbv beta iota in *.

Ltac lookup_dict H :=
  repeat match type of H with
    | context [@lookup string node (gmap string node) _ ?k ?m] =>
        let v := eval vm_compute in (m !! k) in
        change (m !! k) with v in H
    end.

Ltac step_tf H x g Htr :=
  rewrite bind_eq in H;
  match type of H with
  | context [tf_ ?c ?s] =>
      let E := fresh "E" in
      let Htr' := fresh "Htr" in
      let Hb := fresh "Hb" in
      destruct (tf_ok c _ s Htr) as (x & g & E & Htr' & Hb);
      rewrite E in H; clear E Htr; rename Htr' into Htr; norm
  end.

Ltac step_attr H :=
  rewrite bind_eq, attribute_eq in H; norm; lookup_dict H; norm.

Ltac step_set H :=
  rewrite bind_eq in H; norm.

Lemma build_graph_prelude_ok env d ds :
  shape_ (observation_space env) = Some (d :: ds) →
  ∃ x g,
    add_input "" float32 None (entered env) =
      (Ok x, BuildState env (Graph.Build g true []) None None None
               (<["input_node" := x]> ∅)) ∧
    tracks I (<["input:" := x]> ∅) (Graph.Build g true []).
Proof.
  intros Hshape.
  destruct (add_input_ok ∅ (entered env) d ds) as (x & g & E & Htr);
    [|done|done|by exists x, g].
  split; [apply (wb_fresh _ _ wb)|]. split; [done|].
  intros k _. cbn. by rewrite !lookup_empty.
Qed.

Lemma optimizer_setter_ok opt R self l :
  tracks I R (G self) → _loss self = Some l →
  ∃ op g,
    optimizer_setter opt self =
      (Ok tt, set_optimizer_op (Some op)
                (with_graph g (set_optimizer (Some opt) self))) ∧
    tracks I R (G (with_graph g self)).
Proof.
  intros Htr Hl. unfold optimizer_setter. rewrite bind_eq. cbn [modify].
  rewrite bind_eq. cbn [get _loss set_optimizer]. rewrite Hl, bind_eq.
  destruct (tf_ok (minimize opt l) R (set_optimizer (Some opt) self) Htr)
    as (op & g & E & Htr' & _).
  rewrite E. exists op, g. split; [done|]. exact Htr'.
Qed.

Lemma build_graph_discrete_ok env lr k d ds :
  shape_ (observation_space env) = Some (d :: ds) →
  action_space_dimension env = Some k →
  ∃ self1 R out i g0 g1,
    build_graph lr network "discrete" (entered env) = (Ok tt, self1) ∧
    tracks I R (G self1) ∧
    (∀ k', setter_key k' → R !! k' = None) ∧
    R !! "input:" = Some i ∧
    R !! "output:" = Some out ∧
    network softmax i k g0 = (Ok out, g1) ∧
    is_Some (_loss self1) ∧ is_Some (_optimizer_op self1) ∧
    _env self1 = env.
Proof.
  intros Hshape Hdim.
  destruct (build_graph lr network "discrete" (entered env)) as [r s] eqn:H.
  unfold build_graph in H. rewrite bind_eq in H.
  destruct (build_graph_prelude_ok env d ds Hshape) as (x & g & E & Htr).
  rewrite E in H. clear E. step_set H.
  step_tf H ret_ g1 Htr. step_set H.
  rewrite bind_eq in H. rewrite decide_True in H by done. norm.
  rewrite bind_eq in H.
  match type of H with
  | context [add_output _ _ _ _ ?s] =>
      destruct (add_output_ok softmax "" float32 _ s k x Htr)
        as (out & g2 & g0 & g1' & E & Htr' & Hnet)
  end.
  { rewrite lookup_insert_ne by discriminate. apply lookup_empty. }
  { exact Hdim. }
  { norm. by vm_compute. }
  rewrite E in H. clear E Htr. rename Htr' into Htr. norm.
  step_tf H act g3 Htr. step_set H. step_tf H sq g4 Htr.
  step_attr H. step_tf H prob g5 Htr. step_tf H lg g6 Htr. step_tf H ng g7 Htr.
  step_attr H. step_tf H l g8 Htr. norm.
  match type of H with
  | context [optimizer_setter ?o ?s] =>
      destruct (optimizer_setter_ok o _ s l Htr eq_refl) as (op & g9 & E & Htr')
  end.
  rewrite E in H. clear E Htr. rename Htr' into Htr. norm.
  injection H as <- <-.
  eexists _, _, out, x, g0, g1'. split; [reflexivity|].
  split; [exact Htr|]. split; [no_setter_keys|].
  split; [by vm_compute|]. split; [by vm_compute|].
  split; [exact Hnet|]. split_and!; eauto.
Qed.

Ltac step_output H a nm k i x g g0 g1 Hnet Htr :=
  rewrite bind_eq in H;
  match type of H with
  | context [add_output _ _ _ _ ?s] =>
      let E := fresh "E" in
      let Htr' := fresh "Htr" in
      destruct (add_output_ok a nm float32 _ s k i Htr)
        as (x & g & g0 & g1 & E & Htr' & Hnet);
      [by vm_compute|assumption|by vm_compute|];
      rewrite E in H; clear E Htr; rename Htr' into Htr; norm
  end.

Lemma build_graph_continuous_ok env lr k d ds lo los hi his :
  shape_ (observation_space env) = Some (d :: ds) →
  action_space_dimension env = Some k →
  low (action_space env) = Some (lo :: los) →
  high (action_space env) = Some (hi :: his) →
  ∃ self1 R i mu sigma dist smp raw act ga gb gc gd ge gf gg gh gi gj,
    build_graph lr network "continuous" (entered env) = (Ok tt, self1) ∧
    tracks I R (G self1) ∧
    (∀ k', setter_key k' → R !! k' = None) ∧
    R !! "input:" = Some i ∧
    R !! "output:mean" = Some mu ∧
    R !! "output:std_dev" = Some sigma ∧
    R !! "output:" = Some act ∧
    network no_activation i k ga = (Ok mu, gb) ∧
    network no_activation i k gc = (Ok sigma, gd) ∧
    tf_build (Normal mu sigma) ge = (Ok dist, gf) ∧
    tf_build (sample dist [1]) gf = (Ok smp, gg) ∧
    tf_build (squeeze smp) gh = (Ok raw, gi) ∧
    tf_build (clip_by_value raw lo hi) gi = (Ok act, gj) ∧
    is_Some (_loss self1) ∧ is_Some (_optimizer_op self1) ∧
    _env self1 = env.
Proof.
  intros Hshape Hdim Hlow Hhigh.
  destruct (build_graph lr network "continuous" (entered env)) as [r s] eqn:H.
  unfold build_graph in H. rewrite bind_eq in H.
  destruct (build_graph_prelude_ok env d ds Hshape) as (x & g & E & Htr).
  rewrite E in H. clear E. step_set H.
  step_tf H ret_ g1 Htr. step_set H.
  rewrite bind_eq in H. rewrite decide_False in H by done.
  rewrite decide_True in H by done. norm.
  step_output H no_activation "mean" k x mu g2 ga gb Hmu Htr. step_set H.
  step_output H no_activation "std_dev" k x sigma g3 gc gd Hsigma Htr.
  step_set H. step_attr H. step_attr H.
  step_tf H dist g4 Htr. step_set H. step_attr H.
  step_tf H smp g5 Htr. step_tf H raw g6 Htr. step_set H. step_attr H.
  rewrite bind_eq in H. cbn [gets] in H. norm.
  rewrite bind_eq, Hlow in H. cbn [getattr ret] in H.
  rewrite bind_eq in H. cbn [item0 ret] in H.
  rewrite bind_eq, Hhigh in H. cbn [getattr ret] in H.
  rewrite bind_eq in H. cbn [item0 ret] in H.
  step_tf H act g7 Htr. step_set H. step_attr H.
  rewrite bind_eq, bind_eq in H. unfold add_output_node in H.
  rewrite bind_eq in H.
  match type of H with
  | context [G_set ?key ?v ?s] =>
      destruct (G_set_ok key v _ s Htr) as (g8 & E & Htr');
        [apply wrapper_key_output|by vm_compute|]
  end.
  rewrite E in H. clear E Htr. rename Htr' into Htr. norm.
  unfold ret at 1 2 in H. norm.
  step_attr H. step_attr H. step_tf H lp g9 Htr. step_tf H ng g10 Htr.
  step_attr H. step_tf H l g11 Htr. step_set H.
  rewrite bind_eq in H. cbn [loss gets] in H. norm.
  step_attr H. step_tf H en g12 Htr. step_tf H scaled g13 Htr.
  step_tf H l' g14 Htr.
  match type of H with
  | context [optimizer_setter ?o ?s] =>
      destruct (optimizer_setter_ok o _ s l' Htr eq_refl)
        as (op & g15 & E & Htr')
  end.
  rewrite E in H. clear E Htr. rename Htr' into Htr. norm.
  injection H as <- <-.
  eexists _, _, x, mu, sigma, dist, smp, raw, act.
  eexists ga, gb, gc, gd, _, _, _, _, _, _.
  split; [reflexivity|]. split; [exact Htr|]. split; [no_setter_keys|].
  split; [by vm_compute|]. split; [by vm_compute|]. split; [by vm_compute|].
  split; [by vm_compute|]. split; [exact Hmu|]. split; [exact Hsigma|].
  split; [eassumption|]. split; [eassumption|]. split; [eassumption|].
  split; [eassumption|]. split_and!; eauto.
Qed.

Lemma build_graph_invalid env lr a d ds :
  a ≠ "discrete" → a ≠ "continuous" →
  shape_ (observation_space env) = Some (d :: ds) →
  ∃ self1 R,
    build_graph lr network a (entered env) =
      (Raise (ValueError (a +:+ " is not a valid action_space")), self1) ∧
    tracks I R (G self1).
Proof.
  intros Hd Hc Hshape.
  destruct (build_graph lr network a (entered env)) as [r s] eqn:H.
  unfold build_graph in H. rewrite bind_eq in H.
  destruct (build_graph_prelude_ok env d ds Hshape) as (x & g & E & Htr).
  rewrite E in H. clear E. step_set H.
  step_tf H ret_ g1 Htr. step_set H.
  rewrite bind_eq in H. rewrite !decide_False in H by done.
  cbn [raise] in H. injection H as <- <-.
  eexists _, _. split; [reflexivity|exact Htr].
Qed.

Lemma with_graph_with_graph g g' self :
  with_graph g' (with_graph g self) = with_graph g' self.
Proof. reflexivity. Qed.

Lemma setter_ops_for_succeeds w R self :
  tracks I R (G self) →
  R !! ("weight_input_var:" +:+ name_of w) = None →
  R !! ("set_weight_op:" +:+ name_of w) = None →
  ∃ g w_input op,
    setter_ops_for w self = (Ok tt, with_graph g self) ∧
    tracks I (<["set_weight_op:" +:+ name_of w := op]>
                (<["weight_input_var:" +:+ name_of w := w_input]> R))
      (G (with_graph g self)).
Proof.
  intros Htr Hin Hop. unfold setter_ops_for. rewrite bind_eq.
  destruct (tf_ok (placeholder_with_default w) R self Htr)
    as (w_input & g1 & -> & Htr1 & _).
  rewrite bind_eq.
  destruct (G_set_ok ("weight_input_var:" +:+ name_of w) w_input R
              (with_graph g1 self) Htr1)
    as (g2 & -> & Htr2); [apply wrapper_key_weight_input|done|].
  rewrite bind_eq.
  destruct (tf_ok (assign w w_input) _ _ Htr2) as (op & g3 & -> & Htr3 & _).
  destruct (G_set_ok ("set_weight_op:" +:+ name_of w) op _ _ Htr3)
    as (g4 & -> & Htr4); [apply wrapper_key_set_weight| |].
  { rewrite lookup_insert_ne by apply setter_keys_differ. done. }
  by exists g4, w_input, op.
Qed.

Lemma for_each_setter_ops_succeeds ws R self :
  tracks I R (G self) →
  NoDup (name_of <$> ws) →
  (∀ k, setter_key k → R !! k = None) →
  ∃ g R',
    for_each ws setter_ops_for self = (Ok tt, with_graph g self) ∧
    tracks I R' (G (with_graph g self)) ∧
    (∀ k x, R !! k = Some x → R' !! k = Some x) ∧
    (∀ k, setter_key k → (∀ w, w ∈ ws → k ≠ "weight_input_var:" +:+ name_of w ∧
                                          k ≠ "set_weight_op:" +:+ name_of w) →
          R' !! k = None).
Proof.
  intros Htr Hnd Hnone.
  assert (Hgen : ∀ ws R self,
    tracks I R (G self) → NoDup (name_of <$> ws) →
    (∀ w, w ∈ ws → R !! ("weight_input_var:" +:+ name_of w) = None ∧
                    R !! ("set_weight_op:" +:+ name_of w) = None) →
    ∃ g R',
      for_each ws setter_ops_for self = (Ok tt, with_graph g self) ∧
      tracks I R' (G (with_graph g self)) ∧
      (∀ k x, R !! k = Some x → R' !! k = Some x) ∧
      (∀ k, R !! k = None →
            (∀ w, w ∈ ws → k ≠ "weight_input_var:" +:+ name_of w ∧
                            k ≠ "set_weight_op:" +:+ name_of w) →
            R' !! k = None)).
  { clear Htr Hnd Hnone. clear ws R self.
    intros ws. induction ws as [|w ws IH]; intros R self Htr Hnd Hfree.
    - exists (Graph._graph (G self)), R. cbn [for_each ret].
      split; [by destruct self as [? [] ? ? ? ?]|].
      split; [by destruct self as [? [] ? ? ? ?]|]. split; done.
    - cbn [for_each]. rewrite bind_eq. cbn [fmap list_fmap] in Hnd.
      apply NoDup_cons in Hnd as [Hw Hnd].
      destruct (Hfree w) as [Hin Hop]; [left|].
      destruct (setter_ops_for_succeeds w R self Htr Hin Hop)
        as (g & w_input & op & -> & Htr1).
      destruct (IH _ _ Htr1 Hnd) as (g' & R' & E & Htr' & Hkeep & Hnew).
      { intros w' Hw'. destruct (Hfree w') as [Hin' Hop']; [by right|].
        assert (name_of w' ≠ name_of w) as Hne.
        { intros Heq. apply Hw. rewrite <- Heq.
          apply list_elem_of_fmap. by exists w'. }
        split.
        - rewrite lookup_insert_ne
            by (apply not_eq_sym, setter_keys_differ).
          rewrite lookup_insert_ne; [done|].
          intros Heq. by apply (inj (String.app _)) in Heq.
        - rewrite lookup_insert_ne.
          2:{ intros Heq. by apply (inj (String.app _)) in Heq. }
          rewrite lookup_insert_ne by apply setter_keys_differ. done. }
      rewrite with_graph_with_graph in E, Htr'.
      exists g', R'. split; [exact E|]. split; [exact Htr'|]. split.
      + intros k x Hk. apply Hkeep.
        rewrite lookup_insert_ne by (intros <-; congruence).
        rewrite lookup_insert_ne by (intros <-; congruence). done.
      + intros k Hk Hws. apply Hnew.
        * destruct (Hws w) as [H1 H2]; [left|].
          rewrite !lookup_insert_ne by done. done.
        * intros w' Hw'. apply Hws. by right. }
  destruct (Hgen ws R self Htr Hnd) as (g & R' & E & Htr' & Hkeep & Hnew).
  { intros w _. split; apply Hnone; exists (name_of w); tauto. }
  exists g, R'. split; [done|]. split; [done|]. split; [done|].
  intros k Hk Hws. apply Hnew; [by apply Hnone|done].
Qed.

Lemma exit_ok R gr :
  tracks I R gr →
  ∃ init g',
    Graph.__exit__ gr = (Ok tt, exited init g' gr) ∧
    same_wrapper_keys (Graph._graph gr) g'.
Proof.
  intros (HI & Hctx & HR). rewrite exit_eq.
  destruct (wb_build _ _ wb
              (variables_initializer (Graph.GLOBAL_VARIABLES gr))
              (Graph._graph gr) HI) as (init & g & -> & Hg & Hsame).
  destruct (wb_run _ _ wb init g Hg) as (v & g' & -> & Hsame').
  rewrite Hctx. exists init, g'. split; [done|].
  intros k Hk. by rewrite Hsame', Hsame.
Qed.

Lemma new_ok env build_graph buf self1 R :
  build_graph (entered env) = (Ok tt, self1) →
  tracks I R (G self1) →
  (∀ k, setter_key k → R !! k = None) →
  ∃ m,
    Model.new env build_graph buf = Ok m ∧
    _env (self_ m) = _env self1 ∧
    _loss (self_ m) = _loss self1 ∧
    _optimizer_op (self_ m) = _optimizer_op self1 ∧
    Model.build_update_feed_dict m = Some buf ∧
    finalized (Graph._graph (G (self_ m))) = true ∧
    ∀ k x, wrapper_key k → R !! k = Some x →
           Graph.__getitem__ (Graph.Name k) (G (self_ m)) =
             (Ok (Graph.Node x), G (self_ m)).
Proof.
  intros Hb Htr Hnone. unfold Model.new. rewrite init_eq, Hb.
  rewrite create_weight_setter_ops_eq.
  destruct (for_each_setter_ops_succeeds
              (Graph.TRAINABLE_VARIABLES (G self1)) R self1 Htr)
    as (g & R' & -> & Htr' & Hkeep & _); [|done|].
  { apply (wb_names _ _ wb), Htr. }
  cbn [fst snd self_ Model.build_update_feed_dict].
  destruct (exit_ok R' _ Htr') as (init & g' & -> & Hsame).
  cbn [fst snd]. eexists. split; [reflexivity|].
  cbn [self_ Model.build_update_feed_dict]. split_and!; try done.
  intros k x Hk Hx. rewrite getitem_Name.
  rewrite (getitem_str_present k _ [x]); [done|].
  cbn. rewrite Hsame by done. destruct Htr' as (_ & _ & HR').
  rewrite HR' by done. by rewrite (Hkeep k x Hx).
Qed.

End Steps.


End FactoryFacts.

(** ** The small framework is well behaved *)

Lemma wrapper_key_not_variables k :
  wrapper_key k → k ≠ TRAINABLE_VARIABLES_KEY ∧ k ≠ GLOBAL_VARIABLES_KEY.
Proof. intros [nm [->|[->|[->| ->]]]]; split; cbn; discriminate. Qed.

Lemma toy_well_behaved :
  well_behaved (F := toy.framework) toy.invariant toy.network.
Proof.
  split.
  - split; [done|]. cbn. rewrite lookup_empty. cbn. split; [constructor|].
    intros x Hx. by apply not_elem_of_nil in Hx.
  - by intros g [Hf _].
  - intros g (_ & Hnd & _). apply (NoDup_fmap_2 _). exact Hnd.
  - intros c g (Hf & Hnd & Hlt). cbn. unfold toy.build. rewrite Hf.
    eexists _, _. split; [reflexivity|]. split; [|done].
    split; [done|]. split; [done|]. cbn. intros x Hx.
    specialize (Hlt x Hx). lia.
  - intros a i k g (Hf & Hnd & Hlt). unfold toy.network. rewrite Hf.
    eexists _, _. split; [reflexivity|]. split.
    + split; [done|]. cbn. unfold toy.new_variable, toy.append_to.
      rewrite !lookup_insert_eq. rewrite !lookup_insert_ne by done.
      rewrite !lookup_insert_eq. rewrite !lookup_insert_ne by done.
      cbn. set (l := default [] (collections g !! "trainable_variables")) in *.
      split.
      * rewrite <- app_assoc. cbn. apply NoDup_app. split; [done|]. split.
        -- intros x Hx [->|[->|[]%not_elem_of_nil]%elem_of_cons]%elem_of_cons;
             specialize (Hlt _ Hx); lia.
        -- apply NoDup_cons. split; [|apply NoDup_singleton].
           intros ?%list_elem_of_singleton. lia.
      * intros x [[Hx|Hx%list_elem_of_singleton]%elem_of_app
                  |Hx%list_elem_of_singleton]%elem_of_app;
          [specialize (Hlt _ Hx)|..]; lia.
    + intros k' [Hk1 Hk2]%wrapper_key_not_variables. cbn.
      unfold toy.new_variable, toy.append_to.
      by rewrite !lookup_insert_ne.
  - intros k x g (Hf & Hnd & Hlt) [Hk _]%wrapper_key_not_variables.
    split; [done|]. cbn. by rewrite lookup_insert_ne.
  - intros x g _. cbn. unfold toy.run. by eexists _, _.
Qed.

(** ** The properties at work on the small framework *)

Lemma pair_of_fst {A B} (p : A * B) (a : A) : p.1 = a → p = (a, p.2).
Proof. destruct p. cbn. by intros ->. Qed.


(** C5 at work: adding the output of a softmax layer. *)
Lemma add_output_spec_witness :
  Model.add_output (F := toy.framework) (toy.network softmax) None ""
    float32 toy.with_input = (Ok 3%nat, toy.with_output) ∧
  Graph.__getitem__ (F := toy.framework) (Graph.Name "output:")
    (Model.G toy.with_output) =
    (Ok (Graph.Node (F := toy.framework) 3%nat), Model.G toy.with_output) ∧
  Graph.__contains__ (F := toy.framework) "output:"
    (Model.G toy.with_output) = true.
Proof.
  assert (H : Model.add_output (F := toy.framework) (toy.network softmax)
                None "" float32 toy.with_input = (Ok 3%nat, toy.with_output))
    by (apply pair_of_fst; vm_compute; reflexivity).
  split; [exact H|].
  destruct (add_output_spec (F := toy.framework) (toy.network softmax) None ""
              float32 toy.with_input) as [_ Hreg].
  exact (Hreg _ _ H).
Defined.

(** C4 at work: the setters of the two variables of the layer. *)
Lemma weight_setter_plumbing_witness :
  keeps_setter_keys (F := toy.framework) ∧
  (Model.create_weight_setter_ops (F := toy.framework) toy.with_output).1
    = Ok tt ∧
  ∀ w, w ∈ [1%nat; 2%nat] →
    ∃ w_input op,
      Graph.__getitem__ (F := toy.framework)
        (Graph.Name ("weight_input_var:" +:+ pretty w))
        (Model.G (Model.create_weight_setter_ops (F := toy.framework)
                    toy.with_output).2) =
        (Ok (Graph.Node (F := toy.framework) w_input),
         Model.G (Model.create_weight_setter_ops (F := toy.framework)
                    toy.with_output).2) ∧
      Graph.__getitem__ (F := toy.framework)
        (Graph.Name ("set_weight_op:" +:+ pretty w))
        (Model.G (Model.create_weight_setter_ops (F := toy.framework)
                    toy.with_output).2) =
        (Ok (Graph.Node (F := toy.framework) op),
         Model.G (Model.create_weight_setter_ops (F := toy.framework)
                    toy.with_output).2).
Proof.
  assert (Hkeep : keeps_setter_keys (F := toy.framework)).
  { intros c g k _. change (tf_build c g) with (toy.build c g).
    unfold toy.build. destruct g as [? [] ? ?]; reflexivity. }
  assert (Hok : Model.create_weight_setter_ops (F := toy.framework)
                  toy.with_output =
                (Ok tt, (Model.create_weight_setter_ops (F := toy.framework)
                           toy.with_output).2))
    by (apply pair_of_fst; vm_compute; reflexivity).
  split; [exact Hkeep|]. split; [by rewrite Hok|].
  intros w Hw.
  destruct (weight_setter_plumbing (F := toy.framework) toy.with_output)
    as [Hcreate _].
  destruct (Hcreate Hkeep _ Hok w) as (w_input & op & H1 & H2 & _).
  { vm_compute. exact Hw. }
  exists w_input, op. split; [exact H1|exact H2].
Defined.

(** C9 at work: one observation of the discrete environment. *)
Lemma predict_spec_witness :
  let sample_ := NdArray [4%nat] [1; 2; 3; 4] in
  let self := Model.self_ toy.discrete_model in
  (Model.predict (F := toy.framework) sample_ "output:" "input:" self).1
    = Ok (NdArray [2%nat] [4; 0]) ∧
  ndim (NdArray [2%nat] [4; 0]) = 1%nat ∧
  @fed toy.framework sample_ = NdArray [1%nat; 4%nat] [1; 2; 3; 4].
Proof.
  intros sample_ self.
  assert (H : Model.predict (F := toy.framework) sample_ "output:" "input:" self
              = (Ok (NdArray [2%nat] [4; 0]),
                 (Model.predict (F := toy.framework) sample_ "output:"
                    "input:" self).2))
    by (apply pair_of_fst; vm_compute; reflexivity).
  destruct (predict_spec (F := toy.framework) sample_ "output:" "input:" self)
    as (_ & Hdim & Hfed & _).
  split; [by rewrite H|]. split; [exact (Hdim _ _ H)|].
  exact (Hfed 4%nat eq_refl).
Defined.

(** C3 at work: one update of the policy gradient model. *)
Lemma update_spec_witness :
  ∃ m' op f feed self1 v g,
    Model.update (F := toy.framework) toy.update_args toy.discrete_model
      = (Ok (VScalar 10), m') ∧
    Model._optimizer_op (Model.self_ toy.discrete_model) = Some op ∧
    Model.build_update_feed_dict toy.discrete_model = Some f ∧
    f toy.update_args (Model.self_ toy.discrete_model) = (Ok feed, self1) ∧
    @session_run_list toy.framework
      [Model._optimizer_op self1; Model._loss self1] feed
      (Graph._graph (Model.G self1)) = (Ok [v; VScalar 10], g) ∧
    m' = Model.Build
           (after_run (FetchList [Model._optimizer_op self1; Model._loss self1])
              feed g self1)
           (Some f).
Proof.
  assert (H : Model.update (F := toy.framework) toy.update_args
                toy.discrete_model
              = (Ok (VScalar 10),
                 (Model.update (F := toy.framework) toy.update_args
                    toy.discrete_model).2))
    by (apply pair_of_fst; vm_compute; reflexivity).
  destruct (update_spec (F := toy.framework) toy.update_args toy.discrete_model)
    as (_ & Hiff & _).
  destruct (proj1 (Hiff _ _) H)
    as (op & f & feed & self1 & v & g & H1 & H2 & H3 & H4 & H5).
  eexists _, op, f, feed, self1, v, g.
  split; [exact H|]. split; [exact H1|]. split; [exact H2|].
  split; [exact H3|]. split; [exact H4|exact H5].
Defined.


(** * Every operation of [Graph] and [Model] *)

(** ** Where the exceptions come from *)

Section Raises.
Context `{F : Framework}.
Import Model.

Implicit Types (C : exn → Prop) (os : list origin) (e : exn).

Lemma raises_only_sub {S A} C os os' (c : M S A) :
  os ⊆ os' → raises_only C os c → raises_only C os' c.
Proof.
  intros Hsub H s e He. destruct (H s e He) as [?|(o & Ho & ?)]; [by left|].
  right. exists o. split; [by apply Hsub|done].
Qed.

Lemma raises_only_ret {S A} C os (a : A) : raises_only C os (ret (S := S) a).
Proof. by intros s e. Qed.

Lemma raises_only_get {S} C os : raises_only C os (get (S := S)).
Proof. by intros s e. Qed.

Lemma raises_only_gets {S A} C os (f : S → A) : raises_only C os (gets f).
Proof. by intros s e. Qed.

Lemma raises_only_modify {S} C os (f : S → S) : raises_only C os (modify f).
Proof. by intros s e. Qed.

Lemma raises_only_raise {S A} C os o e :
  o ∈ os → came_from o e → raises_only C os (raise (S := S) (A := A) e).
Proof. intros Ho He s e' [= <-]. right. by exists o. Qed.

Lemma raises_only_closure {S A} C os (c : M S A) :
  (∀ e, raised_by c e → C e) → raises_only C os c.
Proof. intros H s e He. left. apply H. by exists s. Qed.

Lemma raises_only_bind {S A B} C os (c : M S A) (k : A → M S B) :
  raises_only C os c → (∀ a, raises_only C os (k a)) →
  raises_only C os (bind c k).
Proof.
  intros Hc Hk s e. unfold bind. specialize (Hc s).
  destruct (c s) as [[a|e'] s']; [apply Hk|]. cbn. intros [= <-]. by apply Hc.
Qed.

Lemma raises_only_zoom {S T A} C os (proj : S → T) (upd : T → S → S)
    (c : M T A) :
  raises_only C os c → raises_only C os (zoom proj upd c).
Proof.
  intros Hc s e. unfold zoom. specialize (Hc (proj s)).
  destruct (c (proj s)) as [r t]. apply Hc.
Qed.

Lemma raises_only_for_each {S A} C os (l : list A) (body : A → M S unit) :
  (∀ x, raises_only C os (body x)) → raises_only C os (for_each l body).
Proof.
  intros Hb. induction l as [|x l IH]; [apply raises_only_ret|].
  cbn [for_each]. apply raises_only_bind; [apply Hb|]. by intros _.
Qed.

Lemma raises_only_list_comp {S A B} C os (f : A → M S B) (l : list A) :
  (∀ x, raises_only C os (f x)) → raises_only C os (list_comp f l).
Proof.
  intros Hf. induction l as [|x l IH]; [apply raises_only_ret|].
  cbn [list_comp]. apply raises_only_bind; [apply Hf|]. intros y.
  apply raises_only_bind; [apply IH|]. intros ys. apply raises_only_ret.
Qed.

Lemma raises_only_with {S A} C os (enter exit : M S unit) (body : M S A) :
  raises_only C os enter → raises_only C os exit → raises_only C os body →
  raises_only C os (with_ enter exit body).
Proof.
  intros He Hx Hb. unfold with_. apply raises_only_bind; [done|].
  intros _ s e. specialize (Hb s).
  destruct (body s) as [[a|e'] s']; specialize (Hx s');
    destruct (exit s') as [[[]|e''] s'']; cbn; intros Hr;
    try discriminate; injection Hr as <-; first [by apply Hx|by apply Hb].
Qed.

Lemma raises_only_getattr {S A} C os (attr : option A) :
  interpreter ∈ os → raises_only C os (getattr (S := S) attr).
Proof.
  intros Ho. destruct attr; [apply raises_only_ret|].
  apply (raises_only_raise _ _ interpreter); [done|]. by eexists.
Qed.

Lemma raises_only_item0 {S A} C os (seq : list A) :
  interpreter ∈ os → raises_only C os (item0 (S := S) seq).
Proof.
  intros Ho. destruct seq; [|apply raises_only_ret].
  apply (raises_only_raise _ _ interpreter); [done|]. by eexists.
Qed.

Lemma raises_only_interp {S A} C os cls :
  interpreter ∈ os → raises_only C os (raise (S := S) (A := A) (Interp cls)).
Proof.
  intros Ho. apply (raises_only_raise _ _ interpreter); [done|]. by eexists.
Qed.

(** *** The framework calls *)

Lemma raises_only_tf_build C os c :
  framework_call ∈ os → raises_only C os (tf_build c).
Proof.
  intros Ho g e He. right. exists framework_call. split; [done|].
  left. by exists c, g.
Qed.

Lemma raises_only_session_run C os x feed :
  framework_call ∈ os → raises_only C os (session_run x feed).
Proof.
  intros Ho g e He. right. exists framework_call. split; [done|].
  right. left. by exists x, feed, g.
Qed.

Lemma raises_only_session_run_list C os l feed :
  framework_call ∈ os → raises_only C os (session_run_list l feed).
Proof.
  intros Ho g e He. right. exists framework_call. split; [done|].
  right. right. left. by exists l, feed, g.
Qed.

Lemma raises_only_add_to_collection C os k nd :
  framework_call ∈ os → raises_only C os (Graph.add_to_collection k nd).
Proof.
  intros Ho g e He. right. exists framework_call. split; [done|].
  right. right. right. by exists k, nd, g.
Qed.

End Raises.

(** *** The operations *)

Section Exceptions.
Context `{F : Framework}.
Import Model.

Implicit Types (C : exn → Prop) (os : list origin) (e : exn).

Ltac origins :=
  first
    [ by repeat constructor
    | let o := fresh "o" in
      let Ho := fresh "Ho" in
      intros o Ho;
      repeat (apply elem_of_cons in Ho as [->|Ho]);
      first [by repeat constructor|by apply elem_of_nil in Ho] ].

Ltac raises_with known :=
  repeat first
    [ known
    | match goal with
      | |- raises_only _ _ (ret _) => apply raises_only_ret
      | |- raises_only _ _ get => apply raises_only_get
      | |- raises_only _ _ (gets _) => apply raises_only_gets
      | |- raises_only _ _ (modify _) => apply raises_only_modify
      | |- raises_only _ _ (bind _ _) => apply raises_only_bind; [|intros ?]
      | |- raises_only _ _ (zoom _ _ _) => apply raises_only_zoom
      | |- raises_only _ _ (for_each _ _) =>
          apply raises_only_for_each; intros ?
      | |- raises_only _ _ (list_comp _ _) =>
          apply raises_only_list_comp; intros ?
      | |- raises_only _ _ (getattr _) => apply raises_only_getattr; origins
      | |- raises_only _ _ (item0 _) => apply raises_only_item0; origins
      | |- raises_only _ _ (raise (Interp _)) =>
          apply raises_only_interp; origins
      | |- raises_only _ _ (tf_build _) => apply raises_only_tf_build; origins
      | |- raises_only _ _ (session_run _ _) =>
          apply raises_only_session_run; origins
      | |- raises_only _ _ (session_run_list _ _) =>
          apply raises_only_session_run_list; origins
      | |- raises_only _ _ (Graph.add_to_collection _ _) =>
          apply raises_only_add_to_collection; origins
      | |- raises_only _ _ (if ?b then _ else _) => destruct b
      | |- raises_only _ _ (match ?x with _ => _ end) => destruct x
      end ].

Ltac raises := raises_with fail.

Ltac by_lemma L := eapply raises_only_sub; [|apply L]; origins.

Lemma exc_enter C : raises_only C [] Graph.__enter__.
Proof. unfold Graph.__enter__. raises. Qed.

Lemma exc_call C ops feed :
  raises_only C [framework_call] (Graph.__call__ ops feed).
Proof.
  unfold Graph.__call__, Graph.run, Graph.record_run, Graph.on_graph. raises.
Qed.

Lemma exc_call_list C ops feed :
  raises_only C [framework_call] (Graph.__call__list ops feed).
Proof.
  unfold Graph.__call__list, Graph.run_list, Graph.record_run, Graph.on_graph.
  raises.
Qed.

Lemma exc_exit C : raises_only C [interpreter; framework_call] Graph.__exit__.
Proof.
  unfold Graph.__exit__, Graph.run, Graph.record_run, Graph.finalize,
    Graph.on_graph. raises.
Qed.

Lemma exc_setitem C var_name nd :
  raises_only C [name_taken; framework_call] (Graph.__setitem__ var_name nd).
Proof.
  unfold Graph.__setitem__, Graph.on_graph. raises.
  apply (raises_only_raise _ _ name_taken); [origins|]. by eexists.
Qed.

Lemma exc_getitem_str C var_name :
  raises_only C [name_missing; interpreter] (Graph.getitem_str var_name).
Proof.
  unfold Graph.getitem_str. raises.
  apply (raises_only_raise _ _ name_missing); [origins|]. by eexists.
Qed.

Lemma exc_getitem C v :
  raises_only C [name_missing; interpreter] (Graph.__getitem__ v).
Proof.
  induction v as [s|l IH] using names_induction.
  - cbn [Graph.__getitem__].
    apply raises_only_bind; [apply exc_getitem_str|]. intros n.
    apply raises_only_ret.
  - cbn [Graph.__getitem__].
    apply raises_only_bind; [|intros ?; apply raises_only_ret].
    induction IH as [|v l Hv _ IHl]; [apply raises_only_ret|].
    cbn [list_comp]. apply raises_only_bind; [done|]. intros y.
    apply raises_only_bind; [apply IHl|]. intros ys. apply raises_only_ret.
Qed.

(** The operations of [Model] that only use the graph object. *)

Ltac graph_ops :=
  first [ by_lemma exc_setitem | by_lemma exc_getitem_str | by_lemma exc_call
        | by_lemma exc_call_list | by_lemma exc_exit | by_lemma exc_enter ].

Lemma exc_env C : raises_only C [] env.
Proof. unfold env. raises. Qed.

Lemma exc_get_env_action_space_dimension C :
  raises_only C [interpreter] get_env_action_space_dimension.
Proof. unfold get_env_action_space_dimension. raises. Qed.

Lemma exc_weights C : raises_only C [] weights.
Proof. unfold weights. raises. Qed.

Lemma exc_get_weight_names C : raises_only C [] get_weight_names.
Proof. unfold get_weight_names, weights. raises. Qed.

Lemma exc_loss C : raises_only C [] loss.
Proof. unfold loss. raises. Qed.

Lemma exc_loss_setter C l : raises_only C [] (loss_setter l).
Proof. unfold loss_setter. raises. Qed.

Lemma exc_optimizer C : raises_only C [] optimizer_.
Proof. unfold optimizer_. raises. Qed.

Lemma exc_weights_setter C ws :
  raises_only C [name_missing; interpreter; framework_call] (weights_setter ws).
Proof. unfold weights_setter, G_get, on_G. raises_with graph_ops. Qed.

Lemma exc_get_weights C :
  raises_only C [framework_call] get_weights.
Proof. unfold get_weights, weights, on_G. raises_with graph_ops. Qed.

Lemma exc_set_weights C ws :
  raises_only C [name_missing; interpreter; framework_call] (set_weights ws).
Proof.
  unfold set_weights, weights. raises. apply exc_weights_setter.
Qed.

Lemma exc_optimizer_setter C opt :
  raises_only C [failed_assert; framework_call] (optimizer_setter opt).
Proof.
  unfold optimizer_setter, tf_, on_G, Graph.on_graph. raises.
  by apply (raises_only_raise _ _ failed_assert); [origins|].
Qed.

Lemma exc_add_input C name dt shape :
  raises_only C [name_taken; interpreter; framework_call]
    (add_input name dt shape).
Proof.
  unfold add_input, env, attribute, setattr, tf_, G_set, on_G, Graph.on_graph.
  raises_with graph_ops.
Qed.

Lemma exc_add_output C network num_outputs name dt :
  (∀ i k e, raised_by (network i k) e → C e) →
  raises_only C [name_taken; interpreter; framework_call]
    (add_output network num_outputs name dt).
Proof.
  intros Hn.
  unfold add_output, attribute, G_set, on_G, Graph.on_graph.
  raises_with ltac:(first [ graph_ops
                          | by_lemma exc_get_env_action_space_dimension
                          | apply raises_only_closure; apply Hn ]).
Qed.

Lemma exc_add_output_node C nd name :
  raises_only C [name_taken; framework_call] (add_output_node nd name).
Proof. unfold add_output_node, G_set, on_G. raises_with graph_ops. Qed.

Lemma exc_create_weight_setter_ops C :
  raises_only C [name_taken; framework_call] create_weight_setter_ops.
Proof.
  unfold create_weight_setter_ops, weights, tf_, G_set, on_G, Graph.on_graph.
  raises_with graph_ops.
Qed.

Lemma exc_create_gradient_ops_for_node C compute_gradients apply_gradients
    as_object nd transform_grad_func :
  (∀ opt ws e, raised_by (compute_gradients opt nd ws) e → C e) →
  (∀ opt grads e, raised_by (apply_gradients opt grads) e → C e) →
  (∀ g e, raised_by (transform_grad_func g) e → C e) →
  raises_only C [name_taken; name_missing; interpreter; framework_call]
    (create_gradient_ops_for_node compute_gradients apply_gradients as_object
       nd transform_grad_func).
Proof.
  intros Hc Ha Ht.
  unfold create_gradient_ops_for_node, optimizer_, weights, G_set, G_get,
    on_G, Graph.on_graph.
  raises_with ltac:(first [ graph_ops
                          | apply raises_only_closure; apply Hc
                          | apply raises_only_closure; apply Ha
                          | apply raises_only_closure; apply Ht ]).
Qed.

Lemma exc_get_gradients C name feed :
  raises_only C [name_missing; interpreter; framework_call]
    (get_gradients name feed).
Proof. unfold get_gradients, G_get, on_G. raises_with graph_ops. Qed.

Lemma exc_apply_gradient_ops C name feed :
  raises_only C [name_missing; interpreter; framework_call]
    (apply_gradient_ops name feed).
Proof. unfold apply_gradient_ops, G_get, on_G. raises_with graph_ops. Qed.

Lemma exc_predict C data_ output_name input_name :
  raises_only C [name_missing; interpreter; framework_call]
    (predict data_ output_name input_name).
Proof.
  unfold predict, flatten_value, G_get, on_G. raises_with graph_ops.
Qed.

(** What [update] and [__init__] raise depends on the closure of the
    object they work on. *)

Lemma exc_run_update C m' feed :
  raises_only C [interpreter; framework_call]
    (let* r := on_self (on_G (Graph.__call__list
                 [_optimizer_op (self_ m'); _loss (self_ m')] feed)) in
     match r with
     | [_; loss] => ret loss
     | _ => raise (Interp "ValueError")
     end).
Proof. unfold on_self, on_G. raises_with graph_ops. Qed.

Lemma exc_build_update_feed args m e :
  (build_update_feed args m).1 = Raise e →
  (∃ f, build_update_feed_dict m = Some f ∧ raised_by (f args) e) ∨
  e = Interp "AttributeError".
Proof.
  unfold build_update_feed. rewrite bind_eq. cbn [get].
  destruct (build_update_feed_dict m) as [f|] eqn:E; cbn [getattr].
  - rewrite bind_eq. cbn [ret]. unfold on_self, zoom.
    destruct (f args (self_ m)) as [r s] eqn:Ef. cbn [fst]. intros ->.
    left. exists f. split; [done|]. exists (self_ m). by rewrite Ef.
  - rewrite bind_eq. cbn [raise fst]. intros [= <-]. by right.
Qed.

Lemma exc_update args m e :
  (update args m).1 = Raise e →
  (∃ f, build_update_feed_dict m = Some f ∧ raised_by (f args) e) ∨
  ∃ o, o ∈ [failed_assert; interpreter; framework_call] ∧ came_from o e.
Proof.
  unfold update. rewrite bind_eq. cbn [get].
  destruct (_optimizer_op (self_ m)) as [op|].
  2:{ cbn [raise fst]. intros [= <-]. right. exists failed_assert.
      split; [origins|done]. }
  rewrite bind_eq.
  destruct (build_update_feed args m) as [[feed|e'] m1] eqn:Eb.
  - rewrite bind_eq. cbn [get]. intros He.
    destruct (exc_run_update no_closure m1 feed m1 e He)
      as [[]|(o & Ho & Hfrom)].
    right. exists o. split; [|done]. revert Ho. clear. revert o. origins.
  - cbn [fst]. intros [= <-].
    destruct (exc_build_update_feed args m e') as [Hf| ->];
      [by rewrite Eb|by left|].
    right. exists interpreter. split; [origins|by eexists].
Qed.

Lemma exc_new env build_graph buf e :
  Model.new env build_graph buf = Raise e →
  raised_by build_graph e ∨
  ∃ o, o ∈ [name_taken; interpreter; framework_call] ∧ came_from o e.
Proof.
  unfold Model.new.
  destruct (Model.__init__ env build_graph buf) as [[[]|e'] m] eqn:E; [done|].
  intros [= <-]. revert E. unfold Model.__init__. intros E.
  eapply (raises_only_with (raised_by build_graph)
            [name_taken; interpreter; framework_call]);
    [..|by rewrite E].
  - unfold on_self, on_G. raises_with graph_ops.
  - unfold on_self, on_G. raises_with graph_ops.
  - unfold on_self.
    raises_with ltac:(first [ by_lemma exc_create_weight_setter_ops
                            | by apply raises_only_closure ]).
Qed.


End Exceptions.

(** ** The keys the framework leaves to the wrapper *)

Section Preserves.
Context {S : Type}.

Implicit Types (P : S → Prop).

Lemma preserves_ret {A} P (a : A) : preserves P (ret a).
Proof. by intros s. Qed.

Lemma preserves_raise {A} P e : preserves P (raise (A := A) e).
Proof. by intros s. Qed.

Lemma preserves_get P : preserves P get.
Proof. by intros s. Qed.

Lemma preserves_gets {A} P (f : S → A) : preserves P (gets f).
Proof. by intros s. Qed.

Lemma preserves_getattr {A} P (attr : option A) :
  preserves P (Model.getattr attr).
Proof. destruct attr; by intros s. Qed.

Lemma preserves_item0 {A} P (seq : list A) : preserves P (Model.item0 seq).
Proof. destruct seq; by intros s. Qed.

Lemma preserves_modify P (f : S → S) :
  (∀ s, P s → P (f s)) → preserves P (modify f).
Proof. intros Hf s. apply Hf. Qed.

Lemma preserves_bind {A B} P (c : M S A) (k : A → M S B) :
  preserves P c → (∀ a, preserves P (k a)) → preserves P (bind c k).
Proof.
  intros Hc Hk s Hs. unfold bind. specialize (Hc s Hs).
  destruct (c s) as [[a|e] s']; [by apply Hk|done].
Qed.

Lemma preserves_for_each {A} P (l : list A) (body : A → M S unit) :
  (∀ x, preserves P (body x)) → preserves P (for_each l body).
Proof.
  intros Hb. induction l as [|x l IH]; [apply preserves_ret|].
  cbn [for_each]. apply preserves_bind; [apply Hb|]. by intros _.
Qed.

Lemma preserves_list_comp {A B} P (f : A → M S B) (l : list A) :
  (∀ x, preserves P (f x)) → preserves P (list_comp f l).
Proof.
  intros Hf. induction l as [|x l IH]; [apply preserves_ret|].
  cbn [list_comp]. apply preserves_bind; [apply Hf|]. intros y.
  apply preserves_bind; [apply IH|]. intros ys. apply preserves_ret.
Qed.

Lemma preserves_with {A} P (enter exit : M S unit) (body : M S A) :
  preserves P enter → preserves P exit → preserves P body →
  preserves P (with_ enter exit body).
Proof.
  intros He Hx Hb. unfold with_. apply preserves_bind; [done|].
  intros _ s Hs. specialize (Hb s Hs).
  destruct (body s) as [[a|e'] s']; specialize (Hx s' Hb);
    destruct (exit s') as [[[]|e''] s'']; exact Hx.
Qed.

End Preserves.

Section Keys.
Context `{F : Framework}.
Import Model.

Variable K : string → Prop.
Hypothesis HK : framework_keeps K.

Implicit Types (self : state) (gr : Graph.t) (g : tf) (nd : node).

Lemma keeps_keys_preserves {A} (c : M tf A) :
  keeps_keys K c → preserves (one_node_at K) c.
Proof. intros Hc g Hg k l Hk. rewrite Hc by done. by apply Hg. Qed.

Lemma preserves_on_graph {A} (c : M tf A) :
  preserves (one_node_at K) c → preserves (graph_ok K) (Graph.on_graph c).
Proof.
  intros Hc gr Hgr. unfold Graph.on_graph, zoom. specialize (Hc _ Hgr).
  by destruct (c (Graph._graph gr)).
Qed.

Lemma preserves_on_G {A} (c : M Graph.t A) :
  preserves (graph_ok K) c → preserves (model_ok K) (on_G c).
Proof.
  intros Hc self Hs. unfold on_G, zoom. specialize (Hc _ Hs).
  by destruct (c (G self)).
Qed.

Lemma preserves_on_self {A} (c : M state A) :
  preserves (model_ok K) c →
  preserves (λ m, model_ok K (self_ m)) (on_self c).
Proof.
  intros Hc m Hm. unfold on_self, zoom. specialize (Hc _ Hm).
  by destruct (c (self_ m)).
Qed.

Lemma preserves_tf_build c : preserves (one_node_at K) (tf_build c).
Proof. apply keeps_keys_preserves, HK. Qed.

Lemma preserves_session_run x feed :
  preserves (one_node_at K) (session_run x feed).
Proof. apply keeps_keys_preserves, HK. Qed.

Lemma preserves_session_run_list l feed :
  preserves (one_node_at K) (session_run_list l feed).
Proof. apply keeps_keys_preserves, HK. Qed.

(** *** The operations of [Graph] *)

Lemma inv_init : graph_ok K Graph.__init__.
Proof. intros k l _. cbn. by rewrite lookup_empty. Qed.

Lemma inv_enter : preserves (graph_ok K) Graph.__enter__.
Proof. by intros gr Hgr. Qed.

Lemma inv_setitem var_name nd :
  preserves (graph_ok K) (Graph.__setitem__ var_name nd).
Proof.
  intros gr Hgr.
  destruct (Graph.__setitem__ var_name nd gr) as [[[]|e] gr'] eqn:E.
  - apply setitem_ok_inv in E as (Hc & _ & ->). apply contains_false in Hc.
    intros k l Hk. cbn. destruct (decide (k = var_name)) as [->|Hne].
    + rewrite lookup_insert_eq. by intros [= <-].
    + rewrite lookup_insert_ne by done. by apply Hgr.
  - cbn. destruct (Graph.__contains__ var_name gr) eqn:Hc.
    { rewrite setitem_taken in E by done. by injection E as _ <-. }
    destruct (finalized (Graph._graph gr)) eqn:Hf.
    + destruct (setitem_finalized var_name nd gr Hc Hf) as [msg Hm].
      rewrite Hm in E. by injection E as _ <-.
    + by rewrite setitem_new in E.
Qed.

Lemma inv_getitem_str var_name :
  preserves (graph_ok K) (Graph.getitem_str var_name).
Proof. intros gr Hgr. by rewrite getitem_str_reads. Qed.

Lemma inv_getitem v : preserves (graph_ok K) (Graph.__getitem__ v).
Proof. intros gr Hgr. by rewrite getitem_reads. Qed.

Lemma inv_call ops feed : preserves (graph_ok K) (Graph.__call__ ops feed).
Proof.
  unfold Graph.__call__, Graph.run, Graph.record_run.
  apply preserves_bind; [by apply preserves_modify|]. intros _.
  apply preserves_on_graph, preserves_session_run.
Qed.

Lemma inv_call_list ops feed :
  preserves (graph_ok K) (Graph.__call__list ops feed).
Proof.
  unfold Graph.__call__list, Graph.run_list, Graph.record_run.
  apply preserves_bind; [by apply preserves_modify|]. intros _.
  apply preserves_on_graph, preserves_session_run_list.
Qed.

Lemma inv_exit : preserves (graph_ok K) Graph.__exit__.
Proof.
  unfold Graph.__exit__.
  apply preserves_bind; [apply preserves_gets|]. intros vars.
  apply preserves_bind; [apply preserves_on_graph, preserves_tf_build|].
  intros init. apply preserves_bind; [apply inv_call|]. intros _.
  apply preserves_bind.
  { apply preserves_on_graph. by apply preserves_modify. }
  intros _. apply preserves_bind; [apply preserves_get|]. intros gr.
  destruct (Graph._context gr); [|apply preserves_raise].
  apply preserves_on_graph. by apply preserves_modify.
Qed.

(** *** The operations of [Model] *)

Ltac keeps_with known :=
  repeat first
    [ known
    | match goal with
      | |- preserves _ (ret _) => apply preserves_ret
      | |- preserves _ (raise _) => apply preserves_raise
      | |- preserves _ get => apply preserves_get
      | |- preserves _ (gets _) => apply preserves_gets
      | |- preserves _ (getattr _) => apply preserves_getattr
      | |- preserves _ (item0 _) => apply preserves_item0
      | |- preserves _ (modify _) => by apply preserves_modify
      | |- preserves _ (bind _ _) => apply preserves_bind; [|intros ?]
      | |- preserves _ (for_each _ _) => apply preserves_for_each; intros ?
      | |- preserves _ (list_comp _ _) => apply preserves_list_comp; intros ?
      | |- preserves _ (on_self _) => apply preserves_on_self
      | |- preserves _ (on_G _) => apply preserves_on_G
      | |- preserves _ (Graph.on_graph _) => apply preserves_on_graph
      | |- preserves _ (tf_build _) => apply preserves_tf_build
      | |- preserves _ (Graph.__setitem__ _ _) => apply inv_setitem
      | |- preserves _ (Graph.getitem_str _) => apply inv_getitem_str
      | |- preserves _ (Graph.__call__ _ _) => apply inv_call
      | |- preserves _ (Graph.__call__list _ _) => apply inv_call_list
      | |- preserves _ Graph.__exit__ => apply inv_exit
      | |- preserves _ Graph.__enter__ => apply inv_enter
      | |- preserves _ (if ?b then _ else _) => destruct b
      | |- preserves _ (match ?x with _ => _ end) => destruct x
      end ].

Ltac keeps := keeps_with fail.

Lemma inv_env : preserves (model_ok K) env.
Proof. unfold env. keeps. Qed.

Lemma inv_get_env_action_space_dimension :
  preserves (model_ok K) get_env_action_space_dimension.
Proof. unfold get_env_action_space_dimension. keeps. Qed.

Lemma inv_weights : preserves (model_ok K) weights.
Proof. unfold weights. keeps. Qed.

Lemma inv_get_weight_names : preserves (model_ok K) get_weight_names.
Proof. unfold get_weight_names, weights. keeps. Qed.

Lemma inv_loss : preserves (model_ok K) loss.
Proof. unfold loss. keeps. Qed.

Lemma inv_loss_setter l : preserves (model_ok K) (loss_setter l).
Proof. unfold loss_setter. keeps. Qed.

Lemma inv_optimizer : preserves (model_ok K) optimizer_.
Proof. unfold optimizer_. keeps. Qed.

Lemma inv_optimizer_setter opt : preserves (model_ok K) (optimizer_setter opt).
Proof. unfold optimizer_setter, tf_. keeps. Qed.

Lemma inv_weights_setter ws : preserves (model_ok K) (weights_setter ws).
Proof. unfold weights_setter, G_get. keeps. Qed.

Lemma inv_get_weights : preserves (model_ok K) get_weights.
Proof. unfold get_weights, weights. keeps. Qed.

Lemma inv_set_weights ws : preserves (model_ok K) (set_weights ws).
Proof. unfold set_weights, weights. keeps. apply inv_weights_setter. Qed.

Lemma inv_add_input name dt shape :
  preserves (model_ok K) (add_input name dt shape).
Proof. unfold add_input, env, attribute, setattr, tf_, G_set. keeps. Qed.

Lemma inv_add_output network num_outputs name dt :
  (∀ i k, preserves (one_node_at K) (network i k)) →
  preserves (model_ok K) (add_output network num_outputs name dt).
Proof.
  intros Hn. unfold add_output, attribute, G_set.
  keeps_with ltac:(first [ apply inv_get_env_action_space_dimension
                         | apply Hn ]).
Qed.

Lemma inv_add_output_node nd name :
  preserves (model_ok K) (add_output_node nd name).
Proof. unfold add_output_node, G_set. keeps. Qed.

Lemma inv_create_weight_setter_ops :
  preserves (model_ok K) create_weight_setter_ops.
Proof. unfold create_weight_setter_ops, weights, tf_, G_set. keeps. Qed.

Lemma inv_create_gradient_ops_for_node compute_gradients apply_gradients
    as_object nd transform_grad_func :
  (∀ opt ws, preserves (one_node_at K) (compute_gradients opt nd ws)) →
  (∀ opt grads, preserves (one_node_at K) (apply_gradients opt grads)) →
  (∀ grad, preserves (one_node_at K) (transform_grad_func grad)) →
  preserves (model_ok K)
    (create_gradient_ops_for_node compute_gradients apply_gradients as_object
       nd transform_grad_func).
Proof.
  intros Hc Ha Ht.
  unfold create_gradient_ops_for_node, optimizer_, weights, G_set, G_get.
  keeps_with ltac:(first [apply Hc|apply Ha|apply Ht]).
Qed.

Lemma inv_get_gradients name feed :
  preserves (model_ok K) (get_gradients name feed).
Proof. unfold get_gradients, G_get. keeps. Qed.

Lemma inv_apply_gradient_ops name feed :
  preserves (model_ok K) (apply_gradient_ops name feed).
Proof. unfold apply_gradient_ops, G_get. keeps. Qed.

Lemma inv_predict data_ output_name input_name :
  preserves (model_ok K) (predict data_ output_name input_name).
Proof. unfold predict, flatten_value, G_get. keeps. Qed.

Lemma inv_build_update_feed args m :
  (∀ f, build_update_feed_dict m = Some f → preserves (model_ok K) (f args)) →
  model_ok K (self_ m) → model_ok K (self_ (build_update_feed args m).2).
Proof.
  intros Hf Hm. unfold build_update_feed. rewrite bind_eq. cbn [get].
  destruct (build_update_feed_dict m) as [f|] eqn:E; cbn [getattr]; [|done].
  rewrite bind_eq. cbn [ret].
  by apply (preserves_on_self (f args) (Hf f eq_refl)).
Qed.

Lemma inv_run_update m' feed :
  preserves (λ m, model_ok K (self_ m))
    (let* r := on_self (on_G (Graph.__call__list
                 [_optimizer_op (self_ m'); _loss (self_ m')] feed)) in
     match r with
     | [_; loss] => ret loss
     | _ => raise (Interp "ValueError")
     end).
Proof. keeps. Qed.

Lemma inv_update args m :
  (∀ f, build_update_feed_dict m = Some f → preserves (model_ok K) (f args)) →
  model_ok K (self_ m) → model_ok K (self_ (update args m).2).
Proof.
  intros Hf Hm. unfold update. rewrite bind_eq. cbn [get].
  destruct (_optimizer_op (self_ m)) as [op|]; [|done].
  rewrite bind_eq. pose proof (inv_build_update_feed args m Hf Hm) as Hb.
  destruct (build_update_feed args m) as [[feed|e] m1]; [|done].
  rewrite bind_eq. cbn [get snd] in *.
  exact (inv_run_update m1 feed m1 Hb).
Qed.

Lemma inv_new env build_graph buf :
  preserves (model_ok K) build_graph →
  model_ok K (self_ (Model.__init__ env build_graph buf).2).
Proof.
  intros Hb. unfold Model.__init__.
  apply (preserves_with (λ m, model_ok K (self_ m))).
  - keeps.
  - keeps.
  - keeps_with ltac:(first [apply inv_create_weight_setter_ops|apply Hb]).
  - apply inv_init.
Qed.

(** C10, as amended.  [Graph.__setitem__] raises its [KeyError] and leaves
    the object as it was whenever the name is registered, and a
    registration that goes through leaves exactly the node given under the
    name.  For any set [K] of keys whose collections the framework calls
    leave alone, every operation of [Graph] and [Model] keeps the
    invariant that each registered key of [K] holds exactly one node, a
    new graph has it, and closures supplied by the caller are expected to
    keep it too.  ([__contains__] and the two variable properties only read
    the collection store.)  Under the invariant, what [Graph.__getitem__]
    selects at a registered key of [K] is the whole collection. *)
Theorem key_uniqueness_invariant :
  (* registering *)
  (∀ var_name nd gr,
     Graph.__contains__ var_name gr = true →
     Graph.__setitem__ var_name nd gr =
       (Raise (KeyError (quoted var_name +:+ " is already in the graph.")),
        gr)) ∧
  (∀ var_name nd gr gr',
     Graph.__setitem__ var_name nd gr = (Ok tt, gr') →
     collections (Graph._graph gr') !! var_name = Some [nd]) ∧
  (* Graph *)
  graph_ok K Graph.__init__ ∧
  preserves (graph_ok K) Graph.__enter__ ∧
  preserves (graph_ok K) Graph.__exit__ ∧
  (∀ var_name nd, preserves (graph_ok K) (Graph.__setitem__ var_name nd)) ∧
  (∀ v, preserves (graph_ok K) (Graph.__getitem__ v)) ∧
  (∀ ops feed, preserves (graph_ok K) (Graph.__call__ ops feed)) ∧
  (∀ ops feed, preserves (graph_ok K) (Graph.__call__list ops feed)) ∧
  (* Model *)
  (∀ env build_graph buf,
     preserves (model_ok K) build_graph →
     model_ok K (self_ (Model.__init__ env build_graph buf).2)) ∧
  (∀ args m,
     (∀ f, build_update_feed_dict m = Some f →
           preserves (model_ok K) (f args)) →
     model_ok K (self_ m) → model_ok K (self_ (update args m).2)) ∧
  (∀ args m,
     (∀ f, build_update_feed_dict m = Some f →
           preserves (model_ok K) (f args)) →
     model_ok K (self_ m) →
     model_ok K (self_ (build_update_feed args m).2)) ∧
  preserves (model_ok K) env ∧
  preserves (model_ok K) get_env_action_space_dimension ∧
  preserves (model_ok K) weights ∧
  (∀ ws, preserves (model_ok K) (weights_setter ws)) ∧
  preserves (model_ok K) get_weight_names ∧
  preserves (model_ok K) get_weights ∧
  (∀ ws, preserves (model_ok K) (set_weights ws)) ∧
  preserves (model_ok K) loss ∧
  (∀ l, preserves (model_ok K) (loss_setter l)) ∧
  preserves (model_ok K) optimizer_ ∧
  (∀ opt, preserves (model_ok K) (optimizer_setter opt)) ∧
  (∀ name dt shape, preserves (model_ok K) (add_input name dt shape)) ∧
  (∀ network num_outputs name dt,
     (∀ i k, preserves (one_node_at K) (network i k)) →
     preserves (model_ok K) (add_output network num_outputs name dt)) ∧
  (∀ nd name, preserves (model_ok K) (add_output_node nd name)) ∧
  preserves (model_ok K) create_weight_setter_ops ∧
  (∀ compute_gradients apply_gradients as_object nd transform_grad_func,
     (∀ opt ws, preserves (one_node_at K) (compute_gradients opt nd ws)) →
     (∀ opt grads, preserves (one_node_at K) (apply_gradients opt grads)) →
     (∀ grad, preserves (one_node_at K) (transform_grad_func grad)) →
     preserves (model_ok K)
       (create_gradient_ops_for_node compute_gradients apply_gradients
          as_object nd transform_grad_func)) ∧
  (∀ name feed, preserves (model_ok K) (get_gradients name feed)) ∧
  (∀ name feed, preserves (model_ok K) (apply_gradient_ops name feed)) ∧
  (∀ data_ output_name input_name,
     preserves (model_ok K) (predict data_ output_name input_name)) ∧
  (* the selection of [__getitem__] *)
  (∀ gr k,
     graph_ok K gr → K k → Graph.__contains__ k gr = true →
     ∃ x, Graph.get_collection k (Graph._graph gr) = [x] ∧
          Graph.__getitem__ (Graph.Name k) gr = (Ok (Graph.Node x), gr)).
Proof.
  split_and!.
  - intros. by apply setitem_taken.
  - intros var_name nd gr gr' H. apply setitem_ok_inv in H as (_ & _ & ->).
    cbn. apply lookup_insert_eq.
  - apply inv_init.
  - apply inv_enter.
  - apply inv_exit.
  - apply inv_setitem.
  - apply inv_getitem.
  - apply inv_call.
  - apply inv_call_list.
  - apply inv_new.
  - apply inv_update.
  - apply inv_build_update_feed.
  - apply inv_env.
  - apply inv_get_env_action_space_dimension.
  - apply inv_weights.
  - apply inv_weights_setter.
  - apply inv_get_weight_names.
  - apply inv_get_weights.
  - apply inv_set_weights.
  - apply inv_loss.
  - apply inv_loss_setter.
  - apply inv_optimizer.
  - apply inv_optimizer_setter.
  - apply inv_add_input.
  - apply inv_add_output.
  - apply inv_add_output_node.
  - apply inv_create_weight_setter_ops.
  - apply inv_create_gradient_ops_for_node.
  - apply inv_get_gradients.
  - apply inv_apply_gradient_ops.
  - apply inv_predict.
  - intros gr k Hgr Hk Hc. apply contains_true in Hc as [l Hl].
    pose proof (Hgr k l Hk Hl) as Hlen.
    destruct l as [|x [|? ?]]; try done. exists x. split.
    + unfold Graph.get_collection. by rewrite Hl.
    + by rewrite getitem_Name, (getitem_str_present _ _ _ Hl).
Qed.

End Keys.

(** ** The two amended claims at work on the small framework *)

Lemma toy_framework_keeps : framework_keeps (F := toy.framework) toy.untouched.
Proof.
  split_and!.
  - intros c g k _. change (tf_build c g) with (toy.build c g).
    unfold toy.build. by destruct g as [? [] ? ?].
  - by intros x feed g k _.
  - by intros l feed g k _.
Qed.

Lemma toy_network_keeps a i k :
  preserves (one_node_at (F := toy.framework) toy.untouched)
    (toy.network a i k).
Proof.
  apply (keeps_keys_preserves (F := toy.framework)).
  intros g key [Hv Ht]. unfold toy.network.
  destruct g as [c [] d n]; [done|]. cbn [snd collections finalized].
  unfold toy.new_variable, toy.append_to.
  by rewrite !lookup_insert_ne.
Qed.


(** C10 as stated fails: adding the output of a dense layer leaves two
    nodes under the registered key of the trainable variables. *)
Lemma add_output_breaks_key_uniqueness :
  ¬ (∀ (F : Framework) (network : node → Z → M tf node)
       (num_outputs : option Z) (name : string) (dt : dtype)
       (self : Model.state),
       one_node_per_key (Model.G self) →
       one_node_per_key
         (Model.G (Model.add_output network num_outputs name dt self).2)).
Proof.
  intros H.
  specialize (H toy.framework (toy.network softmax) None "" float32
                toy.with_input).
  assert (Hin : one_node_per_key (F := toy.framework)
                  (Model.G toy.with_input)).
  { intros k l.
    assert (Hc : collections (Graph._graph (F := toy.framework)
                   (Model.G toy.with_input)) = {["input:" := [0%nat]]})
      by (vm_compute; reflexivity).
    rewrite Hc. intros [_ <-]%lookup_singleton_Some. reflexivity. }
  specialize (H Hin TRAINABLE_VARIABLES_KEY [1%nat; 2%nat]).
  discriminate H. vm_compute. reflexivity.
Qed.

(** C10 as amended, at work: the keys other than the two collections of
    variables, in the model whose output has been added. *)
Lemma key_uniqueness_invariant_witness :
  framework_keeps (F := toy.framework) toy.untouched ∧
  model_ok (F := toy.framework) toy.untouched toy.with_output ∧
  ∃ x, Graph.__getitem__ (F := toy.framework) (Graph.Name "output:")
         (Model.G toy.with_output) =
       (Ok (Graph.Node (F := toy.framework) x), Model.G toy.with_output).
Proof.
  pose proof (key_uniqueness_invariant (F := toy.framework) toy.untouched
                toy_framework_keeps) as H.
  do 23 (destruct H as [_ H]). destruct H as [Hin [Hout H]].
  do 6 (destruct H as [_ H]). rename H into Hget.
  assert (H0 : model_ok (F := toy.framework) toy.untouched
                 (Model.BuildState toy.discrete_env
                    (Graph.Build (F := toy.framework)
                       (TfState ∅ false true 0%nat) true [])
                    None None None ∅)).
  { intros k l _. cbn. by rewrite lookup_empty. }
  assert (H2 : model_ok (F := toy.framework) toy.untouched toy.with_output).
  { apply (Hout (toy.network softmax) None "" float32);
      [intros; apply toy_network_keeps|].
    apply (Hin "" float32 None). exact H0. }
  split; [exact toy_framework_keeps|]. split; [exact H2|].
  destruct (Hget (Model.G toy.with_output) "output:" H2) as (x & _ & Hx).
  - split; discriminate.
  - vm_compute. reflexivity.
  - by exists x.
Defined.

(** * Further properties of the code *)

(** ** The registry once finalized, and keys the framework fills *)

Section RegistryMore.
Context `{F : Framework}.
Import Model.

Implicit Types (self : state) (gr : Graph.t) (nd : node).

Lemma setitem_closed var_name nd gr :
  Graph.__contains__ var_name gr = false →
  finalized (Graph._graph gr) = true →
  Graph.__setitem__ var_name nd gr =
    (Raise (Foreign "RuntimeError" "Graph is finalized and cannot be modified."),
     gr).
Proof.
  intros Hc Hf. unfold Graph.__setitem__. rewrite bind_eq. cbn [get].
  rewrite Hc. unfold Graph.on_graph, zoom, Graph.add_to_collection.
  rewrite Hf. by destruct gr.
Qed.

(** X1. Once the graph is finalized (as [__exit__] leaves it) nothing can be
    registered any more: [Graph.__setitem__] raises, the [KeyError] of a
    registered name or else the framework's error, and [add_output_node]
    raises the same exception; both leave the object exactly as it was. *)
Theorem registry_frozen_once_finalized var_name name nd self :
  finalized (Graph._graph (G self)) = true →
  Graph.__setitem__ var_name nd (G self) =
    (Raise (if Graph.__contains__ var_name (G self)
            then KeyError (quoted var_name +:+ " is already in the graph.")
            else Foreign "RuntimeError"
                   "Graph is finalized and cannot be modified."),
     G self) ∧
  add_output_node nd name self =
    (Raise (if Graph.__contains__ ("output:" +:+ name) (G self)
            then KeyError (quoted ("output:" +:+ name) +:+
                           " is already in the graph.")
            else Foreign "RuntimeError"
                   "Graph is finalized and cannot be modified."),
     self).
Proof.
  intros Hf.
  assert (Hset : ∀ k,
    Graph.__setitem__ k nd (G self) =
      (Raise (if Graph.__contains__ k (G self)
              then KeyError (quoted k +:+ " is already in the graph.")
              else Foreign "RuntimeError"
                     "Graph is finalized and cannot be modified."),
       G self)).
  { intros k. destruct (Graph.__contains__ k (G self)) eqn:Hc.
    - by apply setitem_taken.
    - by apply setitem_closed. }
  split; [apply Hset|].
  unfold add_output_node. rewrite bind_eq, G_set_eq, Hset. cbn [fst snd].
  by rewrite set_G_same.
Qed.

(** X2. A key whose collection holds several nodes, such as the framework's
    own collection of trainable variables, is a registered name like any
    other: [__contains__] is true, [__getitem__] returns the first node
    only, and [__setitem__] refuses the name with a [KeyError], changing
    nothing. *)
Theorem framework_keys_are_registered gr :
  (∀ k x rest,
     collections (Graph._graph gr) !! k = Some (x :: rest) →
     Graph.__contains__ k gr = true ∧
     Graph.__getitem__ (Graph.Name k) gr = (Ok (Graph.Node x), gr) ∧
     ∀ nd, Graph.__setitem__ k nd gr =
             (Raise (KeyError (quoted k +:+ " is already in the graph.")), gr)) ∧
  (∀ x rest,
     Graph.TRAINABLE_VARIABLES gr = x :: rest →
     Graph.__contains__ TRAINABLE_VARIABLES_KEY gr = true ∧
     Graph.__getitem__ (Graph.Name TRAINABLE_VARIABLES_KEY) gr =
       (Ok (Graph.Node x), gr)).
Proof.
  assert (Hgen : ∀ k x rest,
     collections (Graph._graph gr) !! k = Some (x :: rest) →
     Graph.__contains__ k gr = true ∧
     Graph.__getitem__ (Graph.Name k) gr = (Ok (Graph.Node x), gr) ∧
     ∀ nd, Graph.__setitem__ k nd gr =
             (Raise (KeyError (quoted k +:+ " is already in the graph.")), gr)).
  { intros k x rest Hk.
    assert (Hc : Graph.__contains__ k gr = true) by (apply contains_true; eauto).
    split; [exact Hc|]. split.
    - by rewrite getitem_Name, (getitem_str_present _ _ _ Hk).
    - intros nd. by apply setitem_taken. }
  split; [exact Hgen|].
  intros x rest Hws. unfold Graph.TRAINABLE_VARIABLES, Graph.get_collection in Hws.
  destruct (collections (Graph._graph gr) !! TRAINABLE_VARIABLES_KEY)
    as [l|] eqn:E; cbn in Hws; [subst l|done].
  destruct (Hgen _ _ _ E) as (H1 & H2 & _). by split.
Qed.

End RegistryMore.

(** ** Predictions and gradient runs *)

Section RunsMore.
Context `{F : Framework}.
Import Model.

Implicit Types (self : state) (nd : node).

Lemma predict_eq data_ output_name input_name self :
  predict data_ output_name input_name self =
    match (Graph.getitem_str output_name (G self)).1 with
    | Raise e => (Raise e, self)
    | Ok output =>
        match (Graph.getitem_str input_name (G self)).1 with
        | Raise e => (Raise e, self)
        | Ok input =>
            let feed := [(input, VArray (fed data_))] in
            let r := session_run output feed (Graph._graph (G self)) in
            (match r.1 with
             | Ok out => (flatten_value out self).1
             | Raise e => Raise e
             end,
             after_run (FetchOne output) feed r.2 self)
        end
    end.
Proof.
  unfold predict. rewrite fed_eq, bind_eq, G_get_eq.
  destruct (Graph.getitem_str output_name (G self)).1 as [output|e]; [|done].
  rewrite bind_eq, G_get_eq.
  destruct (Graph.getitem_str input_name (G self)).1 as [input|e]; [|done].
  rewrite bind_eq, call_eq. cbn [dict_of foldl dict_set fst snd].
  destruct (session_run output [(input, VArray (fed data_))]
              (Graph._graph (G self))) as [[out|e] g]; cbn [fst snd]; [|done].
  by destruct out.
Qed.

(** X3. [predict] looks the output up before the input and runs nothing
    when a lookup fails: with [output_name] unregistered it raises the
    [KeyError] of [output_name] (whatever [input_name] is); with the output
    registered and [input_name] unregistered, the [KeyError] of
    [input_name]; the model, its history of runs included, is unchanged. *)
Theorem predict_missing_key data_ output_name input_name self :
  (Graph.__contains__ output_name (G self) = false →
   predict data_ output_name input_name self =
     (Raise (KeyError (quoted output_name +:+ " does not exist in the graph.")),
      self)) ∧
  (∀ output,
     Graph.getitem_str output_name (G self) = (Ok output, G self) →
     Graph.__contains__ input_name (G self) = false →
     predict data_ output_name input_name self =
       (Raise (KeyError (quoted input_name +:+ " does not exist in the graph.")),
        self)).
Proof.
  split.
  - intros Ho. by rewrite predict_eq, getitem_str_missing.
  - intros output Ho Hi. rewrite predict_eq, Ho. cbn [fst].
    by rewrite getitem_str_missing.
Qed.

(** X4. A single sample and the batch of one row made of it are the same
    to [predict]: the same outcome and the same model afterwards. *)
Theorem predict_single_is_batch_of_one data_ output_name input_name self :
  ndim data_ = 1%nat →
  predict data_ output_name input_name self =
    predict (expand_dims0 data_) output_name input_name self.
Proof.
  intros Hd. unfold predict. rewrite decide_True by done.
  rewrite decide_False; [done|]. unfold ndim, expand_dims0 in *. cbn. lia.
Qed.

Lemma lookup_then_run_eq key feed self :
  (let* fetch := G_get key in on_G (Graph.__call__ fetch feed)) self =
    match (Graph.getitem_str key (G self)).1 with
    | Raise e => (Raise e, self)
    | Ok fetch =>
        ((session_run fetch feed (Graph._graph (G self))).1,
         after_run (FetchOne fetch) feed
           (session_run fetch feed (Graph._graph (G self))).2 self)
    end.
Proof.
  rewrite bind_eq, G_get_eq.
  destruct (Graph.getitem_str key (G self)).1 as [fetch|e]; [|done].
  apply call_eq.
Qed.

(** X5. [get_gradients] and [apply_gradient_ops] raise the [KeyError] of
    their key (['gradients:' + name], ['gradients_ops:' + name]) and run
    nothing when no gradient ops were created under [name]; otherwise each
    makes exactly one session run, of what is registered under its key with
    the feed dict given, and passes on what the run returns or raises. *)
Theorem gradient_runs name feed self :
  (Graph.__contains__ ("gradients:" +:+ name) (G self) = false →
   get_gradients name feed self =
     (Raise (KeyError (quoted ("gradients:" +:+ name) +:+
                       " does not exist in the graph.")), self)) ∧
  (Graph.__contains__ ("gradients_ops:" +:+ name) (G self) = false →
   apply_gradient_ops name feed self =
     (Raise (KeyError (quoted ("gradients_ops:" +:+ name) +:+
                       " does not exist in the graph.")), self)) ∧
  (∀ nd,
     Graph.getitem_str ("gradients:" +:+ name) (G self) = (Ok nd, G self) →
     get_gradients name feed self =
       ((session_run nd feed (Graph._graph (G self))).1,
        after_run (FetchOne nd) feed
          (session_run nd feed (Graph._graph (G self))).2 self)) ∧
  (∀ nd,
     Graph.getitem_str ("gradients_ops:" +:+ name) (G self) = (Ok nd, G self) →
     apply_gradient_ops name feed self =
       ((session_run nd feed (Graph._graph (G self))).1,
        after_run (FetchOne nd) feed
          (session_run nd feed (Graph._graph (G self))).2 self)).
Proof.
  unfold get_gradients, apply_gradient_ops. rewrite !lookup_then_run_eq.
  split_and!.
  - intros H. by rewrite getitem_str_missing.
  - intros H. by rewrite getitem_str_missing.
  - intros nd H. by rewrite H.
  - intros nd H. by rewrite H.
Qed.

End RunsMore.

(** ** Building a model step by step *)

Section BuildMore.
Context `{F : Framework}.
Import Model.

Implicit Types (self : state) (nd : node).

Lemma add_input_eq name dt shape self :
  add_input name dt shape self =
    match (match shape with
           | Some shp => Ok shp
           | None => default_input_shape (_env self)
           end) with
    | Raise e => (Raise e, self)
    | Ok shp =>
        match tf_build (placeholder dt shp None) (Graph._graph (G self)) with
        | (Raise e, g) => (Raise e, with_graph g self)
        | (Ok x, g) =>
            let self1 :=
              set_dict (<["input_node" := x]> (__dict__ self))
                (with_graph g self) in
            let r := Graph.__setitem__ ("input:" +:+ name) x (G self1) in
            (match r.1 with
             | Ok _ => Ok x
             | Raise e => Raise e
             end, set_G r.2 self1)
        end
    end.
Proof.
  unfold add_input. rewrite bind_eq.
  assert ((match shape with
           | Some shp => ret shp
           | None =>
               let* e := env in
               let* shp := getattr (shape_ (observation_space e)) in
               let* d := item0 shp in ret [None; Some d]
           end) self
          = ((match shape with
              | Some shp => Ok shp
              | None => default_input_shape (_env self)
              end), self)) as ->.
  { destruct shape as [shp|]; [done|]. unfold default_input_shape.
    rewrite bind_eq. cbn [env gets]. rewrite bind_eq.
    destruct (shape_ (observation_space (_env self))) as [[|d ds]|]; done. }
  destruct (match shape with
            | Some shp => Ok shp
            | None => default_input_shape (_env self)
            end) as [shp|e]; [|done].
  rewrite bind_eq, tf_eq.
  destruct (tf_build (placeholder dt shp None) (Graph._graph (G self)))
    as [[x|e] g]; cbn [fst snd]; [|done].
  rewrite bind_eq. cbn [setattr modify]. rewrite bind_eq, G_set_eq.
  destruct (Graph.__setitem__ _ x _) as [[[]|e] gr]; cbn [fst snd]; [|done].
  rewrite attribute_eq. cbn [__dict__ set_G set_dict with_graph].
  by rewrite lookup_insert_eq.
Qed.

(** X6. [add_input] stores the new placeholder in [input_node] before it
    registers it: when ['input:' + name] is already registered (the
    placeholder built, the key still there), it raises the [KeyError] of
    that name, the registry keeps the node it had, and yet [input_node] is
    now the new, unregistered placeholder. *)
Theorem add_input_taken name dt shp self x g l :
  tf_build (placeholder dt shp None) (Graph._graph (G self)) = (Ok x, g) →
  collections g !! ("input:" +:+ name) = Some l →
  ∃ self',
    add_input name dt (Some shp) self =
      (Raise (KeyError (quoted ("input:" +:+ name) +:+
                        " is already in the graph.")), self') ∧
    __dict__ self' !! "input_node" = Some x ∧
    colls self' !! ("input:" +:+ name) = Some l ∧
    Graph._graph (G self') = g.
Proof.
  intros Hx Hl. rewrite add_input_eq, Hx. cbn zeta.
  rewrite setitem_taken by (apply contains_true; cbn; eauto).
  cbn [fst snd]. eexists. split; [reflexivity|].
  cbn. by rewrite lookup_insert_eq.
Qed.

Lemma add_output_eq network num_outputs name dt self :
  add_output network num_outputs name dt self =
    match resolved_num_outputs num_outputs (_env self) with
    | None =>
        (Raise (match shape_ (action_space (_env self)) with
                | Some _ => Interp "IndexError"
                | None => Interp "AttributeError"
                end), self)
    | Some k =>
        match __dict__ self !! "input_node" with
        | None => (Raise (Interp "AttributeError"), self)
        | Some input_node =>
            match network input_node k (Graph._graph (G self)) with
            | (Raise e, g) => (Raise e, with_graph g self)
            | (Ok output_node, g) =>
                let r := Graph.__setitem__ ("output:" +:+ name) output_node
                           (G (with_graph g self)) in
                (match r.1 with
                 | Ok _ => Ok output_node
                 | Raise e => Raise e
                 end, set_G r.2 (with_graph g self))
            end
        end
    end.
Proof.
  unfold add_output. rewrite bind_eq.
  assert ((match num_outputs with
           | Some k => ret k
           | None => get_env_action_space_dimension
           end) self
          = (match resolved_num_outputs num_outputs (_env self) with
             | Some k => Ok k
             | None =>
                 match shape_ (action_space (_env self)) with
                 | Some _ => Raise (Interp "IndexError")
                 | None => Raise (Interp "AttributeError")
                 end
             end, self)) as ->.
  { destruct num_outputs; [done|]. apply get_env_action_space_dimension_eq. }
  destruct (resolved_num_outputs num_outputs (_env self)) as [k|].
  2:{ by destruct (shape_ (action_space (_env self))). }
  rewrite bind_eq, attribute_eq.
  destruct (__dict__ self !! "input_node") as [input_node|]; [|done].
  rewrite bind_eq. unfold on_G at 1, Graph.on_graph, zoom.
  destruct (network input_node k (Graph._graph (G self))) as [[out|e] g];
    [|done].
  fold (with_graph g self). rewrite bind_eq, G_set_eq.
  by destruct (Graph.__setitem__ _ out _) as [[[]|e] gr].
Qed.

(** X7. [add_output] applies the network to the placeholder of the latest
    [add_input]: after [add_input] has returned [x], which is then what
    ['input:' + name] looks up, [add_output] calls the network on [x]; it
    passes on an exception of the network, and returns only what the
    network returned. *)
Theorem add_output_uses_latest_input
    name dt shape self x self1 network k oname dt' :
  add_input name dt shape self = (Ok x, self1) →
  Graph.__getitem__ (Graph.Name ("input:" +:+ name)) (G self1) =
    (Ok (Graph.Node x), G self1) ∧
  (∀ e g, network x k (Graph._graph (G self1)) = (Raise e, g) →
          add_output network (Some k) oname dt' self1 =
            (Raise e, with_graph g self1)) ∧
  (∀ out self2,
     add_output network (Some k) oname dt' self1 = (Ok out, self2) →
     ∃ g, network x k (Graph._graph (G self1)) = (Ok out, g)).
Proof.
  rewrite add_input_eq.
  destruct (match shape with
            | Some shp => Ok shp
            | None => default_input_shape (_env self)
            end) as [shp|e]; [|done].
  destruct (tf_build (placeholder dt shp None) (Graph._graph (G self)))
    as [[x'|e] g]; [|done]. cbn zeta.
  destruct (Graph.__setitem__ ("input:" +:+ name) x' _) as [[[]|e] gr] eqn:E;
    cbn [fst snd]; [|done].
  intros [= -> <-]. apply setitem_ok_inv in E as (Hc & Hf & ->).
  assert (Hin : __dict__
                  (set_G (registered ("input:" +:+ name) x
                     (G (set_dict (<["input_node" := x]> (__dict__ self))
                           (with_graph g self))))
                     (set_dict (<["input_node" := x]> (__dict__ self))
                        (with_graph g self))) !! "input_node" = Some x)
    by (cbn; apply lookup_insert_eq).
  split; [|split].
  - rewrite getitem_Name. rewrite (getitem_str_present _ _ [x]); [done|].
    cbn. apply lookup_insert_eq.
  - intros e g' Hn. rewrite add_output_eq. cbn [resolved_num_outputs].
    rewrite Hin. by rewrite Hn.
  - intros out self2. rewrite add_output_eq. cbn [resolved_num_outputs].
    rewrite Hin.
    destruct (network x k _) as [[out'|e] g'] eqn:En; [|done]. cbn zeta.
    destruct (Graph.__setitem__ _ out' _).1; [|done].
    intros [= <- _]. by exists g'.
Qed.

(** X8. [add_output] fails before it touches the graph when it cannot find
    its arguments: with no [num_outputs] and an action space that has
    neither [n] nor a first dimension, it raises [IndexError] (empty shape)
    or [AttributeError] (no shape); with no [input_node] yet, it raises
    [AttributeError]; the network is not called and the model is
    unchanged. *)
Theorem add_output_fails_before_network network name dt self :
  (n (action_space (_env self)) = None →
   shape_ (action_space (_env self)) = Some [] →
   add_output network None name dt self = (Raise (Interp "IndexError"), self)) ∧
  (n (action_space (_env self)) = None →
   shape_ (action_space (_env self)) = None →
   add_output network None name dt self =
     (Raise (Interp "AttributeError"), self)) ∧
  (∀ k, __dict__ self !! "input_node" = None →
        add_output network (Some k) name dt self =
          (Raise (Interp "AttributeError"), self)).
Proof.
  split_and!.
  - intros Hn Hs. rewrite add_output_eq.
    unfold resolved_num_outputs, action_space_dimension. by rewrite Hn, Hs.
  - intros Hn Hs. rewrite add_output_eq.
    unfold resolved_num_outputs, action_space_dimension. by rewrite Hn, Hs.
  - intros k Hin. rewrite add_output_eq. cbn [resolved_num_outputs].
    by rewrite Hin.
Qed.

(** X9. The optimizer cannot be set before the loss: the setter then raises
    [AssertionError] without building a minimize op; the optimizer object
    is stored all the same, the optimizer op stays as it was, and [update]
    on a model so left, having no optimizer op, raises [AssertionError]
    too and changes nothing. *)
Theorem optimizer_before_loss opt self c args :
  _loss self = None →
  _optimizer_op self = None →
  ∃ self',
    optimizer_setter opt self = (Raise AssertionError, self') ∧
    _optimizer self' = Some opt ∧
    _optimizer_op self' = None ∧
    G self' = G self ∧
    update args (Model.Build self' c) =
      (Raise AssertionError, Model.Build self' c).
Proof.
  intros Hl Hop. exists (set_optimizer (Some opt) self).
  split; [|split; [|split; [|split]]]; try done.
  - unfold optimizer_setter. rewrite bind_eq. cbn [modify].
    rewrite bind_eq. cbn [get _loss set_optimizer]. by rewrite Hl.
  - unfold update. rewrite bind_eq. cbn [get self_ set_optimizer _optimizer_op].
    by rewrite Hop.
Qed.

End BuildMore.

(** ** What leaves the loss and the optimizer op alone *)

Section TrainingMore.
Context `{F : Framework}.
Import Model.

Implicit Types (self : state) (nd : node).

Lemma keeps_ret {A} (a : A) : keeps_training (ret a).
Proof. by intros self. Qed.

Lemma keeps_raise {A} e : keeps_training (raise (A := A) e).
Proof. by intros self. Qed.

Lemma keeps_bind {A B} (c : M state A) (k : A → M state B) :
  keeps_training c → (∀ a, keeps_training (k a)) → keeps_training (bind c k).
Proof.
  intros Hc Hk self. rewrite bind_eq. specialize (Hc self).
  destruct (c self) as [[a|e] s]; cbn in *; [|done].
  destruct (Hk a s) as [H1 H2]. destruct Hc as [H3 H4]. split; congruence.
Qed.

Lemma keeps_on_G {A} (c : M Graph.t A) : keeps_training (on_G c).
Proof. intros self. unfold on_G, zoom. by destruct (c (G self)). Qed.

Lemma keeps_setattr attr x : keeps_training (setattr attr x).
Proof. by intros self. Qed.

Lemma keeps_attribute attr : keeps_training (attribute attr).
Proof. intros self. by rewrite attribute_eq. Qed.

Lemma keeps_for_each {A} (l : list A) (body : A → M state unit) :
  (∀ x, keeps_training (body x)) → keeps_training (for_each l body).
Proof.
  intros Hb. induction l as [|x l IH]; [apply keeps_ret|].
  cbn [for_each]. apply keeps_bind; [apply Hb|]. by intros _.
Qed.

Lemma keeps_list_comp {A B} (f : A → M state B) (l : list A) :
  (∀ x, keeps_training (f x)) → keeps_training (list_comp f l).
Proof.
  intros Hf. induction l as [|x l IH]; [apply keeps_ret|].
  cbn [list_comp]. apply keeps_bind; [apply Hf|]. intros y.
  apply keeps_bind; [exact IH|]. intros ys. apply keeps_ret.
Qed.

Lemma keeps_add_input name dt shape : keeps_training (add_input name dt shape).
Proof.
  unfold add_input. apply keeps_bind.
  { destruct shape; [apply keeps_ret|]. apply keeps_bind; [by intros self|].
    intros e. apply keeps_bind.
    - destruct (shape_ (observation_space e)); [apply keeps_ret|apply keeps_raise].
    - intros [|d ds]; cbn [item0].
      + apply keeps_bind; [apply keeps_raise|]. intros ?. apply keeps_ret.
      + apply keeps_bind; [apply keeps_ret|]. intros ?. apply keeps_ret. }
  intros shp. apply keeps_bind; [apply keeps_on_G|]. intros x.
  apply keeps_bind; [apply keeps_setattr|]. intros _.
  apply keeps_bind; [apply keeps_on_G|]. intros _. apply keeps_attribute.
Qed.

Lemma keeps_add_output network num_outputs name dt :
  keeps_training (add_output network num_outputs name dt).
Proof.
  intros self. rewrite add_output_eq.
  destruct (resolved_num_outputs _ _); [|done].
  destruct (__dict__ self !! "input_node"); [|done].
  destruct (network _ _ _) as [[out|e] g]; [|done]. cbn zeta.
  by destruct (Graph.__setitem__ _ _ _) as [[[]|e] gr].
Qed.

Lemma keeps_create_weight_setter_ops : keeps_training create_weight_setter_ops.
Proof.
  unfold create_weight_setter_ops. apply keeps_bind; [by intros self|].
  intros ws. apply keeps_for_each. intros w.
  apply keeps_bind; [apply keeps_on_G|]. intros w_input.
  apply keeps_bind; [apply keeps_on_G|]. intros _.
  apply keeps_bind; [apply keeps_on_G|]. intros op. apply keeps_on_G.
Qed.

Lemma keeps_weights_setter weights : keeps_training (weights_setter weights).
Proof.
  unfold weights_setter. apply keeps_bind.
  { apply keeps_list_comp. intros nw.
    apply keeps_bind; [apply keeps_on_G|]. intros k. apply keeps_ret. }
  intros items. apply keeps_bind.
  { apply keeps_list_comp. intros nm. apply keeps_on_G. }
  intros ops. apply keeps_bind; [apply keeps_on_G|]. intros _. apply keeps_ret.
Qed.

(** X10. The loss and the optimizer op of a model change only through their
    setters: [add_input], [add_output], [add_output_node],
    [create_weight_setter_ops], the [weights] setter, [set_weights],
    [get_weights], [predict], [get_gradients] and [apply_gradient_ops]
    leave both as they were, whether they return or raise. *)
Theorem training_attributes_untouched :
  (∀ name dt shape, keeps_training (add_input name dt shape)) ∧
  (∀ network num_outputs name dt,
     keeps_training (add_output network num_outputs name dt)) ∧
  (∀ nd name, keeps_training (add_output_node nd name)) ∧
  keeps_training create_weight_setter_ops ∧
  (∀ weights, keeps_training (weights_setter weights)) ∧
  (∀ weights_, keeps_training (set_weights weights_)) ∧
  keeps_training get_weights ∧
  (∀ data_ output_name input_name,
     keeps_training (predict data_ output_name input_name)) ∧
  (∀ name feed, keeps_training (get_gradients name feed)) ∧
  (∀ name feed, keeps_training (apply_gradient_ops name feed)).
Proof.
  split_and!.
  - apply keeps_add_input.
  - apply keeps_add_output.
  - intros nd name. apply keeps_bind; [apply keeps_on_G|]. intros _.
    apply keeps_ret.
  - apply keeps_create_weight_setter_ops.
  - apply keeps_weights_setter.
  - intros weights_. apply keeps_bind; [by intros self|]. intros ws.
    apply keeps_weights_setter.
  - apply keeps_bind; [by intros self|]. intros ws. apply keeps_on_G.
  - intros data_ output_name input_name. apply keeps_bind; [apply keeps_on_G|].
    intros output. apply keeps_bind; [apply keeps_on_G|]. intros input.
    apply keeps_bind; [apply keeps_on_G|]. intros [a|c| |l]; by intros self.
  - intros name feed. apply keeps_bind; [apply keeps_on_G|]. intros fetch.
    apply keeps_on_G.
  - intros name feed. apply keeps_bind; [apply keeps_on_G|]. intros fetch.
    apply keeps_on_G.
Qed.

Lemma keeps_cem_build_graph network :
  keeps_training (model_factories.cem_build_graph network).
Proof.
  apply keeps_bind; [apply keeps_add_input|]. intros _.
  apply keeps_bind; [apply keeps_add_output|]. intros _. apply keeps_ret.
Qed.

(** X11. A model made by [cem_model_factory] has neither loss nor optimizer
    op, whatever the framework, the network and the environment: [update]
    on it raises [AssertionError] for every argument list, without calling
    the feed dict closure or the session, and leaves the model as it is. *)
Theorem cem_model_cannot_be_updated env network m :
  model_factories.cem_model_factory env network = Ok m →
  _loss (self_ m) = None ∧
  _optimizer_op (self_ m) = None ∧
  ∀ args, update args m = (Raise AssertionError, m).
Proof.
  unfold model_factories.cem_model_factory, Model.new. rewrite init_eq.
  cbn zeta.
  set (body := match model_factories.cem_build_graph network (entered env) with
               | (Ok _, self1) =>
                   match create_weight_setter_ops self1 with
                   | (Ok _, self2) =>
                       (Ok tt, Model.Build self2
                                 (Some model_factories.cem_build_update_feed_dict))
                   | (Raise e, self2) => (Raise e, Model.Build self2 None)
                   end
               | (Raise e, self1) => (Raise e, Model.Build self1 None)
               end).
  assert (Hbody : _loss (self_ body.2) = None ∧
                  _optimizer_op (self_ body.2) = None).
  { subst body.
    destruct (keeps_cem_build_graph network (entered env)) as [H1 H2].
    destruct (model_factories.cem_build_graph network (entered env))
      as [[[]|e] self1]; cbn [fst snd] in *; [|by split].
    destruct (keeps_create_weight_setter_ops self1) as [H3 H4].
    destruct (create_weight_setter_ops self1) as [[[]|e] self2];
      cbn [fst snd self_] in *; (split; [by rewrite H3, H1|by rewrite H4, H2]). }
  destruct Hbody as [Hl Hop].
  destruct (match (Graph.__exit__ (G (self_ body.2))).1 with
            | Ok _ => body.1
            | Raise e => Raise e
            end) as [[]|e]; [|done].
  intros [= <-]. cbn [self_ _loss _optimizer_op set_G].
  split; [exact Hl|]. split; [exact Hop|].
  intros args. unfold update. rewrite bind_eq.
  cbn [get self_ _optimizer_op set_G]. by rewrite Hop.
Qed.

End TrainingMore.

(** ** Feed dicts of the factories *)

Section FeedMore.
Context `{F : Framework}.
Import Model.

Implicit Types (self : state) (nd : node).

Lemma dict_of_three {V} (k1 k2 k3 : node) (v1 v2 v3 : V) :
  NoDup [k1; k2; k3] →
  dict_of [(k1, v1); (k2, v2); (k3, v3)] = [(k1, v1); (k2, v2); (k3, v3)].
Proof. intros H. by apply dict_of_NoDup. Qed.

Lemma dict_of_two {V} (k1 k2 : node) (v1 v2 : V) :
  NoDup [k1; k2] → dict_of [(k1, v1); (k2, v2)] = [(k1, v1); (k2, v2)].
Proof. intros H. by apply dict_of_NoDup. Qed.

(** X12. The feed dict closure of the policy gradient model takes exactly
    a state, a return and an action: with any other number of arguments it
    raises [TypeError]; with three, and the placeholders [state], [Return]
    and [action] of the model distinct, the feed dict gives the state as a
    batch of one row to [state], the one-element lists of the return and
    of the action to [Return] and [action]; a placeholder that was never
    set gives [AttributeError].  The closure never changes the model. *)
Theorem policy_gradient_feed_dict args self :
  (length args ≠ 3%nat →
   model_factories.build_update_feed_dict args self =
     (Raise (Interp "TypeError"), self)) ∧
  (∀ state_ return_ action_ st rt ac,
     args = [state_; return_; action_] →
     __dict__ self !! "state" = Some st →
     __dict__ self !! "Return" = Some rt →
     __dict__ self !! "action" = Some ac →
     NoDup [st; rt; ac] →
     model_factories.build_update_feed_dict args self =
       (Ok [(st, VArray (expand_dims0 (model_factories.asarray state_)));
            (rt, VList [return_]); (ac, VList [action_])], self)) ∧
  (∀ arr, model_factories.asarray (VArray arr) = arr ∧
          shape (expand_dims0 arr) = 1%nat :: shape arr ∧
          data (expand_dims0 arr) = data arr) ∧
  (length args = 3%nat →
   (__dict__ self !! "state" = None ∨ __dict__ self !! "Return" = None ∨
    __dict__ self !! "action" = None) →
   model_factories.build_update_feed_dict args self =
     (Raise (Interp "AttributeError"), self)) ∧
  (model_factories.build_update_feed_dict args self).2 = self.
Proof.
  unfold model_factories.build_update_feed_dict.
  split_and!.
  - intros Hlen. by destruct args as [|? [|? [|? [|? ?]]]].
  - intros state_ return_ action_ st rt ac -> Hs Hr Ha Hnd.
    rewrite bind_eq, attribute_eq, Hs, bind_eq, attribute_eq, Hr,
      bind_eq, attribute_eq, Ha. cbn [ret].
    by rewrite dict_of_three.
  - done.
  - intros Hlen Hmiss. destruct args as [|s [|r [|a [|? ?]]]]; try done.
    rewrite bind_eq, attribute_eq.
    destruct (__dict__ self !! "state"); [|done].
    rewrite bind_eq, attribute_eq.
    destruct (__dict__ self !! "Return"); [|done].
    rewrite bind_eq, attribute_eq.
    destruct (__dict__ self !! "action"); [|done].
    by destruct Hmiss as [?|[?|?]].
  - destruct args as [|s [|r [|a [|? ?]]]]; try done.
    rewrite bind_eq, attribute_eq.
    destruct (__dict__ self !! "state"); [|done].
    rewrite bind_eq, attribute_eq.
    destruct (__dict__ self !! "Return"); [|done].
    rewrite bind_eq, attribute_eq.
    by destruct (__dict__ self !! "action").
Qed.

(** X13. The feed dict closure of the value function model takes exactly a
    state and a target value: otherwise [TypeError]; with the placeholders
    [state] and [target_value] distinct, the feed dict gives the state as a
    batch of one row to [state] and the one-element list of the target to
    [target_value]; the closure of [cem_model_factory] takes no argument
    and gives the empty feed.  Neither changes the model. *)
Theorem value_function_feed_dict args self :
  (length args ≠ 2%nat →
   model_factories.value_function_build_update_feed_dict args self =
     (Raise (Interp "TypeError"), self)) ∧
  (∀ state_ target_value st tv,
     args = [state_; target_value] →
     __dict__ self !! "state" = Some st →
     __dict__ self !! "target_value" = Some tv →
     st ≠ tv →
     model_factories.value_function_build_update_feed_dict args self =
       (Ok [(st, VArray (expand_dims0 (model_factories.asarray state_)));
            (tv, VList [target_value])], self)) ∧
  (model_factories.value_function_build_update_feed_dict args self).2 = self ∧
  model_factories.cem_build_update_feed_dict args self =
    (match args with
     | [] => Ok []
     | _ => Raise (Interp "TypeError")
     end, self).
Proof.
  unfold model_factories.value_function_build_update_feed_dict,
    model_factories.cem_build_update_feed_dict.
  split_and!.
  - intros Hlen. by destruct args as [|? [|? [|? ?]]].
  - intros state_ target_value st tv -> Hs Ht Hne.
    rewrite bind_eq, attribute_eq, Hs, bind_eq, attribute_eq, Ht. cbn [ret].
    rewrite dict_of_two; [done|].
    apply NoDup_cons. split; [by intros ?%list_elem_of_singleton|].
    apply NoDup_singleton.
  - destruct args as [|s [|t [|? ?]]]; try done.
    rewrite bind_eq, attribute_eq.
    destruct (__dict__ self !! "state"); [|done].
    rewrite bind_eq, attribute_eq.
    by destruct (__dict__ self !! "target_value").
  - by destruct args.
Qed.

End FeedMore.

(** ** Setting weights *)

Section WeightsMore.
Context `{F : Framework}.
Import Model.

Implicit Types (self : state) (nd : node).

Lemma list_comp_all_ok {S A B} (f : A → M S B) (s : S) l ys :
  Forall (reads f s) l →
  Forall2 (λ x y, (f x s).1 = Ok y) l ys →
  list_comp f l s = (Ok ys, s).
Proof.
  intros Hr Hys. pose proof (list_comp_reads f s l Hr) as H2.
  apply (list_comp_ok f s l ys Hr) in Hys.
  destruct (list_comp f l s) as [r s']. cbn in *. by subst.
Qed.

Lemma list_comp_first_raise {S A B} (f : A → M S B) (s : S) pre x post e :
  Forall (reads f s) pre →
  Forall (λ z, ∃ y, (f z s).1 = Ok y) pre →
  f x s = (Raise e, s) →
  list_comp f (pre ++ x :: post) s = (Raise e, s).
Proof.
  intros Hr Hok Hx. induction pre as [|z pre IH]; cbn [app].
  - rewrite list_comp_cons by (unfold reads; by rewrite Hx). by rewrite Hx.
  - apply Forall_cons in Hr as [Hz Hr]. apply Forall_cons in Hok as [[y Hy] Hok].
    rewrite list_comp_cons by done. rewrite Hy, IH by done. done.
Qed.

Lemma G_get_reads key self : reads (λ k, G_get k) self key.
Proof. unfold reads. by rewrite G_get_eq. Qed.

(** X14. The [weights] setter checks every name of its mapping before it
    runs anything: if the names before [nm] have their placeholder
    registered and [nm] has none under ['weight_input_var:' + nm], it
    raises the [KeyError] of that key; if all have a placeholder but [nm]
    is the first without an op under ['set_weight_op:' + nm], the
    [KeyError] of that key.  In both cases no session run is made and the
    model is unchanged. *)
Theorem weights_setter_missing_key pre nm v post self :
  (Forall (λ nw, ∃ k, (Graph.getitem_str ("weight_input_var:" +:+ nw.1)
                         (G self)).1 = Ok k) pre →
   Graph.__contains__ ("weight_input_var:" +:+ nm) (G self) = false →
   weights_setter (pre ++ (nm, v) :: post) self =
     (Raise (KeyError (quoted ("weight_input_var:" +:+ nm) +:+
                       " does not exist in the graph.")), self)) ∧
  (Forall (λ nw, ∃ k, (Graph.getitem_str ("weight_input_var:" +:+ nw.1)
                         (G self)).1 = Ok k) (pre ++ (nm, v) :: post) →
   Forall (λ nw, ∃ op, (Graph.getitem_str ("set_weight_op:" +:+ nw.1)
                          (G self)).1 = Ok op) pre →
   Graph.__contains__ ("set_weight_op:" +:+ nm) (G self) = false →
   weights_setter (pre ++ (nm, v) :: post) self =
     (Raise (KeyError (quoted ("set_weight_op:" +:+ nm) +:+
                       " does not exist in the graph.")), self)).
Proof.
  assert (Hr1 : ∀ l, Forall (reads feed_item self) l).
  { intros l. apply Forall_forall. intros nw _. unfold reads.
    by rewrite feed_item_eq. }
  assert (Hr2 : ∀ l : list string,
            Forall (reads (λ nm, G_get ("set_weight_op:" +:+ nm)) self) l).
  { intros l. apply Forall_forall. intros k _. unfold reads.
    by rewrite G_get_eq. }
  split.
  - intros Hpre Hc. unfold weights_setter. rewrite bind_eq. fold feed_item.
    rewrite (list_comp_first_raise feed_item self pre (nm, v) post
               (KeyError (quoted ("weight_input_var:" +:+ nm) +:+
                          " does not exist in the graph."))); [done|done| |].
    + eapply Forall_impl; [exact Hpre|]. intros nw [k Hk]. exists (k, nw.2).
      rewrite feed_item_eq. cbn [fst]. by rewrite Hk.
    + rewrite feed_item_eq. cbn [fst]. by rewrite getitem_str_missing.
  - intros Hall Hpre Hc. unfold weights_setter. rewrite bind_eq.
    fold feed_item.
    assert (∃ items, list_comp feed_item (pre ++ (nm, v) :: post) self
                     = (Ok items, self)) as [items ->].
    { clear Hpre Hc. induction Hall as [|nw l [k Hk] _ [items IH]].
      - by exists [].
      - exists ((k, nw.2) :: items).
        rewrite list_comp_cons by (unfold reads; by rewrite feed_item_eq).
        rewrite feed_item_eq. cbn [fst]. by rewrite Hk, IH. }
    rewrite bind_eq, fmap_app. cbn [fmap list_fmap fst].
    rewrite (list_comp_first_raise (λ nm, G_get ("set_weight_op:" +:+ nm)) self
               pre.*1 nm post.*1
               (KeyError (quoted ("set_weight_op:" +:+ nm) +:+
                          " does not exist in the graph."))); [done|apply Hr2| |].
    + apply Forall_fmap. eapply Forall_impl; [exact Hpre|].
      intros nw [op Hop]. exists op. cbn. by rewrite G_get_eq.
    + by rewrite G_get_eq, getitem_str_missing.
Qed.

(** X15. [set_weights] pairs the trainable variables with the values in
    order and stops at the shorter of the two: values beyond the number of
    variables are ignored and, with fewer values, only the first variables
    are set; a length mismatch is not an error of its own. *)
Theorem set_weights_length_mismatch weights_ self :
  let ws := Graph.TRAINABLE_VARIABLES (G self) in
  set_weights weights_ self = set_weights (take (length ws) weights_) self ∧
  set_weights weights_ self =
    weights_setter
      (dict_of (zip (name_of <$> take (length weights_) ws) weights_)) self ∧
  (weights_ = [] → set_weights weights_ self = weights_setter [] self).
Proof.
  intros ws. unfold set_weights. rewrite !bind_eq. cbn [weights gets].
  fold ws. split_and!.
  - f_equal. f_equal. rewrite <- (length_fmap name_of ws).
    by rewrite zip_with_take_r.
  - f_equal. f_equal. rewrite fmap_take. by rewrite zip_with_take_l.
  - intros ->. f_equal. by rewrite zip_with_nil_r.
Qed.

(** X16. [set_weights] after [create_weight_setter_ops]: in a model where
    the names of the trainable variables are distinct and each variable has
    its placeholder and its assign op registered, [set_weights] with one
    value per variable makes exactly one session run, of the assign ops in
    the order of the variables, with the feed dict that gives the values in
    that order to the placeholders, and passes on an exception of the
    run. *)
Theorem set_weights_runs_the_setters weights_ self
    (setters : list (node * node)) :
  let ws := Graph.TRAINABLE_VARIABLES (G self) in
  NoDup (name_of <$> ws) →
  length weights_ = length ws →
  Forall2 (λ w io,
     (Graph.getitem_str ("weight_input_var:" +:+ name_of w) (G self)).1
       = Ok io.1 ∧
     (Graph.getitem_str ("set_weight_op:" +:+ name_of w) (G self)).1
       = Ok io.2) ws setters →
  let feed := dict_of (zip setters.*1 weights_) in
  let ops := Some <$> setters.*2 in
  let run := session_run_list ops feed (Graph._graph (G self)) in
  set_weights weights_ self =
    (match run.1 with
     | Ok _ => Ok tt
     | Raise e => Raise e
     end,
     after_run (FetchList ops) feed run.2 self).
Proof.
  intros ws Hnd Hlen Hset feed ops run.
  unfold set_weights. rewrite bind_eq. cbn [weights gets]. fold ws.
  rewrite dict_of_NoDup.
  2:{ rewrite fst_zip; [done|]. rewrite length_fmap. lia. }
  unfold weights_setter. rewrite bind_eq. fold feed_item.
  assert (Hitems : list_comp feed_item (zip (name_of <$> ws) weights_) self
                   = (Ok (zip setters.*1 weights_), self)).
  { apply list_comp_all_ok.
    { apply Forall_forall. intros nw _. unfold reads. by rewrite feed_item_eq. }
    clear Hnd feed ops run. revert weights_ Hlen.
    induction Hset as [|w io ws' setters' [Hin _] _ IH]; intros vals Hlen.
    - destruct vals; [constructor|done].
    - destruct vals as [|v vals]; [done|]. cbn. constructor.
      + rewrite feed_item_eq. cbn [fst snd]. by rewrite Hin.
      + apply IH. cbn in Hlen. lia. }
  rewrite Hitems, bind_eq.
  assert (Hops : list_comp (λ nm, G_get ("set_weight_op:" +:+ nm))
                   (zip (name_of <$> ws) weights_).*1 self
                 = (Ok setters.*2, self)).
  { rewrite fst_zip by (rewrite length_fmap; lia).
    apply list_comp_all_ok.
    { apply Forall_forall. intros k _. unfold reads. by rewrite G_get_eq. }
    clear Hitems Hnd Hlen feed ops run.
    induction Hset as [|w io ws' setters' [_ Hop] _ IH]; [constructor|].
    cbn. constructor; [|exact IH]. by rewrite G_get_eq. }
  rewrite Hops, bind_eq, call_list_eq. fold feed ops run.
  by destruct run.1.
Qed.

End WeightsMore.

(** ** Leaving the context when initialization fails *)

Section ExitMore.
Context `{F : Framework}.
Import Model.

Implicit Types (self : state) (gr : Graph.t) (nd : node).

(** X17. [Graph.__exit__] finalizes the graph and leaves its context only
    after the initializer has run: when building the initializer or running
    it raises, [__exit__] raises that exception and the framework state is
    the one the failing call left, neither finalized nor taken off the
    default position by the wrapper.  In [Model.__init__] this exception
    replaces the one [build_graph] may have raised. *)
Theorem exit_failure_leaves_graph_open gr :
  (∀ e g,
     tf_build (variables_initializer (Graph.GLOBAL_VARIABLES gr))
       (Graph._graph gr) = (Raise e, g) →
     Graph.__exit__ gr =
       (Raise e, Graph.Build g (Graph._context gr) (Graph.runs gr))) ∧
  (∀ init g e g',
     tf_build (variables_initializer (Graph.GLOBAL_VARIABLES gr))
       (Graph._graph gr) = (Ok init, g) →
     session_run init [] g = (Raise e, g') →
     Graph.__exit__ gr =
       (Raise e, Graph.Build g' (Graph._context gr)
                   (Graph.runs gr ++ [(FetchOne init, [])]))) ∧
  (∀ env build_graph buf e0 self1 init g e g',
     build_graph (entered env) = (Raise e0, self1) →
     G self1 = gr →
     tf_build (variables_initializer (Graph.GLOBAL_VARIABLES gr))
       (Graph._graph gr) = (Ok init, g) →
     session_run init [] g = (Raise e, g') →
     Model.new env build_graph buf = Raise e).
Proof.
  split_and!.
  - intros e g H. by rewrite exit_eq, H.
  - intros init g e g' H1 H2. by rewrite exit_eq, H1, H2.
  - intros env build_graph buf e0 self1 init g e g' Hb <- H1 H2.
    unfold Model.new. rewrite init_eq, Hb. cbn [fst snd self_].
    by rewrite exit_eq, H1, H2.
Qed.

End ExitMore.

(** ** What the value function and the CEM factories build *)

Section ValueFunctionMore.
Context `{F : Framework}.
Import Model.

Implicit Types (self : state) (nd : node).

Lemma only_graph_ret {A} (a : A) : only_graph (ret a).
Proof. intros self. cbn. by rewrite set_G_same. Qed.

Lemma only_graph_on_G {A} (c : M Graph.t A) : only_graph (on_G c).
Proof. intros self. unfold on_G, zoom. by destruct (c (G self)). Qed.

Lemma only_graph_bind {A B} (c : M state A) (k : A → M state B) :
  only_graph c → (∀ a, only_graph (k a)) → only_graph (bind c k).
Proof.
  intros Hc Hk self. rewrite bind_eq. specialize (Hc self).
  destruct (c self) as [[a|e] s]; cbn [snd] in *; [|done].
  rewrite (Hk a s). rewrite Hc at 2. by destruct self.
Qed.

Lemma only_graph_for_each {A} (l : list A) (body : A → M state unit) :
  (∀ x, only_graph (body x)) → only_graph (for_each l body).
Proof.
  intros Hb. induction l as [|x l IH]; [apply only_graph_ret|].
  cbn [for_each]. apply only_graph_bind; [apply Hb|]. by intros _.
Qed.

Lemma only_graph_create_weight_setter_ops : only_graph create_weight_setter_ops.
Proof.
  unfold create_weight_setter_ops. apply only_graph_bind.
  { intros self. cbn. by rewrite set_G_same. }
  intros ws. apply only_graph_for_each. intros w.
  apply only_graph_bind; [apply only_graph_on_G|]. intros w_input.
  apply only_graph_bind; [apply only_graph_on_G|]. intros _.
  apply only_graph_bind; [apply only_graph_on_G|]. intros op.
  apply only_graph_on_G.
Qed.

Lemma add_input_ok_inv name dt shape self x self1 :
  add_input name dt shape self = (Ok x, self1) →
  ∃ shp g,
    match shape with
    | Some shp => Ok shp
    | None => default_input_shape (_env self)
    end = Ok shp ∧
    tf_build (placeholder dt shp None) (Graph._graph (G self)) = (Ok x, g) ∧
    self1 =
      set_G (registered ("input:" +:+ name) x (G (with_graph g self)))
        (set_dict (<["input_node" := x]> (__dict__ self)) self).
Proof.
  rewrite add_input_eq.
  destruct (match shape with
            | Some shp => Ok shp
            | None => default_input_shape (_env self)
            end) as [shp|e]; [|done].
  destruct (tf_build (placeholder dt shp None) (Graph._graph (G self)))
    as [[x'|e] g] eqn:E; [|done]. cbn zeta.
  destruct (Graph.__setitem__ _ x' _) as [[[]|e] gr] eqn:Hs;
    cbn [fst snd]; [|done].
  apply setitem_ok_inv in Hs as (_ & _ & ->).
  intros [= -> <-]. exists shp, g. split_and!; [done..|].
  by destruct self.
Qed.

Lemma add_output_ok_inv network num_outputs name dt self out self1 :
  add_output network num_outputs name dt self = (Ok out, self1) →
  ∃ k i g,
    resolved_num_outputs num_outputs (_env self) = Some k ∧
    __dict__ self !! "input_node" = Some i ∧
    network i k (Graph._graph (G self)) = (Ok out, g) ∧
    self1 =
      set_G (registered ("output:" +:+ name) out (G (with_graph g self))) self.
Proof.
  rewrite add_output_eq.
  destruct (resolved_num_outputs num_outputs (_env self)) as [k|]; [|done].
  destruct (__dict__ self !! "input_node") as [i|]; [|done].
  destruct (network i k (Graph._graph (G self))) as [[out'|e] g] eqn:E;
    [|done]. cbn zeta.
  destruct (Graph.__setitem__ _ out' _) as [[[]|e] gr] eqn:Hs;
    cbn [fst snd]; [|done].
  apply setitem_ok_inv in Hs as (_ & _ & ->).
  intros [= -> <-]. exists k, i, g. split_and!; [done..|].
  by destruct self.
Qed.

(** X18. A model made by [value_function_model_factory] has one output
    whatever the action space of the environment.  The calls that built it
    were, in this order and each from the state the previous one left: the
    input placeholder of the default shape, registered under [input:]; the
    network with no activation and [num_outputs = 1] on that placeholder,
    registered under [output:]; the [target_value] placeholder; the squared
    difference of the output and the target; the Adam minimization of it.
    The input placeholder is also the [state] attribute, the squared
    difference the loss, the minimization the optimizer op, and the closure
    stored is the one of the factory. *)
Theorem value_function_model_shape
    (squared_difference : node → node → M tf node) env network
    learning_rate m :
  model_factories.value_function_model_factory squared_difference env network
    learning_rate = Ok m →
  ∃ x shp out tv l op g1 g3 g5 g7 g9,
    default_input_shape env = Ok shp ∧
    tf_build (placeholder float32 shp None) (Graph._graph (G (entered env)))
      = (Ok x, g1) ∧
    network no_activation x 1 (tf_registered "input:" x g1) = (Ok out, g3) ∧
    tf_build (placeholder float32 [None] (Some "target_value"))
      (tf_registered "output:" out g3) = (Ok tv, g5) ∧
    squared_difference out tv g5 = (Ok l, g7) ∧
    tf_build (minimize (AdamOptimizer learning_rate) l) g7 = (Ok op, g9) ∧
    __dict__ (self_ m) !! "input_node" = Some x ∧
    __dict__ (self_ m) !! "state" = Some x ∧
    __dict__ (self_ m) !! "target_value" = Some tv ∧
    _loss (self_ m) = Some l ∧
    _optimizer_op (self_ m) = Some op ∧
    Model.build_update_feed_dict m =
      Some model_factories.value_function_build_update_feed_dict.
Proof.
  unfold model_factories.value_function_model_factory, Model.new.
  rewrite init_eq. cbn zeta.
  destruct (model_factories.value_function_build_graph squared_difference
              learning_rate network (entered env)) as [[[]|e] self1] eqn:Hb.
  2:{ cbn [fst snd self_]. by destruct (Graph.__exit__ _).1. }
  pose proof (only_graph_create_weight_setter_ops self1) as Hc.
  destruct (create_weight_setter_ops self1) as [[[]|e] self2];
    cbn [fst snd self_ Model.build_update_feed_dict] in *.
  2:{ by destruct (Graph.__exit__ _).1. }
  destruct (Graph.__exit__ (G self2)) as [[[]|e] gr]; cbn [fst snd]; [|done].
  intros [= <-]. cbn [self_ Model.build_update_feed_dict].
  rewrite Hc. clear Hc.
  unfold model_factories.value_function_build_graph in Hb.
  rewrite bind_eq in Hb.
  destruct (add_input "" float32 None (entered env)) as [[x|e] s1] eqn:E1;
    [|done].
  apply add_input_ok_inv in E1 as (shp & g1 & Hshp & Hx & ->).
  rewrite bind_eq in Hb.
  destruct (add_output _ _ _ _ _) as [[out|e] s2] eqn:E2; [|done].
  apply add_output_ok_inv in E2 as (k & i & g3 & Hk & Hi & Hnet & ->).
  cbn [resolved_num_outputs] in Hk. injection Hk as <-.
  cbn [__dict__ set_G set_dict] in Hi. rewrite lookup_insert_eq in Hi.
  injection Hi as <-.
  rewrite bind_eq in Hb. cbn [setattr modify] in Hb.
  rewrite bind_eq, tf_eq in Hb.
  destruct (tf_build (placeholder float32 [None] (Some "target_value")) _)
    as [[tv|e] g5] eqn:Htv; [|done]. cbn [fst snd] in Hb.
  rewrite bind_eq in Hb. cbn [setattr modify] in Hb.
  rewrite bind_eq, attribute_eq in Hb.
  cbn [__dict__ set_G set_dict with_graph] in Hb.
  rewrite lookup_insert_eq in Hb.
  rewrite bind_eq in Hb. unfold on_G at 1, Graph.on_graph, zoom in Hb.
  destruct (squared_difference out tv _) as [[l|e] g7] eqn:Hl; [|done].
  rewrite bind_eq in Hb. cbn [loss_setter modify] in Hb.
  unfold optimizer_setter in Hb. rewrite bind_eq in Hb. cbn [modify] in Hb.
  rewrite bind_eq in Hb. cbn [get _loss set_optimizer set_loss] in Hb.
  rewrite bind_eq, tf_eq in Hb.
  destruct (tf_build (minimize (AdamOptimizer learning_rate) l) _)
    as [[op|e] g9] eqn:Hop; [|done]. cbn [fst snd modify] in Hb.
  injection Hb as <-.
  exists x, shp, out, tv, l, op, g1, g3, g5, g7, g9.
  split; [exact Hshp|]. split; [exact Hx|]. split; [exact Hnet|].
  split; [exact Htv|]. split; [exact Hl|]. split; [exact Hop|].
  cbn [__dict__ _loss _optimizer_op set_G set_dict set_optimizer_op
       with_graph].
  by split_and!.
Qed.

(** X19. A model made by [cem_model_factory] is the softmax policy of the
    environment: the input placeholder of the default shape, registered
    under [input:], then the network with softmax activation and as many
    outputs as the action space has actions ([n], or else the first
    dimension of its shape) applied to that placeholder from the state the
    registration left; the closure stored is the one of the factory. *)
Theorem cem_model_shape env network m :
  model_factories.cem_model_factory env network = Ok m →
  ∃ x shp k out g1 g3,
    default_input_shape env = Ok shp ∧
    tf_build (placeholder float32 shp None) (Graph._graph (G (entered env)))
      = (Ok x, g1) ∧
    resolved_num_outputs None env = Some k ∧
    network softmax x k (tf_registered "input:" x g1) = (Ok out, g3) ∧
    __dict__ (self_ m) !! "input_node" = Some x ∧
    Model.build_update_feed_dict m =
      Some model_factories.cem_build_update_feed_dict.
Proof.
  unfold model_factories.cem_model_factory, Model.new.
  rewrite init_eq. cbn zeta.
  destruct (model_factories.cem_build_graph network (entered env))
    as [[[]|e] self1] eqn:Hb.
  2:{ cbn [fst snd self_]. by destruct (Graph.__exit__ _).1. }
  pose proof (only_graph_create_weight_setter_ops self1) as Hc.
  destruct (create_weight_setter_ops self1) as [[[]|e] self2];
    cbn [fst snd self_ Model.build_update_feed_dict] in *.
  2:{ by destruct (Graph.__exit__ _).1. }
  destruct (Graph.__exit__ (G self2)) as [[[]|e] gr]; cbn [fst snd]; [|done].
  intros [= <-]. cbn [self_ Model.build_update_feed_dict].
  rewrite Hc. clear Hc.
  unfold model_factories.cem_build_graph in Hb.
  rewrite bind_eq in Hb.
  destruct (add_input "" float32 None (entered env)) as [[x|e] s1] eqn:E1;
    [|done].
  apply add_input_ok_inv in E1 as (shp & g1 & Hshp & Hx & ->).
  rewrite bind_eq in Hb.
  destruct (add_output _ _ _ _ _) as [[out|e] s2] eqn:E2; [|done].
  apply add_output_ok_inv in E2 as (k & i & g3 & Hk & Hi & Hnet & ->).
  cbn [__dict__ set_G set_dict] in Hi. rewrite lookup_insert_eq in Hi.
  injection Hi as <-. injection Hb as <-.
  exists x, shp, k, out, g1, g3.
  split; [exact Hshp|]. split; [exact Hx|]. split; [exact Hk|].
  split; [exact Hnet|].
  cbn [__dict__ set_G set_dict with_graph]. split; [|done].
  apply lookup_insert_eq.
Qed.

End ValueFunctionMore.

(** ** The further properties at work on the small framework *)

Lemma ok_of_is_Ok {A} (r : result A) (d : A) :
  is_Ok r = true → r = Ok (match r with Ok a => a | Raise _ => d end).
Proof. by destruct r. Qed.

(** X1 at work: the policy gradient model, finalized by its constructor. *)
Lemma registry_frozen_once_finalized_witness :
  finalized (Graph._graph (Model.G (Model.self_ toy.discrete_model))) = true ∧
  (Graph.__setitem__ (F := toy.framework) "output:" 7%nat
     (Model.G (Model.self_ toy.discrete_model))).1 =
    Raise (KeyError (quoted "output:" +:+ " is already in the graph.")) ∧
  (Model.add_output_node (F := toy.framework) 7%nat "value"
     (Model.self_ toy.discrete_model)).1 =
    Raise (Foreign "RuntimeError" "Graph is finalized and cannot be modified.").
Proof.
  assert (Hf : finalized (Graph._graph (F := toy.framework)
                 (Model.G (Model.self_ toy.discrete_model))) = true)
    by (vm_compute; reflexivity).
  destruct (registry_frozen_once_finalized (F := toy.framework) "output:"
              "value" 7%nat (Model.self_ toy.discrete_model) Hf) as [H1 H2].
  split; [exact Hf|]. split.
  - rewrite H1. cbn [fst]. vm_compute. reflexivity.
  - rewrite H2. cbn [fst]. vm_compute. reflexivity.
Defined.

(** X4 at work: one observation of the discrete environment. *)
Lemma predict_single_is_batch_of_one_witness :
  ndim (NdArray [4%nat] [1; 2; 3; 4]) = 1%nat ∧
  Model.predict (F := toy.framework) (NdArray [4%nat] [1; 2; 3; 4])
    "output:" "input:" (Model.self_ toy.discrete_model) =
  Model.predict (F := toy.framework)
    (expand_dims0 (NdArray [4%nat] [1; 2; 3; 4]))
    "output:" "input:" (Model.self_ toy.discrete_model).
Proof.
  split; [reflexivity|].
  apply (predict_single_is_batch_of_one (F := toy.framework)). reflexivity.
Defined.

(** X6 at work: a second input of the same name. *)
Lemma add_input_taken_witness :
  ∃ self',
    (Model.add_input (F := toy.framework) "" float32 (Some [None; Some 4])
       toy.with_input).1 =
      Raise (KeyError (quoted "input:" +:+ " is already in the graph.")) ∧
    Model.__dict__ toy.with_input !! "input_node" = Some 0%nat ∧
    Model.__dict__ self' !! "input_node" = Some 1%nat ∧
    colls (F := toy.framework) self' !! "input:" = Some [0%nat].
Proof.
  destruct (add_input_taken (F := toy.framework) "" float32 [None; Some 4]
              toy.with_input 1%nat
              (toy.build (placeholder float32 [None; Some 4] None)
                 (Graph._graph (Model.G toy.with_input))).2 [0%nat])
    as (self' & H1 & H2 & H3 & _).
  - apply pair_of_fst. vm_compute. reflexivity.
  - vm_compute. reflexivity.
  - exists self'. split; [by rewrite H1|]. split; [vm_compute; reflexivity|].
    split; [exact H2|exact H3].
Defined.

(** X7 at work: the softmax layer on the input of the discrete
    environment. *)
Lemma add_output_uses_latest_input_witness :
  Graph.__getitem__ (F := toy.framework) (Graph.Name "input:")
    (Model.G toy.with_input) =
    (Ok (Graph.Node (F := toy.framework) 0%nat), Model.G toy.with_input) ∧
  ∃ g, toy.network softmax 0%nat 2 (Graph._graph (Model.G toy.with_input))
       = (Ok 3%nat, g).
Proof.
  destruct (add_output_uses_latest_input (F := toy.framework) "" float32 None
              (Model.BuildState toy.discrete_env
                 (Graph.Build (F := toy.framework)
                    (TfState ∅ false true 0%nat) true [])
                 None None None ∅)
              0%nat toy.with_input (toy.network softmax) 2 "" float32)
    as (H1 & _ & H3).
  - apply pair_of_fst. vm_compute. reflexivity.
  - split; [exact H1|].
    apply (H3 3%nat
             (Model.add_output (F := toy.framework) (toy.network softmax)
                (Some 2) "" float32 toy.with_input).2).
    apply pair_of_fst. vm_compute. reflexivity.
Defined.

(** X9 at work: an optimizer for a model that has an output and no loss. *)
Lemma optimizer_before_loss_witness :
  ∃ self',
    Model.optimizer_setter (F := toy.framework) (AdamOptimizer (1 # 100))
      toy.with_output = (Raise AssertionError, self') ∧
    Model._optimizer self' = Some (AdamOptimizer (1 # 100)) ∧
    Model._optimizer_op self' = None ∧
    Model.G self' = Model.G toy.with_output ∧
    Model.update (F := toy.framework) toy.update_args (Model.Build self' None)
      = (Raise AssertionError, Model.Build self' None).
Proof.
  apply (optimizer_before_loss (F := toy.framework)); vm_compute; reflexivity.
Defined.

(** X11 at work: the CEM model of the discrete environment. *)
Lemma cem_model_cannot_be_updated_witness :
  is_Ok (model_factories.cem_model_factory (F := toy.framework)
           toy.discrete_env toy.network) = true ∧
  Model.update (F := toy.framework) toy.update_args toy.cem_model =
    (Raise AssertionError, toy.cem_model).
Proof.
  assert (Hok : is_Ok (model_factories.cem_model_factory (F := toy.framework)
                         toy.discrete_env toy.network) = true)
    by (vm_compute; reflexivity).
  split; [exact Hok|].
  destruct (cem_model_cannot_be_updated (F := toy.framework) toy.discrete_env
              toy.network toy.cem_model) as (_ & _ & H).
  - exact (ok_of_is_Ok _ (Model.blank toy.discrete_env) Hok).
  - apply H.
Defined.

(** X16 at work: new weights for the two variables of the policy gradient
    model. *)
Lemma set_weights_runs_the_setters_witness :
  Graph.TRAINABLE_VARIABLES (F := toy.framework)
    (Model.G (Model.self_ toy.discrete_model)) = [2%nat; 3%nat] ∧
  (Model.set_weights (F := toy.framework) [VScalar 1; VScalar 2]
     (Model.self_ toy.discrete_model)).1 = Ok tt ∧
  Graph.runs
    (Model.G (Model.set_weights (F := toy.framework) [VScalar 1; VScalar 2]
                (Model.self_ toy.discrete_model)).2) =
  Graph.runs (Model.G (Model.self_ toy.discrete_model)) ++
    [(FetchList [Some 13%nat; Some 15%nat],
      [(12%nat, VScalar 1); (14%nat, VScalar 2)])].
Proof.
  assert (Hws : Graph.TRAINABLE_VARIABLES (F := toy.framework)
                  (Model.G (Model.self_ toy.discrete_model))
                = [2%nat; 3%nat]) by (vm_compute; reflexivity).
  split; [exact Hws|].
  pose proof (set_weights_runs_the_setters (F := toy.framework)
                [VScalar 1; VScalar 2] (Model.self_ toy.discrete_model)
                [(12%nat, 13%nat); (14%nat, 15%nat)]) as H.
  cbv zeta in H. rewrite Hws in H. rewrite H.
  - split; [cbn [fst]; vm_compute; reflexivity|]. reflexivity.
  - vm_compute. apply NoDup_cons. split; [intros Hin; inversion Hin as [|? ? ? Hin']; inversion Hin'|].
    apply NoDup_singleton.
  - reflexivity.
  - repeat constructor; vm_compute; reflexivity.
Defined.

(** X17 at work: leaving the context in a framework whose session runs
    fail. *)
Lemma exit_failure_leaves_graph_open_witness :
  ∃ gr,
    Graph.__exit__ (F := toy.dead_framework)
      (Graph.Build (F := toy.dead_framework) (TfState ∅ false true 0%nat)
         true []) =
      (Raise (Foreign "FailedPreconditionError" "uninitialized value"), gr) ∧
    finalized (Graph._graph gr) = false ∧
    is_default (Graph._graph gr) = true ∧
    Graph._context gr = true.
Proof.
  destruct (exit_failure_leaves_graph_open (F := toy.dead_framework)
              (Graph.Build (F := toy.dead_framework)
                 (TfState ∅ false true 0%nat) true [])) as (_ & H & _).
  eexists. split.
  - apply (H 0%nat (TfState ∅ false true 1%nat)); reflexivity.
  - by split_and!.
Defined.

(** X18 at work: the value function model of the discrete environment. *)
Lemma value_function_model_shape_witness :
  is_Ok (model_factories.value_function_model_factory (F := toy.framework)
           toy.squared_difference toy.discrete_env toy.network (1 # 100))
    = true ∧
  ∃ x tv l op,
    Model.__dict__ (Model.self_ toy.value_function_model) !! "state"
      = Some x ∧
    Model.__dict__ (Model.self_ toy.value_function_model) !! "target_value"
      = Some tv ∧
    Model._loss (Model.self_ toy.value_function_model) = Some l ∧
    Model._optimizer_op (Model.self_ toy.value_function_model) = Some op.
Proof.
  assert (Hok : is_Ok (model_factories.value_function_model_factory
                         (F := toy.framework) toy.squared_difference
                         toy.discrete_env toy.network (1 # 100)) = true)
    by (vm_compute; reflexivity).
  assert (Hm : model_factories.value_function_model_factory
                 (F := toy.framework) toy.squared_difference
                 toy.discrete_env toy.network (1 # 100)
               = Ok toy.value_function_model)
    by exact (ok_of_is_Ok _ (Model.blank toy.discrete_env) Hok).
  split; [exact Hok|].
  destruct (value_function_model_shape (F := toy.framework)
              toy.squared_difference toy.discrete_env toy.network (1 # 100)
              toy.value_function_model Hm)
    as (x & shp & out & tv & l & op & g1 & g3 & g5 & g7 & g9 & _ & _ & _ & _
        & _ & _ & _ & Hs & Ht & Hl & Hop & _).
  exists x, tv, l, op. split_and!; assumption.
Defined.

(** X19 at work: the CEM model of the discrete environment, two actions. *)
Lemma cem_model_shape_witness :
  is_Ok (model_factories.cem_model_factory (F := toy.framework)
           toy.discrete_env toy.network) = true ∧
  ∃ x out g g',
    toy.network softmax x 2 g = (Ok out, g') ∧
    Model.__dict__ (Model.self_ toy.cem_model) !! "input_node" = Some x.
Proof.
  assert (Hok : is_Ok (model_factories.cem_model_factory (F := toy.framework)
                         toy.discrete_env toy.network) = true)
    by (vm_compute; reflexivity).
  assert (Hm : model_factories.cem_model_factory (F := toy.framework)
                 toy.discrete_env toy.network = Ok toy.cem_model)
    by exact (ok_of_is_Ok _ (Model.blank toy.discrete_env) Hok).
  split; [exact Hok|].
  destruct (cem_model_shape (F := toy.framework) toy.discrete_env toy.network
              toy.cem_model Hm)
    as (x & shp & k & out & g1 & g3 & _ & _ & Hk & Hnet & Hin & _).
  injection Hk as <-.
  exists x, out, (tf_registered (F := toy.framework) "input:" x g1), g3.
  split; [exact Hnet|exact Hin].
Defined.
